(** * saveit: server actions over the Appwrite backend

    A shallow embedding of the server actions of [src/lib/actions]
    ([file.actions.ts] and [user.actions.ts]) and the properties the
    specification states about them.

    The actions are thin handlers over a remote backend (accounts, a document
    database, a storage bucket).  The backend is not part of the repository:
    it is modelled as an oracle that answers every request, given everything
    that was exchanged so far.  What an action does with the answers (which
    requests it issues, in which order, what it catches, what it returns) is
    translated from the TypeScript source. *)

From Stdlib Require Import ZArith String Ascii List Bool Lia Permutation.
From stdpp Require Import base option list gmap strings pretty.

Import ListNotations.
Local Open Scope string_scope.
Local Open Scope Z_scope.
Set Warnings "-register-all".

(** ** JavaScript values *)

(** The JSON fragment of JavaScript values: what the backend sends and what
    the handlers build.  An object is the list of its own properties, in
    insertion order. *)
Inductive value : Type :=
| VUndefined
| VNull
| VBool (b : bool)
| VNum (n : Z)
| VStr (s : string)
| VArr (items : list value)
| VObj (fields : list (string * value)).

Definition obj : Type := list (string * value).

(** [Boolean(v)], the test of [if (v)] and of [filter(Boolean)]. *)
Definition truthy (v : value) : bool :=
  match v with
  | VUndefined | VNull => false
  | VBool b => b
  | VNum n => negb (n =? 0)
  | VStr s => negb (String.eqb s "")
  | VArr _ | VObj _ => true
  end.

(** A string in a condition: [if (s)]. *)
Definition truthy_str (s : string) : bool := negb (String.eqb s "").

(** [v === null || v === undefined], the left operand test of [??]. *)
Definition nullish (v : value) : bool :=
  match v with
  | VUndefined | VNull => true
  | _ => false
  end.

Definition isArray (v : value) : bool :=
  match v with
  | VArr _ => true
  | _ => false
  end.

Definition items_of (v : value) : list value :=
  match v with
  | VArr l => l
  | _ => []
  end.

(** [o[k]] on the own properties of an object. *)
Fixpoint get_field (k : string) (o : obj) : value :=
  match o with
  | [] => VUndefined
  | (k', v) :: o' => if String.eqb k' k then v else get_field k o'
  end.

(** [o[k] = v]: an existing property keeps its place, a new one goes last. *)
Fixpoint set_field (k : string) (v : value) (o : obj) : obj :=
  match o with
  | [] => [(k, v)]
  | (k', v') :: o' =>
      if String.eqb k' k then (k, v) :: o' else (k', v') :: set_field k v o'
  end.

Definition keys (o : obj) : list string := map fst o.

(** ** Exceptions and results *)

Inductive exn : Type :=
| JsError (message : string)       (* new Error(message), and what the SDK throws *)
| TypeError (message : string)     (* a property read on null or undefined *)
| NextRedirect (url : string).     (* what redirect(url) of next/navigation throws *)

Inductive result (A : Type) : Type :=
| Return (a : A)
| Throw (e : exn).

Arguments Return {A} a.
Arguments Throw {A} e.

(** [v.k]: a TypeError on null and undefined; undefined on a value that has no
    such property (none of the names read here is a built-in member). *)
Definition prop (v : value) (k : string) : result value :=
  match v with
  | VUndefined | VNull => Throw (TypeError ("Cannot read properties of " ++ k))
  | VObj o => Return (get_field k o)
  | _ => Return VUndefined
  end.

(** ** Backend data *)

(** The two collections named by [appwriteConfig.usersCollectionId] and
    [appwriteConfig.filesCollectionId]. *)
Inductive collection : Type := Users | Files.

(** The five keys of [FileType]. *)
Inductive FileType : Type := image | document | video | audio | other.

(** A user document: its [$id] and its attributes. *)
Record UserDocument : Type := mkUser {
  u_id : string;
  u_fields : obj
}.

(** The [owner] of a file document as the backend returns it: a string id, an
    object (with or without [$id]), or nothing.  The listing can put other
    things in its place, which the owner map gives when it is read as the
    plain object it is: a built-in function of [Object.prototype],
    [Object.prototype] itself, or a value of any kind. *)
Inductive owner_field : Type :=
| OwnerId (id : string)
| OwnerObject (id : option string) (fields : obj)
| OwnerAbsent
| OwnerBuiltin (name : string)
| OwnerObjectPrototype
| OwnerValue (v : value).

(** A file document: the attributes the handlers read, at the types they
    are read at ([type] is cast to [FileType]; [size] is a number of bytes,
    an integer that JavaScript adds exactly), and the rest. *)
Record FileDocument : Type := mkFile {
  f_type : FileType;
  f_size : Z;
  f_updatedAt : string;
  f_owner : owner_field;
  f_fields : obj
}.

Definition Document (c : collection) : Type :=
  match c with
  | Users => UserDocument
  | Files => FileDocument
  end.

(** [Models.DocumentList]; [documents] is [None] when the answer carries no
    array there. *)
Record DocumentList (D : Type) : Type := mkList {
  total : Z;
  documents : option (list D)
}.

Arguments mkList {D} total documents.
Arguments total {D} d.
Arguments documents {D} d.

(** The browser [File] handed to the upload and the [InputFile] made of it. *)
Record File : Type := mkBrowserFile {
  file_name : string;
  file_bytes : list Byte.byte
}.

Record InputFile : Type := mkInputFile {
  input_bytes : list Byte.byte;
  input_name : string
}.

Definition InputFile_fromBuffer (f : File) (name : string) : InputFile :=
  {| input_bytes := file_bytes f; input_name := name |}.

(** [Models.File], the bucket object. *)
Record BucketFile : Type := mkBucketFile {
  bf_id : string;
  bf_name : string;
  bf_sizeOriginal : Z
}.

(** [Models.Token] and [Models.User], as far as they are read. *)
Record Token : Type := mkToken { tok_userId : string }.
Record Account : Type := mkAccount { acc_id : string }.

(** ** Queries *)

(** The queries of node-appwrite's [Query], as the calls that build them. *)
Inductive query : Type :=
| QEqual (attribute : string) (v : value)
| QContains (attribute : string) (v : value)
| QLimit (n : Z)
| QOrderAsc (attribute : string)
| QOrderDesc (attribute : string)
| QOr (queries : list query).

(** ** Requests and the backend *)

Inductive call : Type :=
| CreateAdminClient
| CreateSessionClient
| StorageCreateFile (bucketId fileId : string) (file : InputFile)
| StorageDeleteFile (bucketId fileId : string)
| ListAttributes (databaseId : string) (c : collection)
| CreateStringAttribute (databaseId : string) (c : collection) (key : string)
    (size : Z) (required : bool)
| CreateDocument (databaseId : string) (c : collection) (id : string) (data : obj)
| GetDocument (databaseId : string) (c : collection) (id : string)
| ListDocuments (databaseId : string) (c : collection) (queries : list query)
| AccountCreateEmailToken (userId email : string)
| AccountGet
| AccountDeleteSession (sessionId : string).

Definition answer (c : call) : Type :=
  match c with
  | CreateAdminClient | CreateSessionClient => unit
  | StorageCreateFile _ _ _ => BucketFile
  | StorageDeleteFile _ _ => unit
  | ListAttributes _ _ => value
  | CreateStringAttribute _ _ _ _ _ => unit
  | CreateDocument _ c _ _ => Document c
  | GetDocument _ c _ => Document c
  | ListDocuments _ c _ => DocumentList (Document c)
  | AccountCreateEmailToken _ _ => Token
  | AccountGet => Account
  | AccountDeleteSession _ => unit
  end.

(** One exchange: the request and what came back. *)
Record interaction : Type := mkInteraction {
  i_call : call;
  i_answer : result (answer i_call)
}.

(** The backend: its answer to a request, after the exchanges so far. *)
Definition backend : Type :=
  list interaction -> forall c : call, result (answer c).

Inductive log_line : Type :=
| LogError (message : string) (e : exn)
| LogText (text : string).

(** What a handler can change: the exchanges with the backend, the objects
    of the bucket, the cookies of the response, the console and the paths
    asked to be revalidated. *)
Record world : Type := mkWorld {
  transcript : list interaction;
  bucket : gset string;
  cookies : gmap string string;
  console : list log_line;
  revalidated : list string
}.

Definition with_transcript (t : list interaction) (w : world) : world :=
  {| transcript := t; bucket := bucket w; cookies := cookies w;
     console := console w; revalidated := revalidated w |}.

Definition with_bucket (b : gset string) (w : world) : world :=
  {| transcript := transcript w; bucket := b; cookies := cookies w;
     console := console w; revalidated := revalidated w |}.

Definition with_cookies (c : gmap string string) (w : world) : world :=
  {| transcript := transcript w; bucket := bucket w; cookies := c;
     console := console w; revalidated := revalidated w |}.

Definition with_console (l : list log_line) (w : world) : world :=
  {| transcript := transcript w; bucket := bucket w; cookies := cookies w;
     console := l; revalidated := revalidated w |}.

Definition with_revalidated (l : list string) (w : world) : world :=
  {| transcript := transcript w; bucket := bucket w; cookies := cookies w;
     console := console w; revalidated := l |}.

(** What a successful request changes besides the transcript: the bucket
    gains the object created and loses the object deleted. *)
Definition effect (c : call) : result (answer c) -> world -> world :=
  match c with
  | StorageCreateFile _ _ _ => fun r w =>
      match r with
      | Return bf => with_bucket ({[ bf_id bf ]} ∪ bucket w) w
      | Throw _ => w
      end
  | StorageDeleteFile _ fileId => fun r w =>
      match r with
      | Return _ => with_bucket (bucket w ∖ {[ fileId ]}) w
      | Throw _ => w
      end
  | _ => fun _ w => w
  end.

(** ** The handler monad: state and exceptions *)

Definition M (A : Type) : Type := world -> result A * world.

Definition ret {A} (a : A) : M A := fun w => (Return a, w).

Definition throw {A} (e : exn) : M A := fun w => (Throw e, w).

Definition bind {A B} (m : M A) (k : A -> M B) : M B :=
  fun w =>
    match m w with
    | (Return a, w') => k a w'
    | (Throw e, w') => (Throw e, w')
    end.

(** A pure computation that may throw, run inside a handler. *)
Definition lift {A} (r : result A) : M A := fun w => (r, w).

(** [try { m } catch (e) { h e }] *)
Definition try_catch {A} (m : M A) (h : exn -> M A) : M A :=
  fun w =>
    match m w with
    | (Return a, w') => (Return a, w')
    | (Throw e, w') => h e w'
    end.

(** [try { m } finally { f }]: [f] runs on both exits, and an exit of its own
    replaces the one of [m]. *)
Definition try_finally {A} (m : M A) (f : M unit) : M A :=
  fun w =>
    match m w with
    | (r, w') =>
        match f w' with
        | (Return _, w'') => (r, w'')
        | (Throw e, w'') => (Throw e, w'')
        end
    end.

Declare Scope handler_scope.
Delimit Scope handler_scope with handler.
Notation "x <- m ;; k" := (bind m (fun x => k))
  (at level 100, m at next level, right associativity) : handler_scope.
Notation "m ;; k" := (bind m (fun _ => k))
  (at level 100, right associativity) : handler_scope.
Local Open Scope handler_scope.

(** The same sequencing for pure computations that may throw. *)
Definition bind_r {A B} (r : result A) (k : A -> result B) : result B :=
  match r with
  | Return a => k a
  | Throw e => Throw e
  end.

Fixpoint mapM_r {A B} (f : A -> result B) (l : list A) : result (list B) :=
  match l with
  | [] => Return []
  | a :: l' =>
      bind_r (f a) (fun b => bind_r (mapM_r f l') (fun bs => Return (b :: bs)))
  end.

(** [console.log] / [console.error] *)
Definition console_log (l : log_line) : M unit :=
  fun w => (Return tt, with_console (console w ++ [l]) w).

(** [revalidatePath(path)] of next/cache *)
Definition revalidatePath (path : string) : M unit :=
  fun w => (Return tt, with_revalidated (revalidated w ++ [path]) w).

(** [redirect(url)] of next/navigation: it throws. *)
Definition redirect {A} (url : string) : M A := throw (NextRedirect url).

(** [(await cookies()).delete(name)] *)
Definition cookies_delete (name : string) : M unit :=
  fun w => (Return tt, with_cookies (delete name (cookies w)) w).

(** [s.split(sep)] for a one-character separator. *)
Fixpoint split_on (sep : ascii) (s : string) : list string :=
  match s with
  | EmptyString => [EmptyString]
  | String c rest =>
      if Ascii.eqb c sep then EmptyString :: split_on sep rest
      else match split_on sep rest with
           | [] => [String c EmptyString]
           | h :: t => String c h :: t
           end
  end.

(** [Array.from(new Set(l))]: the first occurrence of each element, in order. *)
Fixpoint uniq_from (seen : list string) (l : list string) : list string :=
  match l with
  | [] => []
  | x :: l' =>
      if bool_decide (x ∈ seen) then uniq_from seen l'
      else x :: uniq_from (x :: seen) l'
  end.

Definition uniq (l : list string) : list string := uniq_from [] l.

(** [dl.documents] where an array is expected. *)
Definition documents_of {D} (dl : DocumentList D) : result (list D) :=
  match documents dl with
  | Some l => Return l
  | None => Throw (TypeError "Cannot read properties of undefined")
  end.

(** [dl.documents[0]]; [None] is undefined. *)
Definition first_document {D} (dl : DocumentList D) : result (option D) :=
  bind_r (documents_of dl) (fun l => Return (l !! 0%nat)).

(** The attribute list of a [listAttributes] answer, whatever its shape:
    [Array.isArray(r.attributes) ? r.attributes : Array.isArray(r) ? r : []]. *)
Definition attrsArray_of (attrsResp : value) : result (list value) :=
  bind_r (prop attrsResp "attributes") (fun attributes =>
    Return (if isArray attributes then items_of attributes
            else if isArray attrsResp then items_of attrsResp
            else [])).

(** [v === s] for a string [s]. *)
Definition is_string (s : string) (v : value) : bool :=
  match v with
  | VStr s' => String.eqb s' s
  | _ => false
  end.

(** [l.some(f)], where [f] may throw. *)
Fixpoint some_r {A} (f : A -> result bool) (l : list A) : result bool :=
  match l with
  | [] => Return false
  | a :: l' => bind_r (f a) (fun b => if b then Return true else some_r f l')
  end.

(** What [getCurrentUser] resolves to: a user document, null, or undefined. *)
Inductive current_user : Type :=
| UserFound (u : UserDocument)
| UserNull
| UserUndefined.

(** The object [{ accountId }] that [createAccount] returns. *)
Record AccountRef : Type := mkAccountRef { accountId : string }.

(** One entry of [totalSpace] and [totalSpace] itself. *)
Record Usage : Type := mkUsage {
  usage_size : Z;
  latestDate : string
}.

Record TotalSpace : Type := mkTotalSpace {
  ts_image : Usage;
  ts_document : Usage;
  ts_video : Usage;
  ts_audio : Usage;
  ts_other : Usage;
  ts_used : Z;
  ts_all : Z
}.

(** [totalSpace[fileType]] *)
Definition usage_of (t : FileType) (ts : TotalSpace) : Usage :=
  match t with
  | image => ts_image ts
  | document => ts_document ts
  | video => ts_video ts
  | audio => ts_audio ts
  | other => ts_other ts
  end.

(** [totalSpace[fileType] = u] *)
Definition set_usage (t : FileType) (u : Usage) (ts : TotalSpace) : TotalSpace :=
  match t with
  | image =>
      mkTotalSpace u (ts_document ts) (ts_video ts) (ts_audio ts) (ts_other ts)
        (ts_used ts) (ts_all ts)
  | document =>
      mkTotalSpace (ts_image ts) u (ts_video ts) (ts_audio ts) (ts_other ts)
        (ts_used ts) (ts_all ts)
  | video =>
      mkTotalSpace (ts_image ts) (ts_document ts) u (ts_audio ts) (ts_other ts)
        (ts_used ts) (ts_all ts)
  | audio =>
      mkTotalSpace (ts_image ts) (ts_document ts) (ts_video ts) u (ts_other ts)
        (ts_used ts) (ts_all ts)
  | other =>
      mkTotalSpace (ts_image ts) (ts_document ts) (ts_video ts) (ts_audio ts) u
        (ts_used ts) (ts_all ts)
  end.

Definition set_used (n : Z) (ts : TotalSpace) : TotalSpace :=
  mkTotalSpace (ts_image ts) (ts_document ts) (ts_video ts) (ts_audio ts)
    (ts_other ts) n (ts_all ts).

(** The props of [getFiles]; a missing one is [None]. *)
Record GetFilesProps : Type := mkGetFilesProps {
  p_types : option (list string);
  p_searchText : option string;
  p_sort : option string;
  p_limit : option Z
}.

(** The user document as the [owner] of a file. *)
Definition owner_of_user (u : UserDocument) : owner_field :=
  OwnerObject (Some (u_id u)) (u_fields u).

(** [typeof owner === "string" ? owner : (owner?.$id ?? null)]; [None] is null. *)
Definition ownerId_of (o : owner_field) : option string :=
  match o with
  | OwnerId s => Some s
  | OwnerObject id _ => id
  | OwnerAbsent => None
  | OwnerBuiltin _ => None
  | OwnerObjectPrototype => None
  | OwnerValue v =>
      match v with
      | VStr s => Some s
      | VObj fields =>
          match get_field "$id" fields with
          | VStr s => Some s
          | _ => None
          end
      | _ => None
      end
  end.

(** [{ ...f, owner: o }] *)
Definition with_owner (o : owner_field) (f : FileDocument) : FileDocument :=
  {| f_type := f_type f; f_size := f_size f; f_updatedAt := f_updatedAt f;
     f_owner := o; f_fields := f_fields f |}.

(** *** The owner map, a plain object *)

(** [ownerMap] starts as [{}] and is indexed by owner ids, which are any
    strings: it is modelled as the ordinary object it is.  Its own
    properties hold a user document or undefined ([None]); its prototype is
    [Object.prototype] ([None]) until a document is assigned to [__proto__],
    which then is the prototype. *)
Record owner_map : Type := mkOwnerMap {
  own : gmap string (option UserDocument);
  prototype : option UserDocument
}.

(** The own properties of [Object.prototype] besides the accessor
    [__proto__]: built-in functions, all of them writable data properties. *)
Definition builtin_members : list string :=
  ["constructor"; "__defineGetter__"; "__defineSetter__"; "hasOwnProperty";
   "__lookupGetter__"; "__lookupSetter__"; "isPrototypeOf";
   "propertyIsEnumerable"; "toString"; "valueOf"; "toLocaleString"].

Definition is_builtin (k : string) : bool :=
  existsb (String.eqb k) builtin_members.

(** The own properties of a user document, an object parsed from JSON: its
    [$id] and its attributes. *)
Definition has_own (d : UserDocument) (k : string) : bool :=
  String.eqb k "$id" || existsb (String.eqb k) (keys (u_fields d)).

Definition own_value (d : UserDocument) (k : string) : value :=
  if String.eqb k "$id" then VStr (u_id d) else get_field k (u_fields d).

(** Whether the object has the own property [k]. *)
Definition owns (ownerMap : owner_map) (k : string) : bool :=
  match own ownerMap !! k with
  | Some _ => true
  | None => false
  end.

(** Whether an assignment to [k] reaches the setter of
    [Object.prototype.__proto__]: no object before it on the chain has a
    property of that name. *)
Definition reaches_proto_setter (ownerMap : owner_map) (k : string) : bool :=
  String.eqb k "__proto__"
  && negb (owns ownerMap k)
  && negb match prototype ownerMap with
          | Some p => has_own p k
          | None => false
          end.

(** [ownerMap[k] = d], where [d] may be undefined.  The setter of
    [__proto__] makes a document the prototype and ignores undefined; any
    other assignment writes the own property [k]. *)
Definition assign (k : string) (d : option UserDocument)
    (ownerMap : owner_map) : owner_map :=
  if reaches_proto_setter ownerMap k then
    match d with
    | Some u => {| own := own ownerMap; prototype := Some u |}
    | None => ownerMap
    end
  else {| own := <[k := d]> (own ownerMap); prototype := prototype ownerMap |}.

(** What [ownerMap[k]] evaluates to. *)
Inductive member : Type :=
| MDocument (d : UserDocument)
| MUndefined
| MBuiltin (name : string)
| MObjectPrototype
| MValue (v : value).

(** [Object.prototype[k]], read for an object whose prototype is [p]. *)
Definition inherited (p : member) (k : string) : member :=
  if String.eqb k "__proto__" then p
  else if is_builtin k then MBuiltin k
  else MUndefined.

(** [ownerMap[k]]: the own property; else the property of the document that
    is the prototype; else what [Object.prototype] has under that name. *)
Definition read (k : string) (ownerMap : owner_map) : member :=
  match own ownerMap !! k with
  | Some (Some d) => MDocument d
  | Some None => MUndefined
  | None =>
      match prototype ownerMap with
      | Some p =>
          if has_own p k then MValue (own_value p k)
          else inherited (MDocument p) k
      | None => inherited MObjectPrototype k
      end
  end.

(** [ownerMap !! k] is the user document that was assigned under [k] and is
    still there: what the own property [k] holds, and for [__proto__]
    without such a property, the document that is the prototype.  It says
    what was resolved; what reading the key gives is [read]. *)
#[global] Instance owner_map_lookup : Lookup string UserDocument owner_map :=
  fun k ownerMap =>
    match own ownerMap !! k with
    | Some d => d
    | None => if String.eqb k "__proto__" then prototype ownerMap else None
    end.

(** [{}] *)
#[global] Instance owner_map_empty : Empty owner_map :=
  {| own := ∅; prototype := None |}.

(** ** The actions *)

Section Actions.

Set Default Proof Using "Type".

(** The backend, and what the actions import from files that are not part
    of the sources at hand: [ID.unique] (node-appwrite), [parseStringify],
    [constructFileUrl] and [getFileType] ([lib/utils]),
    [avatarPlaceholderUrl] ([constants]), the ids of [appwriteConfig]
    ([lib/appwrite/config]) and the time value of a date string
    ([Date.parse]; [None] is NaN). *)
Variable be : backend.
Variable ID_unique : list interaction -> string.
Variable parseStringify : forall A : Type, A -> A.
Variable constructFileUrl : string -> string.
Variable getFileType : string -> string * string.
Variable avatarPlaceholderUrl : string.
Variable bucketId databaseId : string.
Variable Date_parse : string -> option Z.

(** A request: the backend answers, the exchange is recorded, and a
    successful storage request changes the bucket. *)
Definition request (c : call) : M (answer c) :=
  fun w =>
    let r := be (transcript w) c in
    (r, effect c r (with_transcript (transcript w ++ [mkInteraction c r]) w)).

(** The world after the request [c]. *)
Definition after (c : call) (w : world) : world := snd (request c w).

(** [ID.unique()] *)
Definition unique : M string :=
  fun w => (Return (ID_unique (transcript w)), w).

(** *** user.actions.ts *)

Definition handleError_user {A} (error : exn) (message : string) : M A :=
  console_log (LogError message error) ;; throw error.

(** [a.key === key || a.$id === key] *)
Definition attribute_is (key : string) (a : value) : result bool :=
  bind_r (prop a "key") (fun k =>
    if is_string key k then Return true
    else bind_r (prop a "$id") (fun i => Return (is_string key i))).

(** The callers never pass [size] and [required]: they are 255 and false. *)
Definition ensureStringAttribute (collectionId : collection) (key : string)
    (size : Z) (required : bool) : M bool :=
  attrsResp <- request (ListAttributes databaseId collectionId) ;;
  attrsArray <- lift (attrsArray_of attrsResp) ;;
  exists_ <- lift (some_r (attribute_is key) attrsArray) ;;
  if (exists_ : bool) then ret false
  else
    request (CreateStringAttribute databaseId collectionId key size required) ;;
    ret true.

(** The loop of [ensureAttributes], with [created] as it stands. *)
Fixpoint ensureAttributes_from (created : list string)
    (collectionId : collection) (keys : list string) : M (list string) :=
  match keys with
  | [] => ret created
  | key :: keys' =>
      created' <-
        try_catch
          (didCreate <- ensureStringAttribute collectionId key 255 false ;;
           if (didCreate : bool) then
             console_log (LogText ("Attribute created: " ++ key)) ;;
             ret (created ++ [key])%list
           else
             console_log (LogText ("Attribute already exists: " ++ key)) ;;
             ret created)
          (fun err =>
             console_log (LogError ("Failed ensuring attribute " ++ key) err) ;;
             throw err) ;;
      ensureAttributes_from created' collectionId keys'
  end.

Definition ensureAttributes (collectionId : collection) (keys : list string)
    : M (list string) :=
  ensureAttributes_from [] collectionId keys.

(** [None] is null or undefined. *)
Definition getUserByEmail (email : string) : M (option UserDocument) :=
  request CreateAdminClient ;;
  result <- request
    (ListDocuments databaseId Users [QEqual "email" (VArr [VStr email])]) ;;
  if 0 <? total result then lift (first_document result) else ret None.

Definition sendEmailOTP (email : string) : M string :=
  request CreateAdminClient ;;
  try_catch
    (id <- unique ;;
     session <- request (AccountCreateEmailToken id email) ;;
     ret (tok_userId session))
    (fun error => handleError_user error "Failed to send email OTP").

Definition keysToEnsure : list string :=
  ["fullName"; "email"; "avatar"; "accountId"].

Definition createAccount (fullName email : string) : M AccountRef :=
  existingUser <- getUserByEmail email ;;
  accountId <- sendEmailOTP email ;;
  if negb (truthy_str accountId) then throw (JsError "Failed to send an OTP")
  else
    match existingUser with
    | None =>
        request CreateAdminClient ;;
        try_catch (ensureAttributes Users keysToEnsure ;; ret tt)
          (fun err =>
             handleError_user err "Failed to ensure collection attributes") ;;
        try_catch
          (id <- unique ;;
           request
             (CreateDocument databaseId Users id
                [("fullName", VStr fullName); ("email", VStr email);
                 ("avatar", VStr avatarPlaceholderUrl);
                 ("accountId", VStr accountId)]) ;;
           ret tt)
          (fun err =>
             console_log (LogError "createDocument failed:" err) ;;
             throw err)
    | Some _ => ret tt
    end ;;
    ret (parseStringify _ {| accountId := accountId |}).

(** When [user.documents[0]] is undefined the JSON round trip of
    [parseStringify] gives undefined or throws inside the [try]: the
    action answers undefined either way. *)
Definition getCurrentUser : M current_user :=
  try_catch
    (request CreateSessionClient ;;
     result <- request AccountGet ;;
     user <- request
       (ListDocuments databaseId Users
          [QEqual "accountId" (VStr (acc_id result))]) ;;
     if total user <=? 0 then ret UserNull
     else
       first <- lift (first_document user) ;;
       match first with
       | Some d => ret (UserFound (parseStringify _ d))
       | None => ret UserUndefined
       end)
    (fun error => console_log (LogError "" error) ;; ret UserUndefined).

Definition signOutUser : M unit :=
  request CreateSessionClient ;;
  try_finally
    (try_catch
       (request (AccountDeleteSession "current") ;;
        cookies_delete "appwrite-session")
       (fun error => handleError_user error "Failed to sign out user"))
    (redirect "/sign-in").

(** *** file.actions.ts *)

Definition handleError_file {A} (error : exn) (message : string) : M A :=
  console_log (LogError message error) ;; throw error.

(** [attrsArray.map((a) => a.key ?? a.$id).filter(Boolean)], the elements
    of [existingKeys]. *)
Definition existingKeys_of (attrsArray : list value) : result (list value) :=
  bind_r
    (mapM_r
       (fun a =>
          bind_r (prop a "key") (fun k =>
            if nullish k then prop a "$id" else Return k))
       attrsArray)
    (fun ks => Return (List.filter truthy ks)).

(** [existingKeys.has(k)] *)
Definition has (existingKeys : list value) (k : string) : bool :=
  existsb (is_string k) existingKeys.

(** [None] is null. *)
Fixpoint pickKey (existingKeys : list value) (candidates : list string)
    : option string :=
  match candidates with
  | [] => None
  | k :: candidates' =>
      if has existingKeys k then Some k else pickKey existingKeys candidates'
  end.

(** [if (pickKey(...))] *)
Definition picked (k : option string) : bool :=
  match k with
  | Some s => truthy_str s
  | None => false
  end.

Definition accountCandidates : list string :=
  ["accountID"; "accountId"; "account_id"].

Definition bucketFileCandidates : list string :=
  ["bucketFileId"; "bucket_file_id"; "bucketFile"; "bucket_file"; "bucketField"].

(** The payload [fileDocument] of the upload. *)
Definition fileDocument_of (existingKeys : list value) (bucketFile : BucketFile)
    (ownerId accountId : string) : obj :=
  let pick := pickKey existingKeys in
  let d0 : obj := [] in
  let d1 := if picked (pick ["name"])
            then set_field "name" (VStr (bf_name bucketFile)) d0 else d0 in
  let d2 := if picked (pick ["url"])
            then set_field "url" (VStr (constructFileUrl (bf_id bucketFile))) d1
            else d1 in
  let d3 := if picked (pick ["type"])
            then set_field "type" (VStr (fst (getFileType (bf_name bucketFile)))) d2
            else d2 in
  let d4 := if picked (pick ["extension"])
            then set_field "extension"
                   (VStr (snd (getFileType (bf_name bucketFile)))) d3
            else d3 in
  let d5 := if picked (pick ["size"])
            then set_field "size" (VNum (bf_sizeOriginal bucketFile)) d4 else d4 in
  let d6 := if picked (pick ["owner"])
            then set_field "owner" (VStr ownerId) d5 else d5 in
  let accountKey := pick accountCandidates in
  let d7 := match accountKey with
            | Some k => if truthy_str k then set_field k (VStr accountId) d6 else d6
            | None => d6
            end in
  let bucketFileKey := pick bucketFileCandidates in
  let d8 := match bucketFileKey with
            | Some k =>
                if truthy_str k then set_field k (VStr (bf_id bucketFile)) d7
                else d7
            | None => d7
            end in
  if picked (pick ["users"]) then set_field "users" (VArr []) d8 else d8.

Definition uploadFile (file : File) (ownerId accountId path : string)
    : M FileDocument :=
  request CreateAdminClient ;;
  try_catch
    (let inputFile := InputFile_fromBuffer file (file_name file) in
     fileId <- unique ;;
     bucketFile <- request (StorageCreateFile bucketId fileId inputFile) ;;
     attrsResp <- request (ListAttributes databaseId Files) ;;
     attrsArray <- lift (attrsArray_of attrsResp) ;;
     existingKeys <- lift (existingKeys_of attrsArray) ;;
     let fileDocument :=
       fileDocument_of existingKeys bucketFile ownerId accountId in
     documentId <- unique ;;
     newFile <-
       try_catch
         (request (CreateDocument databaseId Files documentId fileDocument))
         (fun error =>
            request (StorageDeleteFile bucketId (bf_id bucketFile)) ;;
            handleError_file error "Failed to create file document") ;;
     revalidatePath path ;;
     ret (parseStringify _ newFile))
    (fun error => handleError_file error "Failed to upload file").

Definition user_email (u : UserDocument) : value :=
  get_field "email" (u_fields u).

(** [orderBy === "asc"]; [None] is undefined, the second part of a sort
    string without a dash. *)
Definition is_asc (orderBy : option string) : bool :=
  match orderBy with
  | Some s => String.eqb s "asc"
  | None => false
  end.

(** [limit] is [None] when the argument is not passed. *)
Definition createQueries (currentUser : UserDocument) (types : list string)
    (searchText sort : string) (limit : option Z) : list query :=
  let orClauses := [QEqual "owner" (VArr [VStr (u_id currentUser)])] in
  let orClauses :=
    if truthy (user_email currentUser)
    then (orClauses ++ [QContains "users" (VArr [user_email currentUser])])%list
    else orClauses in
  let queries := [QOr orClauses] in
  let queries :=
    if (0 <? length types)%nat
    then (queries ++ [QEqual "type" (VArr (map VStr types))])%list
    else queries in
  let queries :=
    if truthy_str searchText
    then (queries ++ [QContains "name" (VStr searchText)])%list
    else queries in
  let queries :=
    match limit with
    | Some n => if negb (n =? 0) then (queries ++ [QLimit n])%list else queries
    | None => queries
    end in
  if truthy_str sort then
    let parts := split_on "-" sort in
    let sortBy := nth 0 parts "" in
    let orderBy := nth_error parts 1 in
    (queries ++
       [if is_asc orderBy then QOrderAsc sortBy else QOrderDesc sortBy])%list
  else queries.

(** The ids collected from the owners of the files: strings, the [$id] of
    objects, without the falsy ones, each once. *)
Definition ownerIds_of (files : list FileDocument) : list string :=
  uniq (List.filter truthy_str (omap (fun f => ownerId_of (f_owner f)) files)).

(** The callback of [ownerIds.map] with [ownerMap] as it stands. *)
Definition resolveOwner (ownerId : string)
    (ownerMap : owner_map) : M owner_map :=
  try_catch
    (userDoc <- request (GetDocument databaseId Users ownerId) ;;
     ret (assign ownerId (Some userDoc) ownerMap))
    (fun err =>
       try_catch
         (byAccount <- request
            (ListDocuments databaseId Users
               [QEqual "accountId" (VArr [VStr ownerId]); QLimit 1]) ;;
          if 0 <? total byAccount then
            first <- lift (first_document byAccount) ;;
            ret (assign ownerId first ownerMap)
          else
            byEmail <- request
              (ListDocuments databaseId Users
                 [QEqual "email" (VArr [VStr ownerId]); QLimit 1]) ;;
            if 0 <? total byEmail then
              first <- lift (first_document byEmail) ;;
              ret (assign ownerId first ownerMap)
            else ret ownerMap)
         (fun err2 => ret ownerMap)).

(** [await Promise.all(ownerIds.map(...))].  The callbacks only read from the
    backend and each assigns under its own id, once: they are run one after
    the other, in the order of [ownerIds]. *)
Fixpoint resolveOwners (ownerIds : list string)
    (ownerMap : owner_map) : M owner_map :=
  match ownerIds with
  | [] => ret ownerMap
  | ownerId :: ownerIds' =>
      ownerMap' <- resolveOwner ownerId ownerMap ;;
      resolveOwners ownerIds' ownerMap'
  end.

(** [resolvedOwner ?? owner]: what was read, unless it is null or
    undefined. *)
Definition or_owner (resolvedOwner : member) (owner : owner_field)
    : owner_field :=
  match resolvedOwner with
  | MDocument d => owner_of_user d
  | MUndefined => owner
  | MBuiltin k => OwnerBuiltin k
  | MObjectPrototype => OwnerObjectPrototype
  | MValue v => if nullish v then owner else OwnerValue v
  end.

(** The callback of [files.map]: [{ ...f, owner: resolvedOwner ?? f.owner }],
    where [resolvedOwner] is [ownerMap[ownerIdValue]] for a truthy id and
    null otherwise. *)
Definition attachOwner (ownerMap : owner_map)
    (f : FileDocument) : FileDocument :=
  let ownerIdValue := ownerId_of (f_owner f) in
  let resolvedOwner :=
    match ownerIdValue with
    | Some id => if truthy_str id then read id ownerMap else MValue VNull
    | None => MValue VNull
    end in
  with_owner (or_owner resolvedOwner (f_owner f)) f.

Definition getFiles (props : GetFilesProps) : M (DocumentList FileDocument) :=
  let types := default [] (p_types props) in
  let searchText := default "" (p_searchText props) in
  let sort := default "$createdAt-desc" (p_sort props) in
  let limit := p_limit props in
  request CreateAdminClient ;;
  try_catch
    (currentUser <- getCurrentUser ;;
     match currentUser with
     | UserFound u =>
         let queries := createQueries u types searchText sort limit in
         filesResp <- request (ListDocuments databaseId Files queries) ;;
         let files := default [] (documents filesResp) in
         let ownerIds := ownerIds_of files in
         ownerMap <- resolveOwners ownerIds ∅ ;;
         let filesWithOwners := map (attachOwner ownerMap) files in
         let out := {| total := total filesResp;
                       documents := Some filesWithOwners |} in
         ret (parseStringify _ out)
     | _ => throw (JsError "User not found")
     end)
    (fun error => handleError_file error "Failed to get files").

(** [new Date(s).getTime()]: the empty string is no date. *)
Definition Date_value (s : string) : option Z :=
  if String.eqb s "" then None else Date_parse s.

(** [new Date(a) > new Date(b)]: false as soon as one side is no date. *)
Definition Date_gt (a b : string) : bool :=
  match Date_value a, Date_value b with
  | Some x, Some y => y <? x
  | _, _ => false
  end.

Definition initialSpace : TotalSpace :=
  {| ts_image := mkUsage 0 ""; ts_document := mkUsage 0 "";
     ts_video := mkUsage 0 ""; ts_audio := mkUsage 0 "";
     ts_other := mkUsage 0 ""; ts_used := 0;
     ts_all := 2 * 1024 * 1024 * 1024 |}.

(** The callback of [files.documents.forEach]. *)
Definition addFile (totalSpace : TotalSpace) (file : FileDocument) : TotalSpace :=
  let fileType := f_type file in
  let totalSpace :=
    set_usage fileType
      (mkUsage (usage_size (usage_of fileType totalSpace) + f_size file)
         (latestDate (usage_of fileType totalSpace)))
      totalSpace in
  let totalSpace := set_used (ts_used totalSpace + f_size file) totalSpace in
  if negb (truthy_str (latestDate (usage_of fileType totalSpace)))
     || Date_gt (f_updatedAt file) (latestDate (usage_of fileType totalSpace))
  then
    set_usage fileType
      (mkUsage (usage_size (usage_of fileType totalSpace)) (f_updatedAt file))
      totalSpace
  else totalSpace.

Definition getTotalSpaceUsed : M TotalSpace :=
  try_catch
    (request CreateSessionClient ;;
     currentUser <- getCurrentUser ;;
     match currentUser with
     | UserFound u =>
         files <- request
           (ListDocuments databaseId Files
              [QEqual "owner" (VArr [VStr (u_id u)])]) ;;
         documents <- lift (documents_of files) ;;
         let totalSpace := fold_left addFile documents initialSpace in
         ret (parseStringify _ totalSpace)
     | _ => throw (JsError "User is not authenticated.")
     end)
    (fun error => handleError_file error "Error calculating total space used:, ").

(** ** Properties *)

Ltac run :=
  unfold after, bind, try_catch, try_finally, lift, ret, throw, redirect,
    request, unique, console_log, revalidatePath, cookies_delete,
    handleError_user, handleError_file in *;
  cbn [fst snd effect] in *.

Lemma request_run (c : call) (w : world) :
  request c w = (be (transcript w) c, after c w).
Proof. reflexivity. Qed.

Lemma transcript_after (c : call) (w : world) :
  transcript (after c w)
  = (transcript w ++ [mkInteraction c (be (transcript w) c)])%list.
Proof.
  unfold after, request. cbn.
  destruct c; cbn; try reflexivity;
    destruct (be (transcript w) _); reflexivity.
Qed.

(** *** The current user *)

(** C7: [getCurrentUser] never throws.  It returns the first user document
    of the listing by account id, null when the listing counts no document,
    and undefined as soon as the session client, the account or the listing
    fails (or the listing counts documents and carries none). *)
Theorem getCurrentUser_never_throws (w : world) :
  let w1 := after CreateSessionClient w in
  let w2 := after AccountGet w1 in
  (exists cu, fst (getCurrentUser w) = Return cu)
  /\ fst (getCurrentUser w)
     = Return
         match be (transcript w) CreateSessionClient with
         | Throw _ => UserUndefined
         | Return _ =>
             match be (transcript w1) AccountGet with
             | Throw _ => UserUndefined
             | Return result =>
                 match be (transcript w2)
                         (ListDocuments databaseId Users
                            [QEqual "accountId" (VStr (acc_id result))]) with
                 | Throw _ => UserUndefined
                 | Return user =>
                     if total user <=? 0 then UserNull
                     else match documents user with
                          | Some (d :: _) => UserFound (parseStringify _ d)
                          | _ => UserUndefined
                          end
                 end
             end
         end.
Proof.
  cbn zeta.
  assert (E : fst (getCurrentUser w)
     = Return
         match be (transcript w) CreateSessionClient with
         | Throw _ => UserUndefined
         | Return _ =>
             match be (transcript (after CreateSessionClient w)) AccountGet with
             | Throw _ => UserUndefined
             | Return result =>
                 match be (transcript (after AccountGet (after CreateSessionClient w)))
                         (ListDocuments databaseId Users
                            [QEqual "accountId" (VStr (acc_id result))]) with
                 | Throw _ => UserUndefined
                 | Return user =>
                     if total user <=? 0 then UserNull
                     else match documents user with
                          | Some (d :: _) => UserFound (parseStringify _ d)
                          | _ => UserUndefined
                          end
                 end
             end
         end).
  { unfold getCurrentUser. run.
    destruct (be (transcript w) CreateSessionClient) as [[]|e]; cbn; [|done].
    destruct (be _ AccountGet) as [result|e]; cbn; [|done].
    destruct (be _ (ListDocuments _ _ _)) as [user|e]; cbn; [|done].
    cbn [answer Document] in *.
    destruct (total user <=? 0); cbn; [done|].
    unfold first_document, documents_of.
    destruct (documents user) as [[|d l]|]; cbn; done. }
  split; [|exact E]. rewrite E. eauto.
Qed.

(** *** Sign-out *)

(** C2, as the code has it: once the session client is there, sign-out
    deletes the appwrite-session cookie when the remote session deletion
    succeeds, leaves the cookies as they were when it fails, and ends with
    the redirect to /sign-in in both cases; without a session client it
    stops with that failure. *)
Theorem signOutUser_cookie_iff_session_deleted (w : world) :
  match be (transcript w) CreateSessionClient with
  | Throw e =>
      fst (signOutUser w) = Throw e
      /\ cookies (snd (signOutUser w)) = cookies w
  | Return _ =>
      fst (signOutUser w) = Throw (NextRedirect "/sign-in")
      /\ match be (transcript (after CreateSessionClient w))
               (AccountDeleteSession "current") with
         | Return _ =>
             cookies (snd (signOutUser w))
             = delete "appwrite-session" (cookies w)
         | Throw _ => cookies (snd (signOutUser w)) = cookies w
         end
  end.
Proof.
  unfold signOutUser, try_finally, try_catch, bind, after, request, redirect,
    throw, handleError_user, console_log, cookies_delete.
  cbn.
  destruct (be (transcript w) CreateSessionClient) as [[]|e]; cbn; [|done].
  destruct (be _ (AccountDeleteSession "current")) as [[]|e]; cbn; done.
Qed.

(** *** The queries of the listing *)

Definition is_type_filter (q : query) : bool :=
  match q with
  | QEqual "type" _ => true
  | _ => false
  end.

Definition is_name_filter (q : query) : bool :=
  match q with
  | QContains "name" _ => true
  | _ => false
  end.

Definition is_limit (q : query) : bool :=
  match q with
  | QLimit _ => true
  | _ => false
  end.

Definition is_order (q : query) : bool :=
  match q with
  | QOrderAsc _ | QOrderDesc _ => true
  | _ => false
  end.

Definition count (p : query -> bool) (l : list query) : nat :=
  length (List.filter p l).

Lemma truthy_str_true (s : string) : truthy_str s = true <-> s <> "".
Proof.
  unfold truthy_str. destruct (String.eqb_spec s ""); cbn; split; congruence.
Qed.

Lemma truthy_str_false (s : string) : truthy_str s = false <-> s = "".
Proof.
  unfold truthy_str. destruct (String.eqb_spec s ""); cbn; split; congruence.
Qed.

(** C6, as the code has it: the list starts with the OR clause (the owner
    clause, then the collaborator clause iff the email is truthy, which for a
    string means non-empty); after it come a type filter iff there are types,
    a name filter iff the search text is non-empty, a limit clause iff a
    limit is given and is not 0, and, iff the sort string is non-empty, one
    ordering clause, last: ascending on the part before the first dash when
    the part after it is asc, descending on it otherwise. *)
Theorem createQueries_clauses (currentUser : UserDocument)
    (types : list string) (searchText sort : string) (limit : option Z) :
  exists rest,
    createQueries currentUser types searchText sort limit
    = QOr (QEqual "owner" (VArr [VStr (u_id currentUser)])
           :: (if truthy (user_email currentUser)
               then [QContains "users" (VArr [user_email currentUser])]
               else []))
      :: rest
    /\ (forall e, user_email currentUser = VStr e ->
          (truthy (user_email currentUser) = true <-> e <> ""))
    /\ (In (QEqual "type" (VArr (map VStr types))) rest <-> types <> [])
    /\ count is_type_filter rest = (if types is [] then 0 else 1)%nat
    /\ (In (QContains "name" (VStr searchText)) rest <-> searchText <> "")
    /\ count is_name_filter rest = (if String.eqb searchText "" then 0 else 1)%nat
    /\ (forall n, In (QLimit n) rest <-> limit = Some n /\ n <> 0)
    /\ count is_limit rest
       = match limit with
         | Some n => if n =? 0 then 0%nat else 1%nat
         | None => 0%nat
         end
    /\ count is_order rest = (if String.eqb sort "" then 0 else 1)%nat
    /\ (sort <> "" ->
        last rest
        = Some (if is_asc (nth_error (split_on "-" sort) 1)
                then QOrderAsc (nth 0 (split_on "-" sort) "")
                else QOrderDesc (nth 0 (split_on "-" sort) ""))).
Proof.
  clear getFileType constructFileUrl avatarPlaceholderUrl Date_parse.
  unfold createQueries.
  set (order := if is_asc _ then _ else _).
  assert (Horder : is_order order = true /\ is_type_filter order = false
                   /\ is_name_filter order = false /\ is_limit order = false
                   /\ (QEqual "type" (VArr (map VStr types)) <> order)
                   /\ (QContains "name" (VStr searchText) <> order)
                   /\ (forall n, QLimit n <> order)).
  { subst order. destruct (is_asc _); cbn; repeat split; congruence. }
  destruct Horder as (Ho & Ht & Hn & Hl & Hne1 & Hne2 & Hne3).
  clearbody order.
  assert (Hemail : forall e, user_email currentUser = VStr e ->
            (truthy (user_email currentUser) = true <-> e <> "")).
  { intros e ->. cbn. apply truthy_str_true. }
  destruct (truthy (user_email currentUser));
    destruct types as [|ty types];
    destruct (String.eqb_spec searchText "") as [Hs|Hs];
    destruct limit as [n|]; try destruct (Z.eqb_spec n 0) as [Hz|Hz];
    destruct (String.eqb_spec sort "") as [Hsort|Hsort].
  all: rewrite ?(proj2 (truthy_str_false _) Hs), ?(proj2 (truthy_str_true _) Hs),
         ?(proj2 (truthy_str_false _) Hsort), ?(proj2 (truthy_str_true _) Hsort).
  all: cbn [length Nat.ltb Nat.leb negb app].
  all: eexists; split; [reflexivity|].
  all: unfold count; cbn [List.filter is_type_filter is_name_filter is_limit
                            is_order length last].
  all: rewrite ?Ho, ?Ht, ?Hn, ?Hl; cbn [length In].
  all: split; [exact Hemail|clear Hemail].
  all: repeat split; try done; try congruence.
  all: try (intros [?|[?|[?|?]]]; congruence).
  all: try (intros [?|[?|?]]; congruence).
  all: try (intros [?|?]; congruence).
  all: try (intros [? ?]; congruence).
  all: try (intros ?; auto; fail).
  all: intuition congruence.
Qed.

(** *** The space used *)

Definition FileType_eqb (a b : FileType) : bool :=
  match a, b with
  | image, image | document, document | video, video
  | audio, audio | other, other => true
  | _, _ => false
  end.

(** The sizes of the files, and of the files of one type, added up. *)
Definition size_sum (files : list FileDocument) : Z :=
  fold_right (fun f acc => f_size f + acc) 0 files.

Definition of_type (t : FileType) (files : list FileDocument) : list FileDocument :=
  List.filter (fun f => FileType_eqb (f_type f) t) files.

(** The time of the last update of a file, when its [$updatedAt] is a date. *)
Definition updated (f : FileDocument) : option Z := Date_value (f_updatedAt f).

(** [f] is one of [files] and none of them was updated later. *)
Definition most_recent (f : FileDocument) (files : list FileDocument) : Prop :=
  In f files
  /\ forall g, In g files ->
       exists tf tg, updated f = Some tf /\ updated g = Some tg /\ tg <= tf.

Lemma FileType_eqb_eq (a b : FileType) : FileType_eqb a b = true <-> a = b.
Proof. destruct a, b; cbn; split; congruence. Qed.

Lemma ts_used_set_usage (t : FileType) (u : Usage) (ts : TotalSpace) :
  ts_used (set_usage t u ts) = ts_used ts.
Proof. destruct t; reflexivity. Qed.

(** One file: its size goes to the entry of its type and to no other. *)
Lemma addFile_usage_size (t : FileType) (ts : TotalSpace) (f : FileDocument) :
  usage_size (usage_of t (addFile ts f))
  = usage_size (usage_of t ts)
    + (if FileType_eqb (f_type f) t then f_size f else 0).
Proof.
  unfold addFile. destruct f as [ty sz up ow fl]. cbn [f_type f_size f_updatedAt].
  destruct (_ || _); destruct ty, t; cbn; lia.
Qed.

Lemma addFile_used (ts : TotalSpace) (f : FileDocument) :
  ts_used (addFile ts f) = ts_used ts + f_size f.
Proof.
  unfold addFile. destruct (_ || _); rewrite ?ts_used_set_usage;
    destruct (f_type f); reflexivity.
Qed.

Lemma fold_addFile_usage_size (t : FileType) (files : list FileDocument)
    (ts : TotalSpace) :
  usage_size (usage_of t (fold_left addFile files ts))
  = usage_size (usage_of t ts) + size_sum (of_type t files).
Proof.
  revert ts. induction files as [|f files IH]; intros ts.
  - cbn. lia.
  - cbn [fold_left]. rewrite IH, addFile_usage_size.
    unfold of_type. cbn [List.filter].
    destruct (FileType_eqb (f_type f) t); unfold size_sum; cbn [fold_right]; lia.
Qed.

Lemma fold_addFile_used (files : list FileDocument) (ts : TotalSpace) :
  ts_used (fold_left addFile files ts) = ts_used ts + size_sum files.
Proof.
  revert ts. induction files as [|f files IH]; intros ts.
  - cbn. lia.
  - cbn [fold_left]. rewrite IH, addFile_used.
    unfold size_sum; cbn [fold_right]; lia.
Qed.

Lemma size_sum_by_type (files : list FileDocument) :
  size_sum files
  = size_sum (of_type image files) + size_sum (of_type document files)
    + size_sum (of_type video files) + size_sum (of_type audio files)
    + size_sum (of_type other files).
Proof.
  induction files as [|f files IH]; [reflexivity|].
  unfold of_type in *. cbn [List.filter].
  destruct (f_type f); cbn [FileType_eqb]; unfold size_sum in *;
    cbn [fold_right]; lia.
Qed.

Lemma size_sum_Permutation (l : list FileDocument) (sizes : list Z) :
  Permutation (map f_size l) sizes -> size_sum l = fold_right Z.add 0 sizes.
Proof.
  intros H.
  assert (E : size_sum l = fold_right Z.add 0 (map f_size l)).
  { clear H. unfold size_sum. induction l as [|f l IH]; cbn; [reflexivity|].
    f_equal. exact IH. }
  rewrite E. clear E. induction H; cbn; lia.
Qed.

Lemma of_type_all (t : FileType) (files : list FileDocument) :
  Forall (fun f => f_type f = t) files -> of_type t files = files.
Proof.
  induction 1 as [|f files Hf _ IH]; [reflexivity|].
  unfold of_type in *. cbn [List.filter].
  rewrite (proj2 (FileType_eqb_eq _ _) Hf). now rewrite IH.
Qed.

Lemma Date_value_truthy (s : string) (t : Z) :
  Date_value s = Some t -> truthy_str s = true.
Proof.
  unfold Date_value, truthy_str. destruct (String.eqb s ""); [discriminate|done].
Qed.

(** The date kept for a type, given the files of that type seen so far: none
    yet, or the [$updatedAt] of a most recent one. *)
Definition latest_of (t : FileType) (ts : TotalSpace)
    (seen : list FileDocument) : Prop :=
  (of_type t seen = [] /\ latestDate (usage_of t ts) = "")
  \/ exists f, most_recent f (of_type t seen)
               /\ latestDate (usage_of t ts) = f_updatedAt f.

Lemma addFile_latestDate (t : FileType) (ts : TotalSpace) (f : FileDocument) :
  latestDate (usage_of t (addFile ts f))
  = if FileType_eqb (f_type f) t then
      if negb (truthy_str (latestDate (usage_of t ts)))
         || Date_gt (f_updatedAt f) (latestDate (usage_of t ts))
      then f_updatedAt f
      else latestDate (usage_of t ts)
    else latestDate (usage_of t ts).
Proof.
  unfold addFile. destruct f as [ty sz up ow fl]. cbn [f_type f_size f_updatedAt].
  destruct ty, t; cbn; destruct (_ || _); reflexivity.
Qed.

Lemma addFile_latest (t : FileType) (ts : TotalSpace)
    (seen : list FileDocument) (f : FileDocument) :
  latest_of t ts seen ->
  (f_type f = t -> exists tf, updated f = Some tf) ->
  latest_of t (addFile ts f) (seen ++ [f]).
Proof.
  intros Hinv Hvalid. unfold latest_of, of_type in *.
  rewrite List.filter_app, addFile_latestDate. cbn [List.filter].
  destruct (FileType_eqb (f_type f) t) eqn:E; [|now rewrite app_nil_r].
  apply FileType_eqb_eq in E. destruct (Hvalid E) as [tf Htf].
  right.
  destruct Hinv as [[Hnil Hd]|(f0 & [Hin Hmax] & Hd)].
  - rewrite Hd, Hnil. cbn [truthy_str String.eqb negb orb app].
    exists f. split; [|reflexivity]. split; [now left|].
    intros g [<-|[]]. exists tf, tf. repeat split; auto; lia.
  - destruct (Hmax f0 Hin) as (t0 & _ & H0 & _ & _).
    rewrite Hd. unfold updated in *.
    rewrite (Date_value_truthy _ _ H0). cbn [negb orb].
    unfold Date_gt. rewrite Htf, H0.
    destruct (Z.ltb_spec t0 tf) as [Hlt|Hge].
    + exists f. split; [|reflexivity].
      split; [apply in_or_app; right; now left|].
      intros g Hg. apply in_app_or in Hg. destruct Hg as [Hg|[<-|[]]].
      * destruct (Hmax g Hg) as (t0' & tg & H0' & Hg' & Hle).
        rewrite H0 in H0'. injection H0' as <-.
        exists tf, tg. repeat split; auto; lia.
      * exists tf, tf. repeat split; auto; lia.
    + exists f0. split; [|reflexivity].
      split; [apply in_or_app; now left|].
      intros g Hg. apply in_app_or in Hg. destruct Hg as [Hg|[<-|[]]].
      * apply Hmax, Hg.
      * exists t0, tf. repeat split; auto.
Qed.

Lemma fold_addFile_latest (t : FileType) (files seen : list FileDocument)
    (ts : TotalSpace) :
  latest_of t ts seen ->
  Forall (fun f => f_type f = t -> exists tf, updated f = Some tf) files ->
  latest_of t (fold_left addFile files ts) (seen ++ files).
Proof.
  revert seen ts. induction files as [|f files IH]; intros seen ts Hinv Hall.
  - now rewrite app_nil_r.
  - inversion Hall as [|? ? Hf Hrest]; subst. cbn [fold_left].
    replace (seen ++ f :: files)%list with ((seen ++ [f]) ++ files)%list
      by (now rewrite <- app_assoc).
    apply IH; [|exact Hrest]. now apply addFile_latest.
Qed.

Lemma latest_of_initial (t : FileType) : latest_of t initialSpace [].
Proof. left. split; [reflexivity|]. destruct t; reflexivity. Qed.

(** The run of [getTotalSpaceUsed] when the session client, the current user
    and the listing of the user's files are there. *)
Lemma getTotalSpaceUsed_run (w w2 : world) (u : UserDocument)
    (files : DocumentList FileDocument) (docs : list FileDocument) :
  be (transcript w) CreateSessionClient = Return tt ->
  getCurrentUser (after CreateSessionClient w) = (Return (UserFound u), w2) ->
  be (transcript w2)
     (ListDocuments databaseId Files [QEqual "owner" (VArr [VStr (u_id u)])])
  = Return files ->
  documents files = Some docs ->
  fst (getTotalSpaceUsed w)
  = Return (parseStringify _ (fold_left addFile docs initialSpace)).
Proof.
  intros Hclient Huser Hlist Hdocs.
  unfold getTotalSpaceUsed, try_catch, bind at 1.
  rewrite request_run, Hclient. unfold bind at 1. rewrite Huser.
  unfold bind at 1. rewrite request_run.
  cbn [answer Document] in *. rewrite Hlist.
  unfold bind, lift, documents_of, ret. rewrite Hdocs. reflexivity.
Qed.

(** C4: whatever the files of the user are, each entry of [totalSpace] holds
    the sizes of the files of its type and of no other (a file adds its size
    to the entry of its type only), and [used] is the sum of the five
    entries, which is the sum of the sizes of all the files. *)
Theorem getTotalSpaceUsed_counts_each_file_once (w w2 : world) (u : UserDocument)
    (files : DocumentList FileDocument) (docs : list FileDocument) :
  be (transcript w) CreateSessionClient = Return tt ->
  getCurrentUser (after CreateSessionClient w) = (Return (UserFound u), w2) ->
  be (transcript w2)
     (ListDocuments databaseId Files [QEqual "owner" (VArr [VStr (u_id u)])])
  = Return files ->
  documents files = Some docs ->
  exists totalSpace,
    fst (getTotalSpaceUsed w) = Return (parseStringify _ totalSpace)
    /\ (forall t, usage_size (usage_of t totalSpace) = size_sum (of_type t docs))
    /\ ts_used totalSpace
       = usage_size (ts_image totalSpace) + usage_size (ts_document totalSpace)
         + usage_size (ts_video totalSpace) + usage_size (ts_audio totalSpace)
         + usage_size (ts_other totalSpace)
    /\ ts_used totalSpace = size_sum docs
    /\ (forall ts f t,
          usage_size (usage_of t (addFile ts f))
          = usage_size (usage_of t ts)
            + (if FileType_eqb (f_type f) t then f_size f else 0)).
Proof.
  intros Hclient Huser Hlist Hdocs.
  exists (fold_left addFile docs initialSpace).
  split; [eapply getTotalSpaceUsed_run; eassumption|].
  assert (Hsize : forall t,
            usage_size (usage_of t (fold_left addFile docs initialSpace))
            = size_sum (of_type t docs)).
  { intros t. rewrite fold_addFile_usage_size. destruct t; cbn; lia. }
  assert (Hused : ts_used (fold_left addFile docs initialSpace) = size_sum docs).
  { rewrite fold_addFile_used. cbn. lia. }
  split; [exact Hsize|]. split.
  - rewrite Hused, (size_sum_by_type docs).
    rewrite <- (Hsize image), <- (Hsize document), <- (Hsize video),
      <- (Hsize audio), <- (Hsize other). reflexivity.
  - split; [exact Hused|]. intros ts f t. apply addFile_usage_size.
Qed.

(** C3: three files of sizes 10, 20 and 30, all of type document, their
    [$updatedAt] being dates: the document entry of [totalSpace] has size 60
    and its [latestDate] is the [$updatedAt] of a file that none of the three
    was updated after. *)
Theorem getTotalSpaceUsed_three_documents (w w2 : world) (u : UserDocument)
    (files : DocumentList FileDocument) (docs : list FileDocument) :
  be (transcript w) CreateSessionClient = Return tt ->
  getCurrentUser (after CreateSessionClient w) = (Return (UserFound u), w2) ->
  be (transcript w2)
     (ListDocuments databaseId Files [QEqual "owner" (VArr [VStr (u_id u)])])
  = Return files ->
  documents files = Some docs ->
  Permutation (map f_size docs) [10; 20; 30] ->
  Forall (fun f => f_type f = document) docs ->
  Forall (fun f => exists t, updated f = Some t) docs ->
  exists totalSpace,
    fst (getTotalSpaceUsed w) = Return (parseStringify _ totalSpace)
    /\ usage_size (ts_document totalSpace) = 60
    /\ exists f, most_recent f docs
                 /\ latestDate (ts_document totalSpace) = f_updatedAt f.
Proof.
  intros Hclient Huser Hlist Hdocs Hsizes Htypes Hdates.
  exists (fold_left addFile docs initialSpace).
  split; [eapply getTotalSpaceUsed_run; eassumption|]. split.
  - change (ts_document ?x) with (usage_of document x).
    rewrite fold_addFile_usage_size, (of_type_all _ _ Htypes).
    rewrite (size_sum_Permutation _ _ Hsizes). reflexivity.
  - assert (Hne : docs <> []).
    { intros ->. apply Permutation_length in Hsizes. discriminate. }
    assert (Hl : latest_of document (fold_left addFile docs initialSpace)
                   ([] ++ docs)).
    { apply fold_addFile_latest; [apply latest_of_initial|].
      eapply Forall_impl; [exact Hdates|]. cbn. auto. }
    unfold latest_of in Hl. cbn [app] in Hl.
    rewrite (of_type_all _ _ Htypes) in Hl.
    destruct Hl as [[Hnil _]|Hl]; [contradiction|exact Hl].
Qed.

(** *** The upload *)

Lemma In_keys_set_field (k' k : string) (v : value) (d : obj) :
  In k' (keys (set_field k v d)) <-> k' = k \/ In k' (keys d).
Proof.
  clear getFileType constructFileUrl avatarPlaceholderUrl Date_parse.
  unfold keys. induction d as [|[k0 v0] d IH]; cbn.
  - intuition congruence.
  - destruct (String.eqb_spec k0 k) as [->|Hne]; cbn; [|rewrite IH];
      intuition congruence.
Qed.

Lemma has_In (existingKeys : list value) (k : string) :
  has existingKeys k = true <-> In (VStr k) existingKeys.
Proof.
  unfold has. rewrite existsb_exists. split.
  - intros (v & Hin & Hv). destruct v; try discriminate.
    cbn in Hv. apply String.eqb_eq in Hv. now subst.
  - intros Hin. exists (VStr k). split; [exact Hin|]. cbn. apply String.eqb_refl.
Qed.

(** [pickKey] answers the first candidate that is an existing key. *)
Lemma pickKey_first (existingKeys : list value) (candidates : list string)
    (k : string) :
  pickKey existingKeys candidates = Some k <->
  exists l1 l2,
    candidates = (l1 ++ k :: l2)%list
    /\ has existingKeys k = true
    /\ forall k', In k' l1 -> has existingKeys k' = false.
Proof.
  induction candidates as [|c candidates IH]; cbn.
  - split; [discriminate|]. intros (l1 & l2 & H & _). now destruct l1.
  - destruct (has existingKeys c) eqn:Hc.
    + split.
      * intros [= <-]. exists [], candidates. repeat split; auto. intros ? [].
      * intros (l1 & l2 & Hsplit & Hk & Hbefore). destruct l1 as [|c' l1].
        -- cbn in Hsplit. congruence.
        -- cbn in Hsplit. injection Hsplit as <- _.
           rewrite (Hbefore c) in Hc; [discriminate|now left].
    + rewrite IH. split.
      * intros (l1 & l2 & -> & Hk & Hbefore). exists (c :: l1), l2.
        repeat split; auto. intros k' [<-|Hin]; auto.
      * intros (l1 & l2 & Hsplit & Hk & Hbefore). destruct l1 as [|c' l1].
        -- cbn in Hsplit. injection Hsplit as -> _. congruence.
        -- cbn in Hsplit. injection Hsplit as <- ->. exists l1, l2.
           repeat split; auto. intros k' Hin. apply Hbefore. now right.
Qed.

Lemma pickKey_In (existingKeys : list value) (candidates : list string)
    (k : string) :
  pickKey existingKeys candidates = Some k ->
  In k candidates /\ has existingKeys k = true.
Proof.
  intros H. apply pickKey_first in H. destruct H as (l1 & l2 & -> & Hk & _).
  split; [|exact Hk]. apply in_or_app. right. now left.
Qed.

(** An element of [existingKeys] is the [key], or else the [$id], of an
    attribute of the list. *)
Lemma existingKeys_of_In (attrsArray existingKeys : list value) (v : value) :
  existingKeys_of attrsArray = Return existingKeys ->
  In v existingKeys ->
  exists a, In a attrsArray /\ (prop a "key" = Return v \/ prop a "$id" = Return v).
Proof.
  unfold existingKeys_of.
  destruct (mapM_r _ attrsArray) as [ks|e] eqn:Hmap; cbn; [|discriminate].
  intros [= <-] Hin. apply filter_In in Hin. destruct Hin as [Hin _].
  revert ks Hmap Hin. induction attrsArray as [|a attrsArray IH]; cbn;
    intros ks Hmap Hin.
  - injection Hmap as <-. destruct Hin.
  - destruct (prop a "key") as [k|e] eqn:Hk; cbn in Hmap; [|discriminate].
    destruct (if nullish k then prop a "$id" else Return k) as [k'|e] eqn:Hk';
      cbn in Hmap; [|discriminate].
    destruct (mapM_r _ attrsArray) as [ks'|e] eqn:Hmap'; cbn in Hmap;
      [|discriminate].
    injection Hmap as <-. destruct Hin as [<-|Hin].
    + exists a. split; [now left|]. destruct (nullish k); [now right|].
      left. congruence.
    + destruct (IH ks' eq_refl Hin) as (a' & Hin' & Ha'). exists a'.
      split; [now right|exact Ha'].
Qed.

Lemma picked_single (existingKeys : list value) (c : string) :
  picked (pickKey existingKeys [c]) = has existingKeys c && truthy_str c.
Proof. cbn. destruct (has existingKeys c); reflexivity. Qed.

Lemma In_keys_if (b : bool) (k k0 : string) (v : value) (d : obj) :
  In k (keys (if b then set_field k0 v d else d))
  <-> (b = true /\ k = k0) \/ In k (keys d).
Proof.
  clear getFileType constructFileUrl avatarPlaceholderUrl Date_parse.
  destruct b; [rewrite In_keys_set_field|]; intuition congruence.
Qed.

Lemma In_keys_picked (o : option string) (k : string) (v : value) (d : obj) :
  In k (keys (match o with
              | Some k0 => if truthy_str k0 then set_field k0 v d else d
              | None => d
              end))
  <-> (o = Some k /\ truthy_str k = true) \/ In k (keys d).
Proof.
  clear getFileType constructFileUrl avatarPlaceholderUrl Date_parse.
  destruct o as [k0|]; [|intuition congruence].
  rewrite In_keys_if. split.
  - intros [[H ->]|H]; auto.
  - intros [[[= ->] H]|H]; auto.
Qed.

(** The keys of the payload: a fixed key when it is an existing key, and the
    picked spellings of the account id and of the bucket file reference. *)
Lemma fileDocument_of_keys (existingKeys : list value) (bucketFile : BucketFile)
    (ownerId accountId k : string) :
  In k (keys (fileDocument_of existingKeys bucketFile ownerId accountId))
  <-> (In k ["name"; "url"; "type"; "extension"; "size"; "owner"; "users"]
       /\ has existingKeys k = true)
      \/ pickKey existingKeys accountCandidates = Some k
      \/ pickKey existingKeys bucketFileCandidates = Some k.
Proof.
  clear avatarPlaceholderUrl Date_parse bucketId databaseId.
  unfold fileDocument_of. cbv zeta.
  rewrite In_keys_if, !In_keys_picked, !In_keys_if, !picked_single.
  cbn [keys map In]. rewrite !andb_true_iff.
  assert (Hacc : forall k', pickKey existingKeys accountCandidates = Some k' ->
                            truthy_str k' = true).
  { intros k' H. apply pickKey_In in H. destruct H as [H _].
    cbn in H. intuition (subst; reflexivity). }
  assert (Hbf : forall k', pickKey existingKeys bucketFileCandidates = Some k' ->
                           truthy_str k' = true).
  { intros k' H. apply pickKey_In in H. destruct H as [H _].
    cbn in H. intuition (subst; reflexivity). }
  split.
  - intros H. repeat destruct H as [H|H]; try destruct H as [H ->];
      try destruct H as [H _]; try (now destruct H); auto 6.
    all: left; split; [cbn; tauto|assumption].
  - intros [[Hin Hhas]|[H|H]].
    + cbn in Hin. repeat destruct Hin as [<-|Hin]; try (now destruct Hin);
        rewrite Hhas; cbn; tauto.
    + specialize (Hacc _ H). tauto.
    + specialize (Hbf _ H). tauto.
Qed.

(** The run of [uploadFile] once the bytes are stored and the payload is
    built: the outcome of the document creation and, when that fails, of the
    deletion of the bucket object decide the rest. *)
Lemma uploadFile_run (w : world) (file : File) (ownerId accountId path : string)
    (bucketFile : BucketFile) (attrsResp : value)
    (attrsArray existingKeys : list value) :
  let w1 := after CreateAdminClient w in
  let store := StorageCreateFile bucketId (ID_unique (transcript w1))
                 (InputFile_fromBuffer file (file_name file)) in
  let w2 := after store w1 in
  let w3 := after (ListAttributes databaseId Files) w2 in
  let create := CreateDocument databaseId Files (ID_unique (transcript w3))
                  (fileDocument_of existingKeys bucketFile ownerId accountId) in
  let w4 := after create w3 in
  let remove := StorageDeleteFile bucketId (bf_id bucketFile) in
  let w5 := after remove w4 in
  be (transcript w) CreateAdminClient = Return tt ->
  be (transcript w1) store = Return bucketFile ->
  be (transcript w2) (ListAttributes databaseId Files) = Return attrsResp ->
  attrsArray_of attrsResp = Return attrsArray ->
  existingKeys_of attrsArray = Return existingKeys ->
  uploadFile file ownerId accountId path w
  = match be (transcript w3) create with
    | Return newFile =>
        (Return (parseStringify _ newFile),
         with_revalidated (revalidated w4 ++ [path]) w4)
    | Throw error =>
        match be (transcript w4) remove with
        | Return _ =>
            (Throw error,
             with_console
               (console w5
                ++ [LogError "Failed to create file document" error;
                    LogError "Failed to upload file" error]) w5)
        | Throw error' =>
            (Throw error',
             with_console
               (console w5 ++ [LogError "Failed to upload file" error']) w5)
        end
    end.
Proof.
  intros w1 store w2 w3 create w4 remove w5 Hadmin Hstore Hlist Harray Hkeys.
  unfold uploadFile. unfold bind at 1. rewrite request_run, Hadmin.
  fold w1. unfold try_catch at 1. unfold bind at 1. unfold unique at 1.
  unfold bind at 1. rewrite request_run. fold store. rewrite Hstore. fold w2.
  unfold bind at 1. rewrite request_run.
  cbn [answer Document] in *. rewrite Hlist. fold w3.
  unfold bind at 1. unfold lift at 1. rewrite Harray.
  unfold bind at 1. unfold lift at 1. rewrite Hkeys.
  unfold bind at 1. unfold unique at 1.
  unfold bind at 1. unfold try_catch at 1. rewrite request_run. fold create.
  fold w4.
  destruct (be (transcript w3) create) as [newFile|error].
  - reflexivity.
  - unfold bind at 1. rewrite request_run. fold remove. fold w5.
    destruct (be (transcript w4) remove) as [[]|error'].
    + unfold handleError_file, bind, console_log, throw. cbn.
      rewrite <- app_assoc. reflexivity.
    + unfold handleError_file, bind, console_log, throw. reflexivity.
Qed.

Lemma bucket_after_other (c : call) (w : world) :
  match c with
  | StorageCreateFile _ _ _ | StorageDeleteFile _ _ => True
  | _ => bucket (after c w) = bucket w
  end.
Proof. destruct c; try exact I; reflexivity. Qed.

(** C1, as the code has it: the bytes are stored and the creation of the
    document fails.  The upload then requests the deletion of the bucket
    object it has just created.  When the deletion succeeds, the object is
    not in the bucket any more and the error of the creation is thrown to
    the caller; when the deletion fails, its error is thrown and the object
    stays in the bucket. *)
Theorem uploadFile_rollback (w : world) (file : File)
    (ownerId accountId path : string) (bucketFile : BucketFile)
    (attrsResp : value) (attrsArray existingKeys : list value) (error : exn) :
  let w1 := after CreateAdminClient w in
  let store := StorageCreateFile bucketId (ID_unique (transcript w1))
                 (InputFile_fromBuffer file (file_name file)) in
  let w2 := after store w1 in
  let w3 := after (ListAttributes databaseId Files) w2 in
  let create := CreateDocument databaseId Files (ID_unique (transcript w3))
                  (fileDocument_of existingKeys bucketFile ownerId accountId) in
  let w4 := after create w3 in
  let remove := StorageDeleteFile bucketId (bf_id bucketFile) in
  be (transcript w) CreateAdminClient = Return tt ->
  be (transcript w1) store = Return bucketFile ->
  be (transcript w2) (ListAttributes databaseId Files) = Return attrsResp ->
  attrsArray_of attrsResp = Return attrsArray ->
  existingKeys_of attrsArray = Return existingKeys ->
  be (transcript w3) create = Throw error ->
  transcript (snd (uploadFile file ownerId accountId path w))
  = (transcript w4 ++ [mkInteraction remove (be (transcript w4) remove)])%list
  /\ match be (transcript w4) remove with
     | Return _ =>
         fst (uploadFile file ownerId accountId path w) = Throw error
         /\ bf_id bucketFile ∉ bucket (snd (uploadFile file ownerId accountId path w))
     | Throw error' =>
         fst (uploadFile file ownerId accountId path w) = Throw error'
         /\ bf_id bucketFile ∈ bucket (snd (uploadFile file ownerId accountId path w))
     end.
Proof.
  intros w1 store w2 w3 create w4 remove Hadmin Hstore Hlist Harray Hkeys Hcreate.
  rewrite (uploadFile_run w file ownerId accountId path bucketFile attrsResp
             attrsArray existingKeys Hadmin Hstore Hlist Harray Hkeys).
  fold w1 store w2 w3 create w4 remove. rewrite Hcreate.
  assert (Hbucket : bf_id bucketFile ∈ bucket w4).
  { unfold w4. rewrite (bucket_after_other create w3).
    unfold w3. rewrite (bucket_after_other (ListAttributes databaseId Files) w2).
    unfold w2, after, request. cbn [snd effect]. rewrite Hstore.
    cbn. apply elem_of_union. left. now apply elem_of_singleton. }
  split.
  - destruct (be (transcript w4) remove) as [[]|error'] eqn:Hremove;
      cbn [snd transcript with_console]; rewrite transcript_after, Hremove;
      reflexivity.
  - destruct (be (transcript w4) remove) as [[]|error'] eqn:Hremove;
      cbn [fst snd]; (split; [reflexivity|]).
    + unfold after, request. cbn [snd effect]. rewrite Hremove. cbn.
      intros [_ Hnot]%elem_of_difference. apply Hnot. now apply elem_of_singleton.
    + unfold after, request. cbn [snd effect]. rewrite Hremove. cbn. exact Hbucket.
Qed.

(** C10: the payload that [uploadFile] sends to the document creation.  Each
    of its keys is the [key] or the [$id] of an attribute of the listing; of
    the spellings of the account id, and of those of the bucket file
    reference, it holds the one that [pickKey] answers and no other, which is
    the first candidate, in the order of the candidates, that is an existing
    key. *)
Theorem uploadFile_payload_keys (w : world) (file : File)
    (ownerId accountId path : string) (bucketFile : BucketFile)
    (attrsResp : value) (attrsArray existingKeys : list value) :
  let w1 := after CreateAdminClient w in
  let store := StorageCreateFile bucketId (ID_unique (transcript w1))
                 (InputFile_fromBuffer file (file_name file)) in
  let w2 := after store w1 in
  let w3 := after (ListAttributes databaseId Files) w2 in
  let fileDocument := fileDocument_of existingKeys bucketFile ownerId accountId in
  let create := CreateDocument databaseId Files (ID_unique (transcript w3))
                  fileDocument in
  be (transcript w) CreateAdminClient = Return tt ->
  be (transcript w1) store = Return bucketFile ->
  be (transcript w2) (ListAttributes databaseId Files) = Return attrsResp ->
  attrsArray_of attrsResp = Return attrsArray ->
  existingKeys_of attrsArray = Return existingKeys ->
  In (mkInteraction create (be (transcript w3) create))
     (transcript (snd (uploadFile file ownerId accountId path w)))
  /\ (forall k, In k (keys fileDocument) ->
        exists a, In a attrsArray
                  /\ (prop a "key" = Return (VStr k)
                      \/ prop a "$id" = Return (VStr k)))
  /\ (forall k, In k accountCandidates ->
        (In k (keys fileDocument)
         <-> pickKey existingKeys accountCandidates = Some k))
  /\ (forall k, In k bucketFileCandidates ->
        (In k (keys fileDocument)
         <-> pickKey existingKeys bucketFileCandidates = Some k))
  /\ (forall k k', In k accountCandidates -> In k' accountCandidates ->
        In k (keys fileDocument) -> In k' (keys fileDocument) -> k = k')
  /\ (forall k k', In k bucketFileCandidates -> In k' bucketFileCandidates ->
        In k (keys fileDocument) -> In k' (keys fileDocument) -> k = k')
  /\ (forall candidates k,
        pickKey existingKeys candidates = Some k <->
        exists l1 l2,
          candidates = (l1 ++ k :: l2)%list
          /\ has existingKeys k = true
          /\ forall k', In k' l1 -> has existingKeys k' = false).
Proof.
  intros w1 store w2 w3 fileDocument create Hadmin Hstore Hlist Harray Hkeys.
  assert (Hacc : forall k, In k accountCandidates ->
            (In k (keys fileDocument)
             <-> pickKey existingKeys accountCandidates = Some k)).
  { intros k Hk. unfold fileDocument. rewrite fileDocument_of_keys. split; auto.
    intros [[Hin _]|[H|H]]; auto.
    - exfalso. cbn in Hk, Hin.
      repeat destruct Hk as [<-|Hk]; try (now destruct Hk);
        repeat destruct Hin as [Hin|Hin]; try discriminate; now destruct Hin.
    - exfalso. apply pickKey_In in H. destruct H as [Hin _]. cbn in Hk, Hin.
      repeat destruct Hk as [<-|Hk]; try (now destruct Hk);
        repeat destruct Hin as [Hin|Hin]; try discriminate; now destruct Hin. }
  assert (Hbf : forall k, In k bucketFileCandidates ->
            (In k (keys fileDocument)
             <-> pickKey existingKeys bucketFileCandidates = Some k)).
  { intros k Hk. unfold fileDocument. rewrite fileDocument_of_keys. split; auto.
    intros [[Hin _]|[H|H]]; auto.
    - exfalso. cbn in Hk, Hin.
      repeat destruct Hk as [<-|Hk]; try (now destruct Hk);
        repeat destruct Hin as [Hin|Hin]; try discriminate; now destruct Hin.
    - exfalso. apply pickKey_In in H. destruct H as [Hin _]. cbn in Hk, Hin.
      repeat destruct Hk as [<-|Hk]; try (now destruct Hk);
        repeat destruct Hin as [Hin|Hin]; try discriminate; now destruct Hin. }
  split; [|split; [|split; [exact Hacc|split; [exact Hbf|split; [|split]]]]].
  - rewrite (uploadFile_run w file ownerId accountId path bucketFile attrsResp
               attrsArray existingKeys Hadmin Hstore Hlist Harray Hkeys).
    fold w1 store w2 w3 fileDocument create.
    assert (Hin : In (mkInteraction create (be (transcript w3) create))
                    (transcript (after create w3))).
    { rewrite transcript_after. apply in_or_app. right. now left. }
    destruct (be (transcript w3) create) as [newFile|error] eqn:Hcreate.
    + cbn [snd transcript with_revalidated]. exact Hin.
    + destruct (be _ (StorageDeleteFile _ _)) as [[]|error'];
        cbn [snd transcript with_console]; rewrite transcript_after;
        apply in_or_app; left; exact Hin.
  - intros k Hk. unfold fileDocument in Hk. apply fileDocument_of_keys in Hk.
    assert (Hhas : has existingKeys k = true).
    { destruct Hk as [[_ H]|[H|H]]; [exact H| |]; now apply pickKey_In in H. }
    apply has_In in Hhas.
    exact (existingKeys_of_In attrsArray existingKeys (VStr k) Hkeys Hhas).
  - intros k k' Hk Hk' Hin Hin'. apply (Hacc k Hk) in Hin.
    apply (Hacc k' Hk') in Hin'. congruence.
  - intros k k' Hk Hk' Hin Hin'. apply (Hbf k Hk) in Hin.
    apply (Hbf k' Hk') in Hin'. congruence.
  - intros candidates k. apply pickKey_first.
Qed.

(** *** The listing and the owners of the files *)

(** The three lookups of an owner id. *)
Definition direct_lookup (ownerId : string) : call :=
  GetDocument databaseId Users ownerId.

Definition lookup_by_account (ownerId : string) : call :=
  ListDocuments databaseId Users
    [QEqual "accountId" (VArr [VStr ownerId]); QLimit 1].

Definition lookup_by_email (ownerId : string) : call :=
  ListDocuments databaseId Users [QEqual "email" (VArr [VStr ownerId]); QLimit 1].

(** The chain in the words of the specification: the direct lookup; when it
    fails, the lookup by account id; when that counts no document, the
    lookup by email.  A failure on the way resolves nothing. *)
Definition first_of (l : DocumentList UserDocument) : option UserDocument :=
  match documents l with
  | Some (d :: _) => Some d
  | _ => None
  end.

Definition chain (direct : result UserDocument)
    (byAccount byEmail : result (DocumentList UserDocument))
    : option UserDocument :=
  match direct with
  | Return userDoc => Some userDoc
  | Throw _ =>
      match byAccount with
      | Throw _ => None
      | Return l =>
          if 0 <? total l then first_of l
          else match byEmail with
               | Throw _ => None
               | Return l' => if 0 <? total l' then first_of l' else None
               end
      end
  end.

(** How many of the three lookups are requested. *)
Definition lookups (direct : result UserDocument)
    (byAccount : result (DocumentList UserDocument)) : nat :=
  match direct with
  | Return _ => 1%nat
  | Throw _ =>
      match byAccount with
      | Throw _ => 2%nat
      | Return l => if 0 <? total l then 2%nat else 3%nat
      end
  end.

Lemma lookup_owner_map_empty (k : string) : (∅ : owner_map) !! k = None.
Proof.
  unfold lookup, owner_map_lookup. cbn. rewrite lookup_empty.
  now destruct (String.eqb k "__proto__").
Qed.

Lemma reaches_proto_setter_true (ownerMap : owner_map) (k : string) :
  reaches_proto_setter ownerMap k = true ->
  k = "__proto__" /\ own ownerMap !! k = None.
Proof.
  unfold reaches_proto_setter, owns. intros H.
  apply andb_true_iff in H. destruct H as [H _].
  apply andb_true_iff in H. destruct H as [Hk Hown].
  apply String.eqb_eq in Hk. split; [exact Hk|].
  now destruct (own ownerMap !! k).
Qed.

Lemma lookup_assign_eq (k : string) (d : UserDocument) (ownerMap : owner_map) :
  assign k (Some d) ownerMap !! k = Some d.
Proof.
  unfold lookup, owner_map_lookup, assign.
  destruct (reaches_proto_setter ownerMap k) eqn:E; cbn.
  - apply reaches_proto_setter_true in E. destruct E as [-> ->]. reflexivity.
  - now rewrite lookup_insert_eq.
Qed.

Lemma lookup_assign_ne (k k' : string) (d : option UserDocument)
    (ownerMap : owner_map) :
  k' <> k -> assign k d ownerMap !! k' = ownerMap !! k'.
Proof.
  intros Hne. unfold lookup, owner_map_lookup, assign.
  destruct (reaches_proto_setter ownerMap k) eqn:E; cbn.
  - apply reaches_proto_setter_true in E. destruct E as [-> _].
    destruct d as [u|]; cbn; [|reflexivity].
    destruct (own ownerMap !! k'); [reflexivity|].
    destruct (String.eqb_spec k' "__proto__"); [contradiction|reflexivity].
  - now rewrite lookup_insert_ne.
Qed.

Lemma lookup_assign_undefined (k : string) (ownerMap : owner_map) :
  assign k None ownerMap !! k = None
  \/ assign k None ownerMap !! k = ownerMap !! k.
Proof.
  unfold lookup, owner_map_lookup, assign.
  destruct (reaches_proto_setter ownerMap k) eqn:E; cbn.
  - now right.
  - left. now rewrite lookup_insert_eq.
Qed.

Lemma resolveOwner_run (ownerId : string)
    (ownerMap : owner_map) (w : world) :
  let w1 := after (direct_lookup ownerId) w in
  let w2 := after (lookup_by_account ownerId) w1 in
  let w3 := after (lookup_by_email ownerId) w2 in
  let direct := be (transcript w) (direct_lookup ownerId) in
  let byAccount := be (transcript w1) (lookup_by_account ownerId) in
  let byEmail := be (transcript w2) (lookup_by_email ownerId) in
  exists ownerMap',
    resolveOwner ownerId ownerMap w
    = (Return ownerMap',
       match lookups direct byAccount with
       | 1%nat => w1
       | 2%nat => w2
       | _ => w3
       end)
    /\ (forall id, id <> ownerId -> ownerMap' !! id = ownerMap !! id)
    /\ match chain direct byAccount byEmail with
       | Some d => ownerMap' !! ownerId = Some d
       | None => ownerMap' !! ownerId = None
                 \/ ownerMap' !! ownerId = ownerMap !! ownerId
       end.
Proof.
  intros w1 w2 w3 direct byAccount byEmail.
  unfold direct_lookup, lookup_by_account, lookup_by_email in *.
  unfold resolveOwner, try_catch, bind, lift, ret.
  rewrite request_run. fold w1. subst direct.
  destruct (be (transcript w) (GetDocument databaseId Users ownerId))
    as [userDoc|e] eqn:Hdirect; cbn [answer Document] in *.
  { eexists. split; [reflexivity|]. split.
    - intros id Hid. now apply lookup_assign_ne.
    - cbn [chain]. apply lookup_assign_eq. }
  rewrite request_run. fold w2. subst byAccount.
  destruct (be (transcript w1) (ListDocuments databaseId Users _))
    as [l|e'] eqn:HbyAccount; cbn [answer Document] in *.
  2:{ exists ownerMap. cbn [lookups chain]. auto. }
  cbn [lookups chain].
  destruct (0 <? total l) eqn:Htotal.
  { unfold first_document, documents_of, bind_r, first_of.
    destruct (documents l) as [[|d docs]|].
    - exists (assign ownerId None ownerMap). split; [reflexivity|]. split.
      + intros id Hid. now apply lookup_assign_ne.
      + apply lookup_assign_undefined.
    - exists (assign ownerId (Some d) ownerMap). split; [reflexivity|]. split.
      + intros id Hid. now apply lookup_assign_ne.
      + apply lookup_assign_eq.
    - exists ownerMap. auto. }
  rewrite request_run. fold w3. subst byEmail.
  destruct (be (transcript w2) (ListDocuments databaseId Users _))
    as [l'|e''] eqn:HbyEmail; cbn [answer Document] in *.
  2:{ exists ownerMap. auto. }
  destruct (0 <? total l') eqn:Htotal'.
  { unfold first_document, documents_of, bind_r, first_of.
    destruct (documents l') as [[|d docs]|].
    - exists (assign ownerId None ownerMap). split; [reflexivity|]. split.
      + intros id Hid. now apply lookup_assign_ne.
      + apply lookup_assign_undefined.
    - exists (assign ownerId (Some d) ownerMap). split; [reflexivity|]. split.
      + intros id Hid. now apply lookup_assign_ne.
      + apply lookup_assign_eq.
    - exists ownerMap. auto. }
  exists ownerMap. auto.
Qed.

Lemma uniq_from_spec (l seen : list string) :
  NoDup (uniq_from seen l)
  /\ forall x, In x (uniq_from seen l) -> In x l /\ ~ In x seen.
Proof.
  revert seen. induction l as [|x l IH]; intros seen; cbn.
  - split; [constructor|]. intros ? [].
  - destruct (bool_decide (x ∈ seen)) eqn:Hx.
    + destruct (IH seen) as [Hnd Hin]. split; [exact Hnd|].
      intros y Hy. destruct (Hin y Hy). auto.
    + apply bool_decide_eq_false in Hx. rewrite list_elem_of_In in Hx.
      destruct (IH (x :: seen)) as [Hnd Hin]. split.
      * constructor; [|exact Hnd]. rewrite list_elem_of_In.
        intros Hy. destruct (Hin x Hy) as [_ Hn]. apply Hn. now left.
      * intros y [<-|Hy]; [auto|]. destruct (Hin y Hy) as [Hl Hn].
        split; [auto|]. intros Hs. apply Hn. now right.
Qed.

Lemma ownerIds_of_NoDup (files : list FileDocument) : NoDup (ownerIds_of files).
Proof. apply uniq_from_spec. Qed.

(** What the chain resolves an owner id to, run from the world [w]. *)
Definition chain_at (w : world) (ownerId : string) : option UserDocument :=
  let w1 := after (direct_lookup ownerId) w in
  let w2 := after (lookup_by_account ownerId) w1 in
  chain (be (transcript w) (direct_lookup ownerId))
    (be (transcript w1) (lookup_by_account ownerId))
    (be (transcript w2) (lookup_by_email ownerId)).

(** The owners one after the other: no failure comes out, the keys of the
    other ids are left alone, and each id has what its own chain resolved. *)
Lemma resolveOwners_spec (ownerIds : list string)
    (ownerMap : owner_map) (w : world) :
  NoDup ownerIds ->
  (forall id, In id ownerIds -> ownerMap !! id = None) ->
  exists ownerMap' w',
    resolveOwners ownerIds ownerMap w = (Return ownerMap', w')
    /\ (forall id, ~ In id ownerIds -> ownerMap' !! id = ownerMap !! id)
    /\ (forall id, In id ownerIds ->
          exists wi t, transcript wi = (transcript w ++ t)%list
                       /\ ownerMap' !! id = chain_at wi id).
Proof.
  revert ownerMap w.
  induction ownerIds as [|ownerId ownerIds IH]; intros ownerMap w Hnd Hfresh.
  - exists ownerMap, w. cbn. split; [reflexivity|]. split; [auto|]. intros ? [].
  - apply NoDup_cons in Hnd. destruct Hnd as [Hnotin Hnd].
    rewrite list_elem_of_In in Hnotin.
    destruct (resolveOwner_run ownerId ownerMap w) as (om1 & Hrun & Hframe & Hchain).
    cbn zeta in Hrun, Hchain. fold (chain_at w ownerId) in Hchain.
    set (w1 := match lookups _ _ with 1%nat => _ | 2%nat => _ | _ => _ end) in Hrun.
    assert (Hext : exists t, transcript w1 = (transcript w ++ t)%list).
    { subst w1. destruct (lookups _ _) as [|[|[|n]]];
        rewrite ?transcript_after, <- ?app_assoc; eauto. }
    destruct Hext as [t1 Ht1].
    destruct (IH om1 w1 Hnd) as (om' & w' & Hrest & Hframe' & Hchain').
    { intros id Hid. rewrite Hframe; [apply Hfresh; now right|].
      intros ->. contradiction. }
    exists om', w'. split.
    { cbn [resolveOwners]. unfold bind. rewrite Hrun. exact Hrest. }
    split.
    { intros id Hid. rewrite Hframe'; [|intros H; apply Hid; now right].
      apply Hframe. intros ->. apply Hid. now left. }
    intros id [<-|Hid].
    + exists w, []. split; [now rewrite app_nil_r|].
      rewrite (Hframe' ownerId Hnotin).
      destruct (chain_at w ownerId) as [d|]; [exact Hchain|].
      destruct Hchain as [H|H]; [exact H|].
      rewrite H. apply Hfresh. now left.
    + destruct (Hchain' id Hid) as (wi & t & Hwi & Hres).
      exists wi, (t1 ++ t)%list. split; [|exact Hres].
      rewrite Hwi, Ht1. now rewrite app_assoc.
Qed.

(** The run of [getFiles] when the client, the current user and the listing
    are there. *)
Lemma getFiles_run (props : GetFilesProps) (w w2 : world) (u : UserDocument)
    (filesResp : DocumentList FileDocument) :
  let queries := createQueries u (default [] (p_types props))
                   (default "" (p_searchText props))
                   (default "$createdAt-desc" (p_sort props)) (p_limit props) in
  let list := ListDocuments databaseId Files queries in
  let files := default [] (documents filesResp) in
  be (transcript w) CreateAdminClient = Return tt ->
  getCurrentUser (after CreateAdminClient w) = (Return (UserFound u), w2) ->
  be (transcript w2) list = Return filesResp ->
  exists ownerMap w',
    resolveOwners (ownerIds_of files) ∅ (after list w2) = (Return ownerMap, w')
    /\ getFiles props w
       = (Return (parseStringify _
                    {| total := total filesResp;
                       documents := Some (map (attachOwner ownerMap) files) |}),
          w')
    /\ (forall id, In id (ownerIds_of files) ->
          exists wi t, transcript wi = (transcript (after list w2) ++ t)%list
                       /\ ownerMap !! id = chain_at wi id)
    /\ (forall id, ~ In id (ownerIds_of files) -> ownerMap !! id = None).
Proof.
  intros queries list files Hadmin Huser Hlist.
  destruct (resolveOwners_spec (ownerIds_of files) ∅ (after list w2))
    as (ownerMap & w' & Hrun & Hframe & Hchain).
  { apply ownerIds_of_NoDup. }
  { intros id _. apply lookup_owner_map_empty. }
  exists ownerMap, w'. split; [exact Hrun|].
  split; [|split; [exact Hchain|]];
    [|intros id Hid; rewrite (Hframe id Hid); apply lookup_owner_map_empty].
  unfold getFiles. unfold bind at 1. rewrite request_run, Hadmin.
  unfold try_catch. unfold bind at 1. rewrite Huser.
  unfold bind at 1. rewrite request_run. fold queries. fold list.
  cbn [answer Document] in *. rewrite Hlist.
  unfold bind at 1. fold files. fold list. rewrite Hrun. reflexivity.
Qed.

Lemma ownerIds_of_truthy (files : list FileDocument) (id : string) :
  In id (ownerIds_of files) -> truthy_str id = true.
Proof.
  clear getFileType constructFileUrl avatarPlaceholderUrl Date_parse.
  intros H. apply uniq_from_spec in H. destruct H as [H _].
  apply filter_In in H. tauto.
Qed.

Lemma lookup_map {A B} (f : A -> B) (l : list A) (i : nat) :
  map f l !! i = option_map f (l !! i).
Proof.
  revert i. induction l as [|a l IH]; intros [|i]; cbn; auto.
Qed.

(** C5: the client, the current user and the listing being there, [getFiles]
    returns whatever the lookups of the owners answer.  Each owner id of the
    files is looked up once, and the map of the owners holds for it what its
    chain resolved at that point of the run: the document of the direct
    lookup; when that fails, the first document of the lookup by account id;
    when that counts no document, the first document of the lookup by email;
    nothing when a lookup of the chain fails.  The chain of one id requests
    one, two or three lookups accordingly, throws nothing and leaves the
    entries of the other ids as they are. *)
Theorem getFiles_resolves_owners (props : GetFilesProps) (w w2 : world)
    (u : UserDocument) (filesResp : DocumentList FileDocument) :
  let queries := createQueries u (default [] (p_types props))
                   (default "" (p_searchText props))
                   (default "$createdAt-desc" (p_sort props)) (p_limit props) in
  let list := ListDocuments databaseId Files queries in
  let files := default [] (documents filesResp) in
  be (transcript w) CreateAdminClient = Return tt ->
  getCurrentUser (after CreateAdminClient w) = (Return (UserFound u), w2) ->
  be (transcript w2) list = Return filesResp ->
  (exists ownerMap w' out,
     resolveOwners (ownerIds_of files) ∅ (after list w2) = (Return ownerMap, w')
     /\ getFiles props w = (Return out, w')
     /\ NoDup (ownerIds_of files)
     /\ forall id, In id (ownerIds_of files) ->
          exists wi t, transcript wi = (transcript (after list w2) ++ t)%list
                       /\ ownerMap !! id = chain_at wi id)
  /\ forall (ownerId : string) (ownerMap : owner_map) (w0 : world),
       let w1 := after (direct_lookup ownerId) w0 in
       let w2 := after (lookup_by_account ownerId) w1 in
       let w3 := after (lookup_by_email ownerId) w2 in
       let direct := be (transcript w0) (direct_lookup ownerId) in
       let byAccount := be (transcript w1) (lookup_by_account ownerId) in
       let byEmail := be (transcript w2) (lookup_by_email ownerId) in
       exists ownerMap',
         resolveOwner ownerId ownerMap w0
         = (Return ownerMap',
            match lookups direct byAccount with
            | 1%nat => w1
            | 2%nat => w2
            | _ => w3
            end)
         /\ (forall id, id <> ownerId -> ownerMap' !! id = ownerMap !! id)
         /\ match chain direct byAccount byEmail with
            | Some d => ownerMap' !! ownerId = Some d
            | None => ownerMap' !! ownerId = None
                      \/ ownerMap' !! ownerId = ownerMap !! ownerId
            end.
Proof.
  intros queries list files Hadmin Huser Hlist. split.
  - destruct (getFiles_run props w w2 u filesResp Hadmin Huser Hlist)
      as (ownerMap & w' & Hrun & Hget & Hchain & _).
    exists ownerMap, w'. eexists. split; [exact Hrun|]. split; [exact Hget|].
    split; [apply ownerIds_of_NoDup|exact Hchain].
  - intros ownerId ownerMap w0. apply resolveOwner_run.
Qed.

(** *** Sign-up *)

(** The requests that write to the database. *)
Definition writes (c : call) : bool :=
  match c with
  | CreateDocument _ _ _ _ | CreateStringAttribute _ _ _ _ _ => true
  | _ => false
  end.

Definition creates_user_document (c : call) : bool :=
  match c with
  | CreateDocument _ Users _ _ => true
  | _ => false
  end.

(** The exchange shows that the users collection has the attribute [key]:
    a listing of the attributes that holds it, or its creation. *)
Definition ensures (key : string) (i : interaction) : bool :=
  match i with
  | mkInteraction c r =>
      match c return result (answer c) -> bool with
      | ListAttributes _ Users => fun r =>
          match r with
          | Return attrsResp =>
              match bind_r (attrsArray_of attrsResp) (some_r (attribute_is key)) with
              | Return true => true
              | _ => false
              end
          | Throw _ => false
          end
      | CreateStringAttribute _ Users k _ _ => fun r =>
          match r with
          | Return _ => String.eqb k key
          | Throw _ => false
          end
      | _ => fun _ => false
      end r
  end.

(** [m] only adds to the transcript, and what it adds satisfies [P]. *)
Definition adds (P : interaction -> Prop) {A} (m : M A) : Prop :=
  forall w, exists t,
    transcript (snd (m w)) = (transcript w ++ t)%list /\ Forall P t.

Lemma adds_ret (P : interaction -> Prop) {A} (a : A) : adds P (ret a).
Proof. intros w. exists []. cbn. now rewrite app_nil_r. Qed.

Lemma adds_throw (P : interaction -> Prop) {A} (e : exn) : adds P (@throw A e).
Proof. intros w. exists []. cbn. now rewrite app_nil_r. Qed.

Lemma adds_lift (P : interaction -> Prop) {A} (r : result A) : adds P (lift r).
Proof. intros w. exists []. cbn. now rewrite app_nil_r. Qed.

Lemma adds_unique (P : interaction -> Prop) : adds P unique.
Proof. intros w. exists []. cbn. now rewrite app_nil_r. Qed.

Lemma adds_console_log (P : interaction -> Prop) (l : log_line) :
  adds P (console_log l).
Proof. intros w. exists []. cbn. now rewrite app_nil_r. Qed.

Lemma adds_request (P : interaction -> Prop) (c : call) :
  (forall r, P (mkInteraction c r)) -> adds P (request c).
Proof.
  intros HP w. exists [mkInteraction c (be (transcript w) c)].
  split; [apply transcript_after|]. constructor; [apply HP|constructor].
Qed.

Lemma adds_bind (P : interaction -> Prop) {A B} (m : M A) (k : A -> M B) :
  adds P m -> (forall a, adds P (k a)) -> adds P (bind m k).
Proof.
  intros Hm Hk w. unfold bind. destruct (Hm w) as (t & Ht & HP).
  destruct (m w) as [[a|e] w1]; cbn [snd] in *.
  - destruct (Hk a w1) as (t' & Ht' & HP'). exists (t ++ t')%list.
    split; [now rewrite Ht', Ht, app_assoc|]. now apply Forall_app.
  - exists t. auto.
Qed.

Lemma adds_try_catch (P : interaction -> Prop) {A} (m : M A) (h : exn -> M A) :
  adds P m -> (forall e, adds P (h e)) -> adds P (try_catch m h).
Proof.
  intros Hm Hh w. unfold try_catch. destruct (Hm w) as (t & Ht & HP).
  destruct (m w) as [[a|e] w1]; cbn [snd] in *.
  - exists t. auto.
  - destruct (Hh e w1) as (t' & Ht' & HP'). exists (t ++ t')%list.
    split; [now rewrite Ht', Ht, app_assoc|]. now apply Forall_app.
Qed.

Lemma adds_handleError_user (P : interaction -> Prop) {A} (e : exn)
    (message : string) :
  adds P (@handleError_user A e message).
Proof.
  apply adds_bind; [apply adds_console_log|]. intros _. apply adds_throw.
Qed.

Definition no_write (i : interaction) : Prop := writes (i_call i) = false.

Definition no_user_document (i : interaction) : Prop :=
  creates_user_document (i_call i) = false.


Lemma getUserByEmail_adds (email : string) : adds no_write (getUserByEmail email).
Proof.
  unfold getUserByEmail.
  apply adds_bind; [apply adds_request; reflexivity|]. intros _.
  apply adds_bind; [apply adds_request; reflexivity|]. intros result.
  destruct (0 <? total result); [apply adds_lift|apply adds_ret].
Qed.

Lemma sendEmailOTP_adds (email : string) : adds no_write (sendEmailOTP email).
Proof.
  unfold sendEmailOTP.
  apply adds_bind; [apply adds_request; reflexivity|]. intros _.
  apply adds_try_catch; [|intros e; apply adds_handleError_user].
  apply adds_bind; [apply adds_unique|]. intros id.
  apply adds_bind; [apply adds_request; reflexivity|]. intros session.
  apply adds_ret.
Qed.

(** [m] only adds to the transcript exchanges that satisfy [P], and when it
    returns [a], what it added satisfies [Q a]. *)
Definition adds_then (P : interaction -> Prop) {A} (m : M A)
    (Q : A -> list interaction -> Prop) : Prop :=
  forall w, exists t,
    transcript (snd (m w)) = (transcript w ++ t)%list
    /\ Forall P t
    /\ forall a, fst (m w) = Return a -> Q a t.

Definition ensured (key : string) (t : list interaction) : Prop :=
  Exists (fun i => ensures key i = true) t.

Lemma ensureStringAttribute_ensures (key : string) :
  adds_then no_user_document (ensureStringAttribute Users key 255 false)
    (fun _ t => ensured key t).
Proof.
  intros w. unfold ensureStringAttribute, bind, lift, ret, ensured.
  rewrite request_run.
  set (listing := ListAttributes databaseId Users).
  set (i1 := mkInteraction listing (be (transcript w) listing)).
  assert (H1 : transcript (after listing w) = (transcript w ++ [i1])%list)
    by apply transcript_after.
  assert (P1 : Forall no_user_document [i1]) by (repeat constructor).
  assert (E1 : ensures key i1
               = match be (transcript w) listing with
                 | Return attrsResp =>
                     match bind_r (attrsArray_of attrsResp)
                             (some_r (attribute_is key)) with
                     | Return true => true
                     | _ => false
                     end
                 | Throw _ => false
                 end) by reflexivity.
  clearbody i1. cbn [answer] in *.
  destruct (be (transcript w) listing) as [attrsResp|e].
  2:{ exists [i1]. cbn. repeat split; auto. discriminate. }
  destruct (attrsArray_of attrsResp) as [attrsArray|e]; cbn [bind_r] in E1.
  2:{ exists [i1]. cbn. repeat split; auto. discriminate. }
  destruct (some_r (attribute_is key) attrsArray) as [[|]|e].
  - exists [i1]. cbn. repeat split; auto; try (intros _ _; now left).
  - rewrite request_run.
    set (create := CreateStringAttribute databaseId Users key 255 false).
    set (i2 := mkInteraction create (be (transcript (after listing w)) create)).
    assert (H2 : transcript (after create (after listing w))
                 = (transcript w ++ [i1; i2])%list).
    { rewrite transcript_after. rewrite H1 at 1. rewrite <- app_assoc.
      reflexivity. }
    assert (E2 : ensures key i2
                 = match be (transcript (after listing w)) create with
                   | Return _ => String.eqb key key
                   | Throw _ => false
                   end) by reflexivity.
    assert (P2 : Forall no_user_document [i1; i2]).
    { constructor; [now inversion P1|].
      constructor; [reflexivity|constructor]. }
    clearbody i2. cbn [answer] in *. exists [i1; i2].
    destruct (be (transcript (after listing w)) create) as [[]|e];
      cbn [fst snd]; repeat split; auto; try discriminate.
    all: try (intros _ _; right; left; rewrite E2; apply String.eqb_refl).
  - exists [i1]. cbn. repeat split; auto. discriminate.
Qed.

Lemma ensureAttributes_from_ensures (keys created : list string) :
  adds_then no_user_document (ensureAttributes_from created Users keys)
    (fun _ t => forall key, In key keys -> ensured key t).
Proof.
  revert created. induction keys as [|key keys IH]; intros created w.
  - exists []. cbn. rewrite app_nil_r. repeat split; auto. intros _ _ ? [].
  - destruct (ensureStringAttribute_ensures key w) as (t1 & Ht1 & HP1 & HQ1).
    assert (Hrun :
      ensureAttributes_from created Users (key :: keys) w
      = match ensureStringAttribute Users key 255 false w with
        | (Return didCreate, w1) =>
            ensureAttributes_from
              (if didCreate then (created ++ [key])%list else created) Users keys
              (with_console
                 (console w1
                  ++ [LogText ((if didCreate then "Attribute created: "
                                else "Attribute already exists: ") ++ key)])
                 w1)
        | (Throw e, w1) =>
            (Throw e,
             with_console
               (console w1 ++ [LogError ("Failed ensuring attribute " ++ key) e])
               w1)
        end).
    { cbn [ensureAttributes_from]. unfold bind, try_catch, console_log, throw, ret.
      destruct (ensureStringAttribute Users key 255 false w) as [[[|]|e] w1];
        reflexivity. }
    rewrite Hrun. clear Hrun.
    destruct (ensureStringAttribute Users key 255 false w) as [[didCreate|e] w1];
      cbn [fst snd] in *.
    + match goal with
      | |- context [ensureAttributes_from ?c Users keys ?w'] =>
          destruct (IH c w') as (t2 & Ht2 & HP2 & HQ2)
      end.
      cbn [transcript with_console] in Ht2.
      exists (t1 ++ t2)%list. split; [now rewrite Ht2, Ht1, app_assoc|].
      split; [now apply Forall_app|].
      intros a Ha key' [<-|Hin]; unfold ensured in *; apply Exists_app.
      * left. now apply (HQ1 didCreate).
      * right. now apply (HQ2 a Ha).
    + exists t1. cbn. repeat split; auto. discriminate.
Qed.

Lemma split_at_last (P : interaction -> Prop) (pre t1 t2 : list interaction)
    (x i : interaction) :
  Forall P pre -> ~ P i -> (pre ++ [x])%list = (t1 ++ i :: t2)%list ->
  t1 = pre /\ i = x /\ t2 = [].
Proof.
  intros Hpre Hi. revert t1. induction Hpre as [|p pre Hp Hpre IH]; intros t1 H.
  - destruct t1 as [|a t1]; cbn in H.
    + injection H as -> <-. auto.
    + injection H as _ H. now destruct t1.
  - destruct t1 as [|a t1]; cbn in H.
    + injection H as -> _. contradiction.
    + injection H as -> H. destruct (IH t1 H) as (-> & -> & ->). auto.
Qed.

(** The document that sign-up creates for a new user. *)
Definition newUser (fullName email accountId : string) : obj :=
  [("fullName", VStr fullName); ("email", VStr email);
   ("avatar", VStr avatarPlaceholderUrl); ("accountId", VStr accountId)].

(** The run of [createAccount], step by step. *)
Lemma createAccount_run (fullName email : string) (w : world) :
  createAccount fullName email w
  = match getUserByEmail email w with
    | (Throw e, w1) => (Throw e, w1)
    | (Return existingUser, w1) =>
        match sendEmailOTP email w1 with
        | (Throw e, w2) => (Throw e, w2)
        | (Return accountId, w2) =>
            if truthy_str accountId then
              match existingUser with
              | Some _ =>
                  (Return (parseStringify _ {| accountId := accountId |}), w2)
              | None =>
                  match be (transcript w2) CreateAdminClient with
                  | Throw e => (Throw e, after CreateAdminClient w2)
                  | Return _ =>
                      match ensureAttributes Users keysToEnsure
                              (after CreateAdminClient w2) with
                      | (Throw e, w4) =>
                          (Throw e,
                           with_console
                             (console w4
                              ++ [LogError
                                    "Failed to ensure collection attributes" e])
                             w4)
                      | (Return _, w4) =>
                          let create :=
                            CreateDocument databaseId Users
                              (ID_unique (transcript w4))
                              (newUser fullName email accountId) in
                          match be (transcript w4) create with
                          | Return _ =>
                              (Return (parseStringify _
                                         {| accountId := accountId |}),
                               after create w4)
                          | Throw e =>
                              (Throw e,
                               with_console
                                 (console (after create w4)
                                  ++ [LogError "createDocument failed:" e])
                                 (after create w4))
                          end
                      end
                  end
              end
            else (Throw (JsError "Failed to send an OTP"), w2)
        end
    end.
Proof.
  unfold createAccount. unfold bind at 1.
  destruct (getUserByEmail email w) as [[existingUser|e] w1]; [|reflexivity].
  unfold bind at 1.
  destruct (sendEmailOTP email w1) as [[accountId|e] w2]; [|reflexivity].
  destruct (truthy_str accountId); cbn [negb]; [|reflexivity].
  destruct existingUser as [existing|]; [reflexivity|].
  unfold bind at 1. unfold bind at 1. unfold bind at 1.
  rewrite request_run. cbn [answer] in *.
  destruct (be (transcript w2) CreateAdminClient) as [[]|e]; [|reflexivity].
  unfold try_catch at 1. unfold bind at 1.
  destruct (ensureAttributes Users keysToEnsure (after CreateAdminClient w2))
    as [[created|e] w4]; [|reflexivity].
  unfold ret at 1. unfold try_catch at 1. unfold bind at 1, unique at 1.
  unfold bind at 1. rewrite request_run. fold (newUser fullName email accountId).
  cbn [answer Document] in *.
  destruct (be (transcript w4) _) as [doc|e]; reflexivity.
Qed.

Lemma no_user_document_in (t t1 t2 : list interaction) (i : interaction) :
  Forall no_user_document t -> t = (t1 ++ i :: t2)%list ->
  creates_user_document (i_call i) = true -> False.
Proof.
  intros H -> Hi. apply Forall_app in H. destruct H as [_ H].
  inversion H as [|? ? Hno _]; subst. unfold no_user_document in Hno. congruence.
Qed.



(** ** Further properties of the actions *)

(** *** What a request leaves alone *)

Lemma console_after (c : call) (w : world) : console (after c w) = console w.
Proof.
  unfold after, request. cbn [snd].
  destruct c; cbn; try reflexivity; destruct (be (transcript w) _); reflexivity.
Qed.

Lemma revalidated_after (c : call) (w : world) :
  revalidated (after c w) = revalidated w.
Proof.
  unfold after, request. cbn [snd].
  destruct c; cbn; try reflexivity; destruct (be (transcript w) _); reflexivity.
Qed.

Lemma cookies_after (c : call) (w : world) : cookies (after c w) = cookies w.
Proof.
  unfold after, request. cbn [snd].
  destruct c; cbn; try reflexivity; destruct (be (transcript w) _); reflexivity.
Qed.

Lemma bucket_after_store (b fileId : string) (file : InputFile) (w : world)
    (bucketFile : BucketFile) :
  be (transcript w) (StorageCreateFile b fileId file) = Return bucketFile ->
  bucket (after (StorageCreateFile b fileId file) w)
  = {[ bf_id bucketFile ]} ∪ bucket w.
Proof. intros H. unfold after, request. cbn [snd effect]. now rewrite H. Qed.

Lemma bucket_after_remove (b fileId : string) (w : world) :
  bucket (after (StorageDeleteFile b fileId) w)
  = match be (transcript w) (StorageDeleteFile b fileId) with
    | Return _ => bucket w ∖ {[ fileId ]}
    | Throw _ => bucket w
    end.
Proof.
  unfold after, request. cbn [snd effect].
  destruct (be (transcript w) (StorageDeleteFile b fileId)); reflexivity.
Qed.

(** *** The upload, besides the rollback *)

(** X1: the upload that goes through.  The bytes are stored, the attributes
    listed and the document created: [uploadFile] returns the document of
    the backend, after exactly these four requests (no deletion among
    them); the object is in the bucket, the path is revalidated once, and
    nothing is logged. *)
Theorem uploadFile_success (w : world) (file : File)
    (ownerId accountId path : string) (bucketFile : BucketFile)
    (attrsResp : value) (attrsArray existingKeys : list value)
    (newFile : FileDocument) :
  let w1 := after CreateAdminClient w in
  let store := StorageCreateFile bucketId (ID_unique (transcript w1))
                 (InputFile_fromBuffer file (file_name file)) in
  let w2 := after store w1 in
  let w3 := after (ListAttributes databaseId Files) w2 in
  let create := CreateDocument databaseId Files (ID_unique (transcript w3))
                  (fileDocument_of existingKeys bucketFile ownerId accountId) in
  let w' := snd (uploadFile file ownerId accountId path w) in
  be (transcript w) CreateAdminClient = Return tt ->
  be (transcript w1) store = Return bucketFile ->
  be (transcript w2) (ListAttributes databaseId Files) = Return attrsResp ->
  attrsArray_of attrsResp = Return attrsArray ->
  existingKeys_of attrsArray = Return existingKeys ->
  be (transcript w3) create = Return newFile ->
  fst (uploadFile file ownerId accountId path w)
  = Return (parseStringify _ newFile)
  /\ (exists t,
        transcript w' = (transcript w ++ t)%list
        /\ map i_call t
           = [CreateAdminClient; store; ListAttributes databaseId Files; create])
  /\ bf_id bucketFile ∈ bucket w'
  /\ revalidated w' = (revalidated w ++ [path])%list
  /\ console w' = console w.
Proof.
  intros w1 store w2 w3 create w' Hadmin Hstore Hlist Harray Hkeys Hcreate.
  subst w'.
  rewrite (uploadFile_run w file ownerId accountId path bucketFile attrsResp
             attrsArray existingKeys Hadmin Hstore Hlist Harray Hkeys).
  fold w1 store w2 w3 create. rewrite Hcreate.
  cbn [fst snd transcript bucket revalidated console with_revalidated].
  split; [reflexivity|]. split; [|split; [|split]].
  - exists [mkInteraction CreateAdminClient (be (transcript w) CreateAdminClient);
            mkInteraction store (be (transcript w1) store);
            mkInteraction (ListAttributes databaseId Files)
              (be (transcript w2) (ListAttributes databaseId Files));
            mkInteraction create (be (transcript w3) create)].
    split; [|reflexivity].
    rewrite (transcript_after create w3). fold w3.
    unfold w3 at 1. rewrite (transcript_after _ w2).
    unfold w2 at 1. rewrite (transcript_after store w1).
    unfold w1 at 1. rewrite (transcript_after _ w).
    now rewrite <- !app_assoc.
  - rewrite (bucket_after_other create w3). unfold w3.
    rewrite (bucket_after_other (ListAttributes databaseId Files) w2).
    unfold w2, store. rewrite (bucket_after_store _ _ _ _ _ Hstore).
    apply elem_of_union. left. now apply elem_of_singleton.
  - unfold w3, w2, w1. now rewrite !revalidated_after.
  - unfold w3, w2, w1. now rewrite !console_after.
Qed.

(** X2: the bytes are stored and the payload cannot be built, because the
    listing of the attributes fails or its answer is not of the expected
    shape.  [uploadFile] then throws that error after logging it once; it
    requests nothing more, no deletion in particular: the object it has
    just stored stays in the bucket, with no document for it. *)
Theorem uploadFile_schema_failure_leaves_object (w : world) (file : File)
    (ownerId accountId path : string) (bucketFile : BucketFile) (error : exn) :
  let w1 := after CreateAdminClient w in
  let store := StorageCreateFile bucketId (ID_unique (transcript w1))
                 (InputFile_fromBuffer file (file_name file)) in
  let w2 := after store w1 in
  let w' := snd (uploadFile file ownerId accountId path w) in
  be (transcript w) CreateAdminClient = Return tt ->
  be (transcript w1) store = Return bucketFile ->
  match be (transcript w2) (ListAttributes databaseId Files) with
  | Return attrsResp => bind_r (attrsArray_of attrsResp) existingKeys_of
  | Throw e => Throw e
  end = Throw error ->
  fst (uploadFile file ownerId accountId path w) = Throw error
  /\ (exists t,
        transcript w' = (transcript w ++ t)%list
        /\ map i_call t
           = [CreateAdminClient; store; ListAttributes databaseId Files])
  /\ bf_id bucketFile ∈ bucket w'
  /\ console w' = (console w ++ [LogError "Failed to upload file" error])%list
  /\ revalidated w' = revalidated w.
Proof.
  intros w1 store w2 w' Hadmin Hstore Hschema.
  set (w3 := after (ListAttributes databaseId Files) w2).
  assert (Hrun : uploadFile file ownerId accountId path w
                 = (Throw error,
                    with_console
                      (console w3 ++ [LogError "Failed to upload file" error]) w3)).
  { unfold uploadFile. unfold bind at 1. rewrite request_run, Hadmin.
    fold w1. unfold try_catch at 1. unfold bind at 1. unfold unique at 1.
    unfold bind at 1. rewrite request_run. fold store. rewrite Hstore. fold w2.
    unfold bind at 1. rewrite request_run. fold w3.
    cbn [answer Document] in *.
    destruct (be (transcript w2) (ListAttributes databaseId Files))
      as [attrsResp|e].
    - unfold bind at 1. unfold lift at 1.
      destruct (attrsArray_of attrsResp) as [attrsArray|e]; cbn [bind_r] in Hschema.
      + unfold bind at 1. unfold lift at 1. rewrite Hschema. reflexivity.
      + injection Hschema as ->. reflexivity.
    - injection Hschema as ->. reflexivity. }
  subst w'. rewrite Hrun.
  cbn [fst snd transcript bucket revalidated console with_console].
  split; [reflexivity|]. split; [|split; [|split]].
  - exists [mkInteraction CreateAdminClient (be (transcript w) CreateAdminClient);
            mkInteraction store (be (transcript w1) store);
            mkInteraction (ListAttributes databaseId Files)
              (be (transcript w2) (ListAttributes databaseId Files))].
    split; [|reflexivity].
    unfold w3. rewrite (transcript_after _ w2).
    unfold w2 at 1. rewrite (transcript_after store w1).
    unfold w1 at 1. rewrite (transcript_after _ w).
    now rewrite <- !app_assoc.
  - unfold w3. rewrite (bucket_after_other (ListAttributes databaseId Files) w2).
    unfold w2, store. rewrite (bucket_after_store _ _ _ _ _ Hstore).
    apply elem_of_union. left. now apply elem_of_singleton.
  - unfold w3, w2, w1. now rewrite !console_after.
  - unfold w3, w2, w1. now rewrite !revalidated_after.
Qed.

(** X3: [uploadFile] revalidates the path exactly when it returns, and once;
    a run that throws revalidates nothing.  A run that returns logs nothing,
    and no run touches the cookies. *)
Theorem uploadFile_revalidates_iff_returns (file : File)
    (ownerId accountId path : string) (w : world) :
  let r := uploadFile file ownerId accountId path w in
  revalidated (snd r)
  = match fst r with
    | Return _ => (revalidated w ++ [path])%list
    | Throw _ => revalidated w
    end
  /\ (forall newFile, fst r = Return newFile -> console (snd r) = console w)
  /\ cookies (snd r) = cookies w.
Proof.
  cbn zeta. remember (uploadFile file ownerId accountId path w) as r eqn:Hr.
  unfold uploadFile in Hr. run.
  destruct (be (transcript w) CreateAdminClient) as [[]|e]; cbn in Hr;
    [|subst r; repeat split; discriminate].
  destruct (be _ (StorageCreateFile _ _ _)) as [bucketFile|e]; cbn in Hr;
    [|subst r; repeat split; discriminate].
  destruct (be _ (ListAttributes _ _)) as [attrsResp|e]; cbn in Hr;
    [|subst r; repeat split; discriminate].
  destruct (attrsArray_of attrsResp) as [attrsArray|e]; cbn in Hr;
    [|subst r; repeat split; discriminate].
  destruct (existingKeys_of attrsArray) as [existingKeys|e]; cbn in Hr;
    [|subst r; repeat split; discriminate].
  destruct (be _ (CreateDocument _ _ _ _)) as [newFile|e]; cbn in Hr;
    [subst r; repeat split|].
  destruct (be _ (StorageDeleteFile _ _)) as [[]|e']; cbn in Hr;
    subst r; repeat split; discriminate.
Qed.

(** X4: the bucket after [uploadFile], whatever happens, differs from the
    bucket before at most in the object that the upload stored: every other
    object that was there is still there, and nothing else came in. *)
Theorem uploadFile_keeps_other_objects (file : File)
    (ownerId accountId path : string) (w : world) (id : string) :
  let w1 := after CreateAdminClient w in
  let store := StorageCreateFile bucketId (ID_unique (transcript w1))
                 (InputFile_fromBuffer file (file_name file)) in
  (forall bucketFile,
     be (transcript w1) store = Return bucketFile -> id <> bf_id bucketFile) ->
  id ∈ bucket (snd (uploadFile file ownerId accountId path w)) <-> id ∈ bucket w.
Proof.
  clear avatarPlaceholderUrl Date_parse.
  cbn zeta. intros Hother. unfold uploadFile. run.
  destruct (be (transcript w) CreateAdminClient) as [[]|e]; cbn; [|done].
  cbn in Hother.
  destruct (be _ (StorageCreateFile _ _ _)) as [bucketFile|e]; cbn; [|done].
  specialize (Hother bucketFile eq_refl).
  assert (Hin : id ∈ ({[bf_id bucketFile]} ∪ bucket w : gset string)
                <-> id ∈ bucket w).
  { rewrite elem_of_union, elem_of_singleton. tauto. }
  destruct (be _ (ListAttributes _ _)) as [attrsResp|e]; cbn; [|exact Hin].
  destruct (attrsArray_of attrsResp) as [attrsArray|e]; cbn; [|exact Hin].
  destruct (existingKeys_of attrsArray) as [existingKeys|e]; cbn; [|exact Hin].
  destruct (be _ (CreateDocument _ _ _ _)) as [newFile|e]; cbn; [exact Hin|].
  destruct (be _ (StorageDeleteFile _ _)) as [[]|e']; cbn; [|exact Hin].
  rewrite elem_of_difference, elem_of_singleton. tauto.
Qed.

(** *** The values of the payload *)

Lemma get_field_set_field (k k0 : string) (v : value) (d : obj) :
  get_field k (set_field k0 v d) = if String.eqb k0 k then v else get_field k d.
Proof.
  induction d as [|[k' v'] d IH]; cbn.
  - destruct (String.eqb k0 k); reflexivity.
  - destruct (String.eqb_spec k' k0) as [->|Hne]; cbn.
    + destruct (String.eqb k0 k); reflexivity.
    + rewrite IH.
      destruct (String.eqb_spec k' k) as [->|Hk'], (String.eqb_spec k0 k) as [->|Hk0];
        try reflexivity.
      congruence.
Qed.

Lemma NoDup_keys_set_field (k : string) (v : value) (d : obj) :
  NoDup (keys d) -> NoDup (keys (set_field k v d)).
Proof.
  induction d as [|[k' v'] d IH]; cbn; intros Hnd.
  - apply NoDup_singleton.
  - apply NoDup_cons in Hnd. destruct Hnd as [Hnotin Hnd].
    rewrite list_elem_of_In in Hnotin.
    destruct (String.eqb_spec k' k) as [->|Hne]; cbn.
    + apply NoDup_cons. rewrite list_elem_of_In. auto.
    + apply NoDup_cons. rewrite list_elem_of_In. split; [|apply IH, Hnd].
      intros Hin. apply In_keys_set_field in Hin.
      destruct Hin as [->|Hin]; [congruence|contradiction].
Qed.

Lemma NoDup_keys_if (b : bool) (k : string) (v : value) (d : obj) :
  NoDup (keys d) -> NoDup (keys (if b then set_field k v d else d)).
Proof. destruct b; [apply NoDup_keys_set_field|auto]. Qed.

Lemma NoDup_keys_picked (o : option string) (v : value) (d : obj) :
  NoDup (keys d) ->
  NoDup (keys (match o with
               | Some k => if truthy_str k then set_field k v d else d
               | None => d
               end)).
Proof. destruct o; [apply NoDup_keys_if|auto]. Qed.

(** Whether the assignment under a picked key writes the key [k]. *)
Definition sets (o : option string) (k : string) : bool :=
  match o with
  | Some k0 => truthy_str k0 && String.eqb k0 k
  | None => false
  end.

Lemma get_field_if (b : bool) (k k0 : string) (v : value) (d : obj) :
  get_field k (if b then set_field k0 v d else d)
  = if b && String.eqb k0 k then v else get_field k d.
Proof. destruct b; [apply get_field_set_field|reflexivity]. Qed.

Lemma get_field_picked (o : option string) (k : string) (v : value) (d : obj) :
  get_field k (match o with
               | Some k0 => if truthy_str k0 then set_field k0 v d else d
               | None => d
               end)
  = if sets o k then v else get_field k d.
Proof. destruct o as [k0|]; [apply get_field_if|reflexivity]. Qed.

Lemma sets_other (existingKeys : list value) (candidates : list string)
    (k : string) :
  ~ In k candidates -> sets (pickKey existingKeys candidates) k = false.
Proof.
  intros Hk. unfold sets.
  destruct (pickKey existingKeys candidates) as [k0|] eqn:Hpick; [|reflexivity].
  apply pickKey_In in Hpick. destruct Hpick as [Hin _].
  destruct (String.eqb_spec k0 k) as [->|Hne]; [contradiction|].
  apply andb_false_r.
Qed.

(** The value of each field of the payload, by key. *)
Definition field_of (bucketFile : BucketFile) (ownerId accountId k : string)
    : value :=
  if String.eqb k "name" then VStr (bf_name bucketFile)
  else if String.eqb k "url" then VStr (constructFileUrl (bf_id bucketFile))
  else if String.eqb k "type" then VStr (fst (getFileType (bf_name bucketFile)))
  else if String.eqb k "extension"
  then VStr (snd (getFileType (bf_name bucketFile)))
  else if String.eqb k "size" then VNum (bf_sizeOriginal bucketFile)
  else if String.eqb k "owner" then VStr ownerId
  else if String.eqb k "users" then VArr []
  else if existsb (String.eqb k) accountCandidates then VStr accountId
  else if existsb (String.eqb k) bucketFileCandidates
  then VStr (bf_id bucketFile)
  else VUndefined.

Ltac forget_has existingKeys :=
  repeat match goal with
         | |- context [has existingKeys ?c] =>
             generalize (has existingKeys c); intro
         end.

(** X5: the payload of the upload has no key twice, and reading a key of
    the payload gives the value of its field: the name, the url, the type,
    the extension and the size of the bucket file, the owner id, the empty
    list of users, the account id under its picked spelling and the id of
    the bucket file under its picked spelling.  No assignment of the payload
    overwrites another. *)
Theorem fileDocument_of_values (existingKeys : list value)
    (bucketFile : BucketFile) (ownerId accountId : string) :
  let fileDocument := fileDocument_of existingKeys bucketFile ownerId accountId in
  NoDup (keys fileDocument)
  /\ forall k, In k (keys fileDocument) ->
       get_field k fileDocument = field_of bucketFile ownerId accountId k.
Proof.
  clear avatarPlaceholderUrl Date_parse bucketId databaseId.
  cbn zeta. split.
  - unfold fileDocument_of. cbv zeta.
    repeat first [apply NoDup_keys_if | apply NoDup_keys_picked].
    apply NoDup_nil_2.
  - intros k Hk. apply fileDocument_of_keys in Hk.
    unfold fileDocument_of. cbv zeta.
    rewrite get_field_if, !get_field_picked, !get_field_if, !picked_single.
    cbn [get_field].
    destruct Hk as [[Hin Hhas]|[Hpick|Hpick]].
    + cbn in Hin.
      repeat destruct Hin as [<-|Hin]; try (now destruct Hin).
      all: rewrite Hhas.
      all: rewrite !sets_other by (cbn; intuition discriminate).
      all: forget_has existingKeys; cbn; rewrite ?andb_false_r; reflexivity.
    + rewrite Hpick. apply pickKey_In in Hpick. destruct Hpick as [Hin _].
      cbn in Hin. repeat destruct Hin as [<-|Hin]; try (now destruct Hin).
      all: rewrite !sets_other by (cbn; intuition discriminate).
      all: forget_has existingKeys; cbn; rewrite ?andb_false_r; reflexivity.
    + rewrite Hpick. apply pickKey_In in Hpick. destruct Hpick as [Hin _].
      cbn in Hin. repeat destruct Hin as [<-|Hin]; try (now destruct Hin).
      all: rewrite !sets_other by (cbn; intuition discriminate).
      all: forget_has existingKeys; cbn; rewrite ?andb_false_r; reflexivity.
Qed.

(** *** Actions that only read *)

(** The requests that change nothing at the backend. *)
Definition reads (c : call) : bool :=
  match c with
  | CreateAdminClient | CreateSessionClient | ListAttributes _ _
  | GetDocument _ _ _ | ListDocuments _ _ _ | AccountGet => true
  | _ => false
  end.

(** [m] requests only such things, and leaves the bucket, the cookies and
    the revalidated paths as they are. *)
Definition read_only {A} (m : M A) : Prop :=
  forall w,
    (exists t, transcript (snd (m w)) = (transcript w ++ t)%list
               /\ Forall (fun i => reads (i_call i) = true) t)
    /\ bucket (snd (m w)) = bucket w
    /\ cookies (snd (m w)) = cookies w
    /\ revalidated (snd (m w)) = revalidated w.

Lemma read_only_pure {A} (m : M A) :
  (forall w, transcript (snd (m w)) = transcript w
             /\ bucket (snd (m w)) = bucket w
             /\ cookies (snd (m w)) = cookies w
             /\ revalidated (snd (m w)) = revalidated w) ->
  read_only m.
Proof.
  intros H w. destruct (H w) as (Ht & Hb & Hc & Hr).
  split; [|auto]. exists []. rewrite app_nil_r. auto.
Qed.

Lemma read_only_ret {A} (a : A) : read_only (ret a).
Proof. apply read_only_pure. intros w. cbn. auto. Qed.

Lemma read_only_throw {A} (e : exn) : read_only (@throw A e).
Proof. apply read_only_pure. intros w. cbn. auto. Qed.

Lemma read_only_lift {A} (r : result A) : read_only (lift r).
Proof. apply read_only_pure. intros w. cbn. auto. Qed.

Lemma read_only_console_log (l : log_line) : read_only (console_log l).
Proof. apply read_only_pure. intros w. cbn. auto. Qed.

Lemma read_only_request (c : call) : reads c = true -> read_only (request c).
Proof.
  intros Hc w. change (snd (request c w)) with (after c w).
  split; [|split; [|split]].
  - exists [mkInteraction c (be (transcript w) c)].
    split; [apply transcript_after|]. constructor; [exact Hc|constructor].
  - pose proof (bucket_after_other c w) as H.
    destruct c; try discriminate; exact H.
  - apply cookies_after.
  - apply revalidated_after.
Qed.

Lemma read_only_bind {A B} (m : M A) (k : A -> M B) :
  read_only m -> (forall a, read_only (k a)) -> read_only (bind m k).
Proof.
  intros Hm Hk w. unfold bind.
  destruct (Hm w) as ((t & Ht & HP) & Hb & Hc & Hr).
  destruct (m w) as [[a|e] w1]; cbn [snd] in *.
  - destruct (Hk a w1) as ((t' & Ht' & HP') & Hb' & Hc' & Hr').
    rewrite Hb', Hc', Hr'. split; [|auto]. exists (t ++ t')%list.
    split; [now rewrite Ht', Ht, app_assoc|now apply Forall_app].
  - split; [|auto]. exists t. auto.
Qed.

Lemma read_only_try_catch {A} (m : M A) (h : exn -> M A) :
  read_only m -> (forall e, read_only (h e)) -> read_only (try_catch m h).
Proof.
  intros Hm Hh w. unfold try_catch.
  destruct (Hm w) as ((t & Ht & HP) & Hb & Hc & Hr).
  destruct (m w) as [[a|e] w1]; cbn [snd] in *.
  - split; [|auto]. exists t. auto.
  - destruct (Hh e w1) as ((t' & Ht' & HP') & Hb' & Hc' & Hr').
    rewrite Hb', Hc', Hr'. split; [|auto]. exists (t ++ t')%list.
    split; [now rewrite Ht', Ht, app_assoc|now apply Forall_app].
Qed.

Lemma read_only_handleError_file {A} (e : exn) (message : string) :
  read_only (@handleError_file A e message).
Proof.
  apply read_only_bind; [apply read_only_console_log|].
  intros _. apply read_only_throw.
Qed.

Lemma getCurrentUser_read_only : read_only getCurrentUser.
Proof.
  unfold getCurrentUser. apply read_only_try_catch.
  - apply read_only_bind; [now apply read_only_request|]. intros _.
    apply read_only_bind; [now apply read_only_request|]. intros result.
    apply read_only_bind; [now apply read_only_request|]. intros user.
    destruct (total user <=? 0); [apply read_only_ret|].
    apply read_only_bind; [apply read_only_lift|]. intros [d|];
      apply read_only_ret.
  - intros e. apply read_only_bind; [apply read_only_console_log|].
    intros _. apply read_only_ret.
Qed.

Lemma resolveOwner_read_only (ownerId : string)
    (ownerMap : owner_map) :
  read_only (resolveOwner ownerId ownerMap).
Proof.
  unfold resolveOwner. apply read_only_try_catch.
  - apply read_only_bind; [now apply read_only_request|]. intros userDoc.
    apply read_only_ret.
  - intros _. apply read_only_try_catch; [|intros _; apply read_only_ret].
    apply read_only_bind; [now apply read_only_request|]. intros byAccount.
    destruct (0 <? total byAccount).
    + apply read_only_bind; [apply read_only_lift|]. intros first.
      apply read_only_ret.
    + apply read_only_bind; [now apply read_only_request|]. intros byEmail.
      destruct (0 <? total byEmail); [|apply read_only_ret].
      apply read_only_bind; [apply read_only_lift|]. intros first.
      apply read_only_ret.
Qed.

Lemma resolveOwners_read_only (ownerIds : list string)
    (ownerMap : owner_map) :
  read_only (resolveOwners ownerIds ownerMap).
Proof.
  revert ownerMap. induction ownerIds as [|ownerId ownerIds IH]; intros ownerMap.
  - apply read_only_ret.
  - cbn [resolveOwners]. apply read_only_bind; [apply resolveOwner_read_only|].
    intros ownerMap'. apply IH.
Qed.

(** X6: the three actions that list things only read.  Whatever the backend
    answers, [getCurrentUser], [getFiles] and [getTotalSpaceUsed] request
    nothing but clients, the account, documents and listings of documents:
    they create, update and delete nothing, and they leave the bucket, the
    cookies and the revalidated paths as they were. *)
Theorem listing_actions_read_only :
  read_only getCurrentUser
  /\ (forall props, read_only (getFiles props))
  /\ read_only getTotalSpaceUsed.
Proof.
  split; [apply getCurrentUser_read_only|]. split.
  - intros props. unfold getFiles.
    apply read_only_bind; [now apply read_only_request|]. intros _.
    apply read_only_try_catch; [|intros e; apply read_only_handleError_file].
    apply read_only_bind; [apply getCurrentUser_read_only|].
    intros [u| |]; try apply read_only_throw.
    apply read_only_bind; [now apply read_only_request|]. intros filesResp.
    apply read_only_bind; [apply resolveOwners_read_only|]. intros ownerMap.
    apply read_only_ret.
  - unfold getTotalSpaceUsed.
    apply read_only_try_catch; [|intros e; apply read_only_handleError_file].
    apply read_only_bind; [now apply read_only_request|]. intros _.
    apply read_only_bind; [apply getCurrentUser_read_only|].
    intros [u| |]; try apply read_only_throw.
    apply read_only_bind; [now apply read_only_request|]. intros files.
    apply read_only_bind; [apply read_only_lift|]. intros documents.
    apply read_only_ret.
Qed.

(** X7: without a current user (the lookup gave null or undefined, which
    is also what every failure of the session gives), [getFiles] throws
    "User not found": it logs the error once and requests nothing after the
    lookup of the user, no listing of files in particular. *)
Theorem getFiles_without_user (props : GetFilesProps) (w w2 : world)
    (currentUser : current_user) :
  be (transcript w) CreateAdminClient = Return tt ->
  getCurrentUser (after CreateAdminClient w) = (Return currentUser, w2) ->
  (forall u, currentUser <> UserFound u) ->
  getFiles props w
  = (Throw (JsError "User not found"),
     with_console
       (console w2
        ++ [LogError "Failed to get files" (JsError "User not found")]) w2).
Proof.
  intros Hadmin Huser Hnone.
  unfold getFiles. unfold bind at 1. rewrite request_run, Hadmin.
  unfold try_catch. unfold bind at 1. rewrite Huser.
  destruct currentUser as [u| |]; [now destruct (Hnone u)| |]; reflexivity.
Qed.

(** *** The lookups of the owners, counted *)

Definition is_direct_lookup (i : interaction) : bool :=
  match i_call i with
  | GetDocument _ Users _ => true
  | _ => false
  end.

Definition direct_lookups (t : list interaction) : nat :=
  length (List.filter is_direct_lookup t).

Lemma direct_lookups_app (t t' : list interaction) :
  direct_lookups (t ++ t') = (direct_lookups t + direct_lookups t')%nat.
Proof. unfold direct_lookups. now rewrite List.filter_app, length_app. Qed.

Lemma resolveOwner_lookups (ownerId : string)
    (ownerMap : owner_map) (w : world) :
  exists t,
    transcript (snd (resolveOwner ownerId ownerMap w)) = (transcript w ++ t)%list
    /\ direct_lookups t = 1%nat
    /\ (length t <= 3)%nat.
Proof.
  destruct (resolveOwner_run ownerId ownerMap w) as (om & Hrun & _).
  cbn zeta in Hrun. rewrite Hrun. cbn [snd].
  unfold direct_lookup, lookup_by_account, lookup_by_email.
  destruct (lookups _ _) as [|[|[|n]]]; rewrite ?transcript_after, <- ?app_assoc;
    eexists; (split; [reflexivity|]); cbn; split; lia.
Qed.

Lemma resolveOwners_lookups (ownerIds : list string)
    (ownerMap : owner_map) (w : world) :
  exists t,
    transcript (snd (resolveOwners ownerIds ownerMap w)) = (transcript w ++ t)%list
    /\ direct_lookups t = length ownerIds
    /\ (length t <= 3 * length ownerIds)%nat.
Proof.
  revert ownerMap w. induction ownerIds as [|ownerId ownerIds IH];
    intros ownerMap w.
  - exists []. cbn. rewrite app_nil_r. repeat split; lia.
  - cbn [resolveOwners]. unfold bind.
    destruct (resolveOwner_lookups ownerId ownerMap w) as (t1 & Ht1 & Hd1 & Hl1).
    destruct (resolveOwner_run ownerId ownerMap w) as (om & Hrun & _).
    cbn zeta in Hrun. rewrite Hrun in *. cbn [snd] in Ht1.
    match goal with
    | |- context [resolveOwners ownerIds om ?w1] =>
        destruct (IH om w1) as (t2 & Ht2 & Hd2 & Hl2)
    end.
    exists (t1 ++ t2)%list. rewrite Ht2, Ht1, app_assoc.
    split; [reflexivity|]. rewrite direct_lookups_app, length_app. cbn [length].
    split; lia.
Qed.

Lemma uniq_from_length (l seen : list string) :
  (length (uniq_from seen l) <= length l)%nat.
Proof.
  revert seen. induction l as [|x l IH]; intros seen; cbn; [lia|].
  destruct (bool_decide (x ∈ seen)); cbn; [specialize (IH seen)|
                                            specialize (IH (x :: seen))]; lia.
Qed.

Lemma ownerIds_of_length (files : list FileDocument) :
  (length (ownerIds_of files) <= length files)%nat.
Proof.
  unfold ownerIds_of, uniq.
  etransitivity; [apply uniq_from_length|].
  etransitivity; [apply List.filter_length_le|].
  induction files as [|f files IH]; cbn; [lia|].
  destruct (ownerId_of (f_owner f)); cbn; lia.
Qed.

(** X8: the client, the current user and the listing being there, [getFiles]
    looks up each distinct owner id of the files directly once, however
    many files share it: after the listing it requests as many direct
    lookups as there are distinct truthy owner ids (at most one per file),
    and at most three requests per such id. *)
Theorem getFiles_one_direct_lookup_per_owner (props : GetFilesProps)
    (w w2 : world) (u : UserDocument) (filesResp : DocumentList FileDocument) :
  let queries := createQueries u (default [] (p_types props))
                   (default "" (p_searchText props))
                   (default "$createdAt-desc" (p_sort props)) (p_limit props) in
  let list := ListDocuments databaseId Files queries in
  let files := default [] (documents filesResp) in
  be (transcript w) CreateAdminClient = Return tt ->
  getCurrentUser (after CreateAdminClient w) = (Return (UserFound u), w2) ->
  be (transcript w2) list = Return filesResp ->
  exists t,
    transcript (snd (getFiles props w)) = (transcript (after list w2) ++ t)%list
    /\ direct_lookups t = length (ownerIds_of files)
    /\ (length t <= 3 * length (ownerIds_of files))%nat
    /\ (length (ownerIds_of files) <= length files)%nat
    /\ NoDup (ownerIds_of files).
Proof.
  intros queries list files Hadmin Huser Hlist.
  destruct (getFiles_run props w w2 u filesResp Hadmin Huser Hlist)
    as (ownerMap & w' & Hrun & Hget & _).
  fold queries list files in Hrun, Hget.
  destruct (resolveOwners_lookups (ownerIds_of files) ∅ (after list w2))
    as (t & Ht & Hd & Hl).
  rewrite Hrun in Ht. cbn [snd] in Ht.
  exists t. rewrite Hget. cbn [snd].
  split; [exact Ht|]. split; [exact Hd|]. split; [exact Hl|].
  split; [apply ownerIds_of_length|apply ownerIds_of_NoDup].
Qed.

(** *** The space used, further *)

(** X9: without a current user, [getTotalSpaceUsed] throws "User is not
    authenticated.": it logs the error once and requests nothing after the
    lookup of the user, no listing of files in particular. *)
Theorem getTotalSpaceUsed_unauthenticated (w w2 : world)
    (currentUser : current_user) :
  be (transcript w) CreateSessionClient = Return tt ->
  getCurrentUser (after CreateSessionClient w) = (Return currentUser, w2) ->
  (forall u, currentUser <> UserFound u) ->
  getTotalSpaceUsed w
  = (Throw (JsError "User is not authenticated."),
     with_console
       (console w2
        ++ [LogError "Error calculating total space used:, "
              (JsError "User is not authenticated.")]) w2).
Proof.
  intros Hclient Huser Hnone.
  unfold getTotalSpaceUsed, try_catch. unfold bind at 1.
  rewrite request_run, Hclient. unfold bind at 1. rewrite Huser.
  destruct currentUser as [u| |]; [now destruct (Hnone u)| |]; reflexivity.
Qed.

Lemma addFile_all (ts : TotalSpace) (f : FileDocument) :
  ts_all (addFile ts f) = ts_all ts.
Proof.
  unfold addFile. destruct (_ || _); destruct (f_type f); reflexivity.
Qed.

Lemma fold_addFile_all (files : list FileDocument) (ts : TotalSpace) :
  ts_all (fold_left addFile files ts) = ts_all ts.
Proof.
  revert ts. induction files as [|f files IH]; intros ts; [reflexivity|].
  cbn [fold_left]. now rewrite IH, addFile_all.
Qed.

Lemma latest_of_fold (t : FileType) (docs : list FileDocument) :
  Forall (fun f => exists v, updated f = Some v) docs ->
  latest_of t (fold_left addFile docs initialSpace) docs.
Proof.
  intros Hdates.
  change (latest_of t (fold_left addFile docs initialSpace) ([] ++ docs)).
  apply fold_addFile_latest; [apply latest_of_initial|].
  eapply Forall_impl; [exact Hdates|]. cbn. auto.
Qed.

(** X10: whatever the types of the files are, their [$updatedAt] being
    dates: [all] is 2 GiB; the entry of a type that no file has is still
    size 0 with the empty date; the entry of a type that some file has
    holds as [latestDate] the [$updatedAt] of a file of that type that none
    of that type was updated after. *)
Theorem getTotalSpaceUsed_latest_per_type (w w2 : world) (u : UserDocument)
    (files : DocumentList FileDocument) (docs : list FileDocument) :
  be (transcript w) CreateSessionClient = Return tt ->
  getCurrentUser (after CreateSessionClient w) = (Return (UserFound u), w2) ->
  be (transcript w2)
     (ListDocuments databaseId Files [QEqual "owner" (VArr [VStr (u_id u)])])
  = Return files ->
  documents files = Some docs ->
  Forall (fun f => exists v, updated f = Some v) docs ->
  exists totalSpace,
    fst (getTotalSpaceUsed w) = Return (parseStringify _ totalSpace)
    /\ ts_all totalSpace = 2147483648
    /\ forall t,
         (of_type t docs = [] -> usage_of t totalSpace = mkUsage 0 "")
         /\ (of_type t docs <> [] ->
             exists f, most_recent f (of_type t docs)
                       /\ latestDate (usage_of t totalSpace) = f_updatedAt f).
Proof.
  intros Hclient Huser Hlist Hdocs Hdates.
  exists (fold_left addFile docs initialSpace).
  split; [eapply getTotalSpaceUsed_run; eassumption|].
  split; [now rewrite fold_addFile_all|].
  intros t. pose proof (latest_of_fold t docs Hdates) as Hl.
  pose proof (fold_addFile_usage_size t docs initialSpace) as Hs.
  split.
  - intros Hnil. rewrite Hnil in Hs.
    destruct Hl as [[_ Hd]|(f & [Hin _] & _)]; [|rewrite Hnil in Hin; destruct Hin].
    destruct (usage_of t (fold_left addFile docs initialSpace)) as [s d].
    cbn in Hs, Hd. subst d. f_equal. rewrite Hs. destruct t; reflexivity.
  - intros Hne. destruct Hl as [[Hnil _]|Hl]; [contradiction|exact Hl].
Qed.

Lemma size_sum_perm (docs docs' : list FileDocument) :
  Permutation docs docs' -> size_sum docs = size_sum docs'.
Proof.
  unfold size_sum. induction 1; cbn [fold_right]; lia.
Qed.

Lemma of_type_perm (t : FileType) (docs docs' : list FileDocument) :
  Permutation docs docs' -> Permutation (of_type t docs) (of_type t docs').
Proof.
  unfold of_type. induction 1 as [|f l l' _ IH|f g l|l l' l'' _ IH _ IH'];
    cbn [List.filter].
  - constructor.
  - destruct (FileType_eqb (f_type f) t); [now constructor|exact IH].
  - destruct (FileType_eqb (f_type f) t), (FileType_eqb (f_type g) t);
      try reflexivity; apply perm_swap.
  - now transitivity (List.filter (fun f => FileType_eqb (f_type f) t) l').
Qed.

Lemma most_recent_perm (f f' : FileDocument) (l l' : list FileDocument) :
  Permutation l l' -> most_recent f l -> most_recent f' l' ->
  updated f = updated f'.
Proof.
  intros Hperm [Hin Hmax] [Hin' Hmax'].
  assert (Hf : In f l') by (eapply Permutation_in; eauto).
  assert (Hf' : In f' l).
  { eapply Permutation_in; [symmetry; exact Hperm|exact Hin']. }
  destruct (Hmax f' Hf') as (a & b & Ha & Hb & Hle).
  destruct (Hmax' f Hf) as (b' & a' & Hb' & Ha' & Hle').
  rewrite Ha, Hb. rewrite Ha in Ha'. rewrite Hb in Hb'.
  injection Ha' as <-. injection Hb' as <-. f_equal. lia.
Qed.

(** X11: the totals do not depend on the order in which the backend lists
    the files.  For two listings of the same files, [used], [all] and the
    size of every type are the same; and, the [$updatedAt] of the files
    being dates, the [latestDate] of every type is the same moment. *)
Theorem totalSpace_order_independent (docs docs' : list FileDocument) :
  Permutation docs docs' ->
  let totalSpace := fold_left addFile docs initialSpace in
  let totalSpace' := fold_left addFile docs' initialSpace in
  ts_used totalSpace = ts_used totalSpace'
  /\ ts_all totalSpace = ts_all totalSpace'
  /\ forall t,
       usage_size (usage_of t totalSpace) = usage_size (usage_of t totalSpace')
       /\ (Forall (fun f => exists v, updated f = Some v) docs ->
           Date_value (latestDate (usage_of t totalSpace))
           = Date_value (latestDate (usage_of t totalSpace'))).
Proof.
  intros Hperm. cbn zeta.
  split; [now rewrite !fold_addFile_used, (size_sum_perm _ _ Hperm)|].
  split; [now rewrite !fold_addFile_all|].
  intros t. pose proof (of_type_perm t _ _ Hperm) as Hperm_t. split.
  - now rewrite !fold_addFile_usage_size, (size_sum_perm _ _ Hperm_t).
  - intros Hdates.
    assert (Hdates' : Forall (fun f => exists v, updated f = Some v) docs').
    { rewrite Forall_forall in *. intros f Hf. apply Hdates.
      rewrite list_elem_of_In in *.
      eapply Permutation_in; [symmetry; exact Hperm|exact Hf]. }
    destruct (latest_of_fold t docs Hdates) as [[Hnil Hd]|(f & Hf & Hd)];
      destruct (latest_of_fold t docs' Hdates') as [[Hnil' Hd']|(f' & Hf' & Hd')].
    + now rewrite Hd, Hd'.
    + exfalso. rewrite Hnil in Hperm_t. apply Permutation_nil in Hperm_t.
      destruct Hf' as [Hin _]. rewrite Hperm_t in Hin. destruct Hin.
    + exfalso. rewrite Hnil' in Hperm_t. symmetry in Hperm_t.
      apply Permutation_nil in Hperm_t.
      destruct Hf as [Hin _]. rewrite Hperm_t in Hin. destruct Hin.
    + rewrite Hd, Hd'. exact (most_recent_perm f f' _ _ Hperm_t Hf Hf').
Qed.

(** *** The attributes that sign-up makes sure of *)













(** *** Sign-in *)

(** What [signInUser] returns: [accountId] is the attribute of the user
    document that was found, as it is there, or null; [error] is there for
    an unknown user only. *)
Record SignIn : Type := mkSignIn {
  si_accountId : value;
  si_error : option string
}.

Definition signInUser (email : string) : M SignIn :=
  try_catch
    (existingUser <- getUserByEmail email ;;
     match existingUser with
     | Some user =>
         sendEmailOTP email ;;
         ret (parseStringify _
                {| si_accountId := get_field "accountId" (u_fields user);
                   si_error := None |})
     | None =>
         ret (parseStringify _
                {| si_accountId := VNull; si_error := Some "User not found" |})
     end)
    (fun error => handleError_user error "Failed to sign in user").

(** The exchange is a passcode sent to [email], for the user id [accountId]. *)
Definition passcode_sent (email accountId : string) (i : interaction) : bool :=
  match i with
  | mkInteraction c r =>
      match c return result (answer c) -> bool with
      | AccountCreateEmailToken _ e => fun r =>
          match r with
          | Return token =>
              String.eqb e email && String.eqb (tok_userId token) accountId
          | Throw _ => false
          end
      | _ => fun _ => false
      end r
  end.

(** A request for a passcode, answered or not. *)
Definition requests_passcode (i : interaction) : bool :=
  match i_call i with
  | AccountCreateEmailToken _ _ => true
  | _ => false
  end.

Lemma getUserByEmail_read_only (email : string) :
  read_only (getUserByEmail email).
Proof.
  unfold getUserByEmail.
  apply read_only_bind; [now apply read_only_request|]. intros _.
  apply read_only_bind; [now apply read_only_request|]. intros result.
  destruct (0 <? total result); [apply read_only_lift|apply read_only_ret].
Qed.

Lemma reads_no_passcode (t : list interaction) :
  Forall (fun i => reads (i_call i) = true) t ->
  Forall (fun i => requests_passcode i = false) t.
Proof.
  intros H. eapply Forall_impl; [exact H|].
  intros [c r]. unfold requests_passcode. cbn.
  destruct c; try discriminate; reflexivity.
Qed.

(** X13: sign-in with an email that no user document has.  [signInUser]
    does not throw: it returns the object with a null account id and the
    error "User not found"; it requests no passcode and leaves the world as
    the lookup of the user left it. *)
Theorem signInUser_unknown_email (email : string) (w : world) :
  fst (getUserByEmail email w) = Return None ->
  fst (signInUser email w)
  = Return (parseStringify _
              {| si_accountId := VNull; si_error := Some "User not found" |})
  /\ snd (signInUser email w) = snd (getUserByEmail email w)
  /\ exists t,
       transcript (snd (signInUser email w)) = (transcript w ++ t)%list
       /\ Forall (fun i => requests_passcode i = false) t.
Proof.
  intros Hlookup.
  destruct (getUserByEmail_read_only email w) as ((t & Ht & Hreads) & _).
  unfold signInUser, try_catch, bind.
  destruct (getUserByEmail email w) as [[[user|]|e] w1]; try discriminate.
  cbn [fst snd ret] in *. split; [reflexivity|]. split; [reflexivity|].
  exists t. split; [exact Ht|]. now apply reads_no_passcode.
Qed.

(** X14: sign-in with the email of a user.  [signInUser] sends a passcode
    and returns the account id that the user document holds, whatever user
    id the passcode token carries.  When the passcode cannot be sent the
    error is thrown on, after it is logged once more, as a failure to sign
    in.  In no case does sign-in create a document or an attribute. *)
Theorem signInUser_known_email (email : string) (w w1 : world)
    (user : UserDocument) :
  getUserByEmail email w = (Return (Some user), w1) ->
  signInUser email w
  = match sendEmailOTP email w1 with
    | (Return _, w2) =>
        (Return (parseStringify _
                   {| si_accountId := get_field "accountId" (u_fields user);
                      si_error := None |}),
         w2)
    | (Throw e, w2) =>
        (Throw e,
         with_console (console w2 ++ [LogError "Failed to sign in user" e]) w2)
    end
  /\ adds no_write (signInUser email).
Proof.
  intros Hlookup. split.
  - unfold signInUser, try_catch. unfold bind at 1. rewrite Hlookup.
    unfold bind, ret, handleError_user, console_log, throw.
    destruct (sendEmailOTP email w1) as [[accountId|e] w2]; reflexivity.
  - unfold signInUser.
    apply adds_try_catch; [|intros e; apply adds_handleError_user].
    apply adds_bind; [apply getUserByEmail_adds|]. intros [existing|].
    + apply adds_bind; [apply sendEmailOTP_adds|]. intros _. apply adds_ret.
    + apply adds_ret.
Qed.

(** *** Sign-up: the passcode comes first *)

Lemma sendEmailOTP_sent (email : string) :
  adds_then no_write (sendEmailOTP email)
    (fun accountId t => Exists (fun i => passcode_sent email accountId i = true) t).
Proof.
  intros w. unfold sendEmailOTP, bind, try_catch, unique, ret,
    handleError_user, console_log, throw.
  rewrite request_run.
  set (i0 := mkInteraction CreateAdminClient (be (transcript w) CreateAdminClient)).
  assert (H0 : transcript (after CreateAdminClient w)
               = (transcript w ++ [i0])%list) by apply transcript_after.
  assert (P0 : Forall no_write [i0]) by (repeat constructor).
  clearbody i0. cbn [answer] in *.
  destruct (be (transcript w) CreateAdminClient) as [[]|e].
  2:{ exists [i0]. cbn [fst snd]. repeat split; auto. discriminate. }
  rewrite request_run.
  set (w1 := after CreateAdminClient w) in *.
  set (token := AccountCreateEmailToken (ID_unique (transcript w1)) email).
  set (i1 := mkInteraction token (be (transcript w1) token)).
  assert (H1 : transcript (after token w1) = (transcript w ++ [i0; i1])%list).
  { rewrite transcript_after. rewrite H0 at 1. rewrite <- app_assoc.
    reflexivity. }
  assert (P1 : Forall no_write [i0; i1]).
  { constructor; [now inversion P0|]. constructor; [reflexivity|constructor]. }
  assert (E1 : forall accountId,
            passcode_sent email accountId i1
            = match be (transcript w1) token with
              | Return session =>
                  String.eqb email email
                  && String.eqb (tok_userId session) accountId
              | Throw _ => false
              end) by reflexivity.
  clearbody i1. cbn [answer] in *. exists [i0; i1].
  destruct (be (transcript w1) token) as [session|e]; cbn [fst snd].
  - split; [exact H1|]. split; [exact P1|]. intros a [= <-].
    apply Exists_cons_tl, Exists_cons_hd.
    now rewrite E1, !String.eqb_refl.
  - cbn [transcript with_console]. split; [exact H1|]. split; [exact P1|].
    discriminate.
Qed.

Lemma split_after_prefix (P : interaction -> Prop)
    (pre rest ta tb : list interaction) (i : interaction) :
  Forall P pre -> ~ P i -> (pre ++ rest)%list = (ta ++ i :: tb)%list ->
  exists mid, ta = (pre ++ mid)%list /\ rest = (mid ++ i :: tb)%list.
Proof.
  intros Hpre Hi. revert ta. induction Hpre as [|p pre Hp Hpre IH]; intros ta H.
  - exists ta. auto.
  - destruct ta as [|a ta]; cbn in H.
    + injection H as -> _. contradiction.
    + injection H as -> H. destruct (IH ta H) as (mid & -> & ->).
      exists mid. auto.
Qed.

Lemma no_write_in (t t1 t2 : list interaction) (i : interaction) :
  Forall no_write t -> t = (t1 ++ i :: t2)%list ->
  writes (i_call i) = true -> False.
Proof.
  intros H -> Hi. apply Forall_app in H. destruct H as [_ H].
  inversion H as [|? ? Hno _]; subst. unfold no_write in Hno. congruence.
Qed.

(** X15: sign-up writes nothing before the passcode is out.  In any run of
    [createAccount], an exchange that creates an attribute or a document
    comes after a passcode that was sent to the email, for a non-empty user
    id.  The user document, when its creation is requested, holds that user
    id as [accountId], with the full name, the email and the placeholder
    avatar; it is the last exchange, and [createAccount] returns that same
    id when the creation succeeds and throws its error when it fails. *)
Theorem createAccount_writes_after_passcode (fullName email : string)
    (w : world) :
  let r := createAccount fullName email w in
  exists t,
    transcript (snd r) = (transcript w ++ t)%list
    /\ forall t1 i t2,
         t = (t1 ++ i :: t2)%list ->
         writes (i_call i) = true ->
         exists accountId,
           accountId <> ""
           /\ Exists (fun j => passcode_sent email accountId j = true) t1
           /\ (creates_user_document (i_call i) = true ->
               t2 = []
               /\ (exists id,
                     i_call i
                     = CreateDocument databaseId Users id
                         (newUser fullName email accountId))
               /\ match i_answer i with
                  | Return _ =>
                      fst r
                      = Return (parseStringify _ {| accountId := accountId |})
                  | Throw e => fst r = Throw e
                  end).
Proof.
  cbn zeta. rewrite createAccount_run.
  destruct (getUserByEmail_adds email w) as (t0 & Ht0 & HP0).
  destruct (getUserByEmail email w) as [[existingUser|e] w1]; cbn [fst snd] in *.
  2:{ exists t0. split; [exact Ht0|]. intros t1 i t2 Ht Hi. exfalso.
      eapply no_write_in; eauto. }
  destruct (sendEmailOTP_sent email w1) as (t1 & Ht1 & HP1 & HQ1).
  assert (HP01 : Forall no_write (t0 ++ t1)) by now apply Forall_app.
  assert (Ht01 : transcript (snd (sendEmailOTP email w1))
                 = (transcript w ++ t0 ++ t1)%list).
  { now rewrite Ht1, Ht0, app_assoc. }
  clear Ht1 HP1.
  destruct (sendEmailOTP email w1) as [[accountId|e] w2]; cbn [fst snd] in *.
  2:{ exists (t0 ++ t1)%list. split; [exact Ht01|]. intros ? i ? Ht Hi.
      exfalso. eapply no_write_in; eauto. }
  specialize (HQ1 accountId eq_refl).
  destruct (truthy_str accountId) eqn:Hid.
  2:{ exists (t0 ++ t1)%list. split; [exact Ht01|]. intros ? i ? Ht Hi.
      exfalso. eapply no_write_in; eauto. }
  apply truthy_str_true in Hid.
  destruct existingUser as [existing|].
  { exists (t0 ++ t1)%list. split; [exact Ht01|]. intros ? i ? Ht Hi.
    exfalso. eapply no_write_in; eauto. }
  set (admin := mkInteraction CreateAdminClient (be (transcript w2) CreateAdminClient)).
  set (pre := ((t0 ++ t1) ++ [admin])%list).
  assert (Ht2 : transcript (after CreateAdminClient w2)
                = (transcript w ++ pre)%list).
  { rewrite transcript_after. rewrite Ht01 at 1. unfold pre.
    rewrite <- !app_assoc. reflexivity. }
  assert (HP2 : Forall no_write pre).
  { apply Forall_app. split; [exact HP01|]. repeat constructor. }
  assert (Hsent : Exists (fun j => passcode_sent email accountId j = true) pre).
  { unfold pre. apply Exists_app. left. apply Exists_app. now right. }
  clearbody pre admin. cbn [answer] in *.
  destruct (be (transcript w2) CreateAdminClient) as [[]|e].
  2:{ exists pre. split; [exact Ht2|]. intros ? i ? Ht Hi.
      exfalso. eapply no_write_in; eauto. }
  destruct (ensureAttributes_from_ensures keysToEnsure []
              (after CreateAdminClient w2)) as (t3 & Ht3 & HP3 & _).
  fold (ensureAttributes Users keysToEnsure) in Ht3.
  assert (Ht3' : transcript
                   (snd (ensureAttributes Users keysToEnsure
                           (after CreateAdminClient w2)))
                 = (transcript w ++ pre ++ t3)%list).
  { now rewrite Ht3, Ht2, <- app_assoc. }
  clear Ht3.
  assert (Hwrite : forall i, writes (i_call i) = true -> ~ no_write i).
  { intros i Hi Hno. unfold no_write in Hno. congruence. }
  destruct (ensureAttributes Users keysToEnsure (after CreateAdminClient w2))
    as [[created|e] w4]; cbn [fst snd] in *.
  2:{ exists (pre ++ t3)%list. split; [exact Ht3'|]. intros ta i tb Ht Hi.
      destruct (split_after_prefix _ _ _ _ _ _ HP2 (Hwrite i Hi) Ht)
        as (mid & -> & Hrest).
      exists accountId. split; [exact Hid|].
      split; [apply Exists_app; now left|].
      intros Hdoc. exfalso. eapply no_user_document_in; eauto. }
  cbv zeta.
  set (create := CreateDocument databaseId Users (ID_unique (transcript w4))
                   (newUser fullName email accountId)).
  set (icreate := mkInteraction create (be (transcript w4) create)).
  match goal with
  | |- exists t, transcript (snd ?x) = _ /\ _ => set (r := x)
  end.
  assert (Hr : transcript (snd r)
               = (transcript w ++ pre ++ t3 ++ [icreate])%list).
  { assert (H : transcript (after create w4)
                = (transcript w ++ pre ++ t3 ++ [icreate])%list).
    { rewrite transcript_after. rewrite Ht3' at 1. rewrite <- !app_assoc.
      reflexivity. }
    subst r. cbn [answer Document] in *.
    destruct (be (transcript w4) create); exact H. }
  assert (Hres : match i_answer icreate with
                 | Return _ =>
                     fst r
                     = Return (parseStringify _ {| accountId := accountId |})
                 | Throw e => fst r = Throw e
                 end).
  { subst r icreate. cbn [i_answer answer Document] in *.
    destruct (be (transcript w4) create); reflexivity. }
  assert (Hcall : i_call icreate = create) by reflexivity.
  clearbody r icreate.
  exists (pre ++ t3 ++ [icreate])%list. split; [exact Hr|].
  intros ta i tb Ht Hi.
  destruct (split_after_prefix _ _ _ _ _ _ HP2 (Hwrite i Hi) Ht)
    as (mid & -> & Hrest).
  exists accountId. split; [exact Hid|].
  split; [apply Exists_app; now left|].
  intros Hdoc.
  assert (Hni : ~ no_user_document i).
  { unfold no_user_document. congruence. }
  destruct (split_at_last _ _ _ _ _ _ HP3 Hni Hrest) as (-> & -> & ->).
  split; [reflexivity|]. split; [|exact Hres].
  exists (ID_unique (transcript w4)). exact Hcall.
Qed.

(** ** The actions that change documents and sessions *)

(** The requests that only [renameFile], [updateFileUsers], [deleteFile] and
    [verifySecret] make. *)
Inductive change : Type :=
| UpdateDocument (databaseId : string) (c : collection) (id : string) (data : obj)
| DeleteDocument (databaseId : string) (c : collection) (id : string)
| AccountCreateSession (userId secret : string).

(** [Models.Session], as far as it is read. *)
Record Session : Type := mkSession {
  ses_id : string;
  ses_secret : string
}.

(** What the backend answers: the updated document; whatever
    [deleteDocument] resolves to (the action only tests it); the session. *)
Definition changed (c : change) : Type :=
  match c with
  | UpdateDocument _ c _ _ => Document c
  | DeleteDocument _ _ _ => value
  | AccountCreateSession _ _ => Session
  end.

Record alteration : Type := mkAlteration {
  a_call : change;
  a_answer : result (changed a_call)
}.

(** The options of [cookies().set]. *)
Record CookieOptions : Type := mkCookieOptions {
  co_path : string;
  co_httpOnly : bool;
  co_sameSite : string;
  co_secure : bool
}.

(** The world, the changes requested so far with their answers, and the
    options that the cookies were set with. *)
Record state : Type := mkState {
  base : world;
  alterations : list alteration;
  cookie_options : gmap string CookieOptions
}.

Definition with_base (w : world) (s : state) : state :=
  {| base := w; alterations := alterations s;
     cookie_options := cookie_options s |}.

(** The handler monad over such a state. *)
Definition MC (A : Type) : Type := state -> result A * state.

Definition ret_c {A} (a : A) : MC A := fun s => (Return a, s).

Definition bind_c {A B} (m : MC A) (k : A -> MC B) : MC B :=
  fun s =>
    match m s with
    | (Return a, s') => k a s'
    | (Throw e, s') => (Throw e, s')
    end.

Definition try_catch_c {A} (m : MC A) (h : exn -> MC A) : MC A :=
  fun s =>
    match m s with
    | (Return a, s') => (Return a, s')
    | (Throw e, s') => h e s'
    end.

(** A handler of the first kind, run on the world of the state. *)
Definition on_world {A} (m : M A) : MC A :=
  fun s =>
    match m (base s) with
    | (r, w') => (r, with_base w' s)
    end.

Declare Scope change_scope.
Delimit Scope change_scope with change.
Notation "x <- m ;; k" := (bind_c m (fun x => k))
  (at level 100, m at next level, right associativity) : change_scope.
Notation "m ;; k" := (bind_c m (fun _ => k))
  (at level 100, right associativity) : change_scope.

(** The backend, for these requests: its answer after the exchanges and the
    changes so far. *)
Variable be_change :
  list interaction -> list alteration -> forall c : change, result (changed c).

Definition alter (c : change) : MC (changed c) :=
  fun s =>
    let r := be_change (transcript (base s)) (alterations s) c in
    (r, {| base := base s;
           alterations := (alterations s ++ [mkAlteration c r])%list;
           cookie_options := cookie_options s |}).

(** [(await cookies()).set(name, v, options)] *)
Definition cookies_set (name v : string) (options : CookieOptions) : MC unit :=
  fun s =>
    (Return tt,
     {| base := with_cookies (<[name := v]> (cookies (base s))) (base s);
        alterations := alterations s;
        cookie_options := <[name := options]> (cookie_options s) |}).

(** The objects [{ sessionId }] and [{ status }] that the actions return. *)
Record SessionRef : Type := mkSessionRef { sessionId : string }.
Record Status : Type := mkStatus { status : string }.

Local Open Scope change_scope.

(** *** user.actions.ts, the rest *)

Definition verifySecret (accountId password : string) : MC SessionRef :=
  try_catch_c
    (on_world (request CreateAdminClient) ;;
     session <- alter (AccountCreateSession accountId password) ;;
     cookies_set "appwrite-session" (ses_secret session)
       {| co_path := "/"; co_httpOnly := true; co_sameSite := "strict";
          co_secure := true |} ;;
     ret_c (parseStringify _ {| sessionId := ses_id session |}))
    (fun error => on_world (handleError_user error "Failed to verify OTP")).

(** *** file.actions.ts, the rest *)

Definition renameFile (fileId name extension path : string) : MC FileDocument :=
  on_world (request CreateAdminClient) ;;
  try_catch_c
    (let newName := name ++ "." ++ extension in
     updatedFile <- alter
       (UpdateDocument databaseId Files fileId [("name", VStr newName)]) ;;
     on_world (revalidatePath path) ;;
     ret_c (parseStringify _ updatedFile))
    (fun error => on_world (handleError_file error "Failed to rename file")).

Definition updateFileUsers (fileId : string) (emails : list string)
    (path : string) : MC FileDocument :=
  on_world (request CreateAdminClient) ;;
  try_catch_c
    (updatedFile <- alter
       (UpdateDocument databaseId Files fileId
          [("users", VArr (map VStr emails))]) ;;
     on_world (revalidatePath path) ;;
     ret_c (parseStringify _ updatedFile))
    (fun error => on_world (handleError_file error "Failed to rename file")).

Definition deleteFile (fileId bucketFileId path : string) : MC Status :=
  on_world (request CreateAdminClient) ;;
  try_catch_c
    (deletedFile <- alter (DeleteDocument databaseId Files fileId) ;;
     (if truthy deletedFile
      then on_world (request (StorageDeleteFile bucketId bucketFileId)) ;;
           ret_c tt
      else ret_c tt) ;;
     on_world (revalidatePath path) ;;
     ret_c (parseStringify _ {| status := "success" |}))
    (fun error => on_world (handleError_file error "Failed to rename file")).

Local Close Scope change_scope.

Ltac run_c :=
  unfold bind_c, try_catch_c, ret_c, on_world, alter, cookies_set, with_base;
  run; cbn [fst snd base alterations cookie_options].

(** *** Properties *)

(** X16: [verifySecret] sets the appwrite-session cookie exactly when the
    session is created.  With the admin client and the session there, the
    cookie holds the secret of the session, for the path /, http-only,
    same-site strict and secure, and the id of the session is returned.
    When the client or the session fails, the cookies are as they were and
    the error is thrown on after it is logged once. *)
Theorem verifySecret_sets_cookie_iff_session (accountId password : string)
    (s : state) :
  let r := verifySecret accountId password s in
  let w1 := after CreateAdminClient (base s) in
  let logged e :=
    console (base (snd r))
    = (console (base s) ++ [LogError "Failed to verify OTP" e])%list in
  match be (transcript (base s)) CreateAdminClient with
  | Throw e =>
      fst r = Throw e /\ cookies (base (snd r)) = cookies (base s)
      /\ alterations (snd r) = alterations s /\ logged e
  | Return _ =>
      match be_change (transcript w1) (alterations s)
              (AccountCreateSession accountId password) with
      | Throw e =>
          fst r = Throw e /\ cookies (base (snd r)) = cookies (base s)
          /\ logged e
      | Return session =>
          fst r = Return (parseStringify _ {| sessionId := ses_id session |})
          /\ cookies (base (snd r))
             = <["appwrite-session" := ses_secret session]> (cookies (base s))
          /\ cookie_options (snd r) !! "appwrite-session"
             = Some {| co_path := "/"; co_httpOnly := true;
                       co_sameSite := "strict"; co_secure := true |}
          /\ console (base (snd r)) = console (base s)
      end
  end.
Proof.
  cbn zeta. unfold verifySecret. run_c.
  destruct (be (transcript (base s)) CreateAdminClient) as [[]|e]; cbn;
    [|auto].
  destruct (be_change _ _ (AccountCreateSession accountId password))
    as [session|e]; cbn; [|auto].
  repeat split. apply lookup_insert_eq.
Qed.

(** X17: what [deleteFile] does, by the answers of the backend.  It asks
    for the deletion of the document first; the object of the bucket is
    asked to be deleted only when that succeeded (with a truthy answer).
    When the deletion of the document fails, nothing else is requested and
    the bucket is as it was.  When the document is deleted and the deletion
    of the object fails, the error is thrown and the object stays in the
    bucket, without its document.  The path is revalidated exactly when
    the action returns. *)
Theorem deleteFile_outcomes (fileId bucketFileId path : string) (s : state) :
  let r := deleteFile fileId bucketFileId path s in
  let w := base s in
  let w1 := after CreateAdminClient w in
  let remove := StorageDeleteFile bucketId bucketFileId in
  let success := Return (parseStringify _ {| status := "success" |}) in
  match be (transcript w) CreateAdminClient with
  | Throw e => r = (Throw e, with_base w1 s)
  | Return _ =>
      match be_change (transcript w1) (alterations s)
              (DeleteDocument databaseId Files fileId) with
      | Throw e =>
          fst r = Throw e
          /\ transcript (base (snd r)) = transcript w1
          /\ bucket (base (snd r)) = bucket w
          /\ revalidated (base (snd r)) = revalidated w
      | Return deletedFile =>
          if truthy deletedFile then
            match be (transcript w1) remove with
            | Return _ =>
                fst r = success
                /\ bucket (base (snd r)) = bucket w ∖ {[ bucketFileId ]}
                /\ revalidated (base (snd r)) = (revalidated w ++ [path])%list
            | Throw e =>
                fst r = Throw e
                /\ bucket (base (snd r)) = bucket w
                /\ revalidated (base (snd r)) = revalidated w
            end
          else
            fst r = success
            /\ transcript (base (snd r)) = transcript w1
            /\ bucket (base (snd r)) = bucket w
            /\ revalidated (base (snd r)) = (revalidated w ++ [path])%list
      end
  end.
Proof.
  cbn zeta. unfold deleteFile. run_c.
  destruct (be (transcript (base s)) CreateAdminClient) as [[]|e]; cbn;
    [|reflexivity].
  destruct (be_change _ _ (DeleteDocument databaseId Files fileId))
    as [deletedFile|e]; cbn; [|auto].
  destruct (truthy deletedFile); cbn; [|auto].
  destruct (be _ (StorageDeleteFile bucketId bucketFileId)) as [[]|e]; cbn; auto.
Qed.

(** X18: the three actions that change a file revalidate the path exactly
    when they return, and once; a run that throws revalidates nothing, and
    logs its error as "Failed to rename file" whichever of the three it
    is.  [renameFile] and [updateFileUsers] request one update, of the one
    field [name] (the name, a dot, the extension) or [users] (the emails),
    and never touch the bucket. *)
Theorem file_changes_revalidate_iff_return (fileId path : string) (s : state) :
  let revalidates {A} (r : result A * state) :=
    revalidated (base (snd r))
    = match fst r with
      | Return _ => (revalidated (base s) ++ [path])%list
      | Throw _ => revalidated (base s)
      end in
  let logs {A} (r : result A * state) :=
    forall e, fst r = Throw e ->
      be (transcript (base s)) CreateAdminClient = Return tt ->
      console (base (snd r))
      = (console (base s) ++ [LogError "Failed to rename file" e])%list in
  let updates {A} (r : result A * state) (data : obj) :=
    be (transcript (base s)) CreateAdminClient = Return tt ->
    bucket (base (snd r)) = bucket (base s)
    /\ exists a,
         alterations (snd r) = (alterations s ++ [a])%list
         /\ a_call a = UpdateDocument databaseId Files fileId data in
  (forall name extension,
     let r := renameFile fileId name extension path s in
     revalidates r /\ logs r
     /\ updates r [("name", VStr (name ++ "." ++ extension))])
  /\ (forall emails,
        let r := updateFileUsers fileId emails path s in
        revalidates r /\ logs r /\ updates r [("users", VArr (map VStr emails))])
  /\ (forall bucketFileId,
        let r := deleteFile fileId bucketFileId path s in
        revalidates r /\ logs r).
Proof.
  cbn zeta. split; [|split].
  - intros name extension. unfold renameFile. run_c.
    destruct (be (transcript (base s)) CreateAdminClient) as [[]|e]; cbn.
    2:{ repeat split; discriminate. }
    destruct (be_change _ _ (UpdateDocument _ _ _ _)) as [updatedFile|e]; cbn.
    + repeat split; try discriminate. eexists. split; reflexivity.
    + repeat split; try congruence. eexists. split; reflexivity.
  - intros emails. unfold updateFileUsers. run_c.
    destruct (be (transcript (base s)) CreateAdminClient) as [[]|e]; cbn.
    2:{ repeat split; discriminate. }
    destruct (be_change _ _ (UpdateDocument _ _ _ _)) as [updatedFile|e]; cbn.
    + repeat split; try discriminate. eexists. split; reflexivity.
    + repeat split; try congruence. eexists. split; reflexivity.
  - intros bucketFileId. unfold deleteFile. run_c.
    destruct (be (transcript (base s)) CreateAdminClient) as [[]|e]; cbn.
    2:{ repeat split; discriminate. }
    destruct (be_change _ _ (DeleteDocument _ _ _)) as [deletedFile|e]; cbn.
    2:{ repeat split; congruence. }
    destruct (truthy deletedFile); cbn.
    2:{ repeat split; discriminate. }
    destruct (be _ (StorageDeleteFile _ _)) as [[]|e]; cbn;
      repeat split; congruence.
Qed.

Lemma bucket_after_successful_upload (w : world) (file : File)
    (ownerId accountId path : string) (bucketFile : BucketFile)
    (attrsResp : value) (attrsArray existingKeys : list value)
    (newFile : FileDocument) :
  let w1 := after CreateAdminClient w in
  let store := StorageCreateFile bucketId (ID_unique (transcript w1))
                 (InputFile_fromBuffer file (file_name file)) in
  let w2 := after store w1 in
  let w3 := after (ListAttributes databaseId Files) w2 in
  let create := CreateDocument databaseId Files (ID_unique (transcript w3))
                  (fileDocument_of existingKeys bucketFile ownerId accountId) in
  be (transcript w) CreateAdminClient = Return tt ->
  be (transcript w1) store = Return bucketFile ->
  be (transcript w2) (ListAttributes databaseId Files) = Return attrsResp ->
  attrsArray_of attrsResp = Return attrsArray ->
  existingKeys_of attrsArray = Return existingKeys ->
  be (transcript w3) create = Return newFile ->
  bucket (snd (uploadFile file ownerId accountId path w))
  = {[ bf_id bucketFile ]} ∪ bucket w.
Proof.
  intros w1 store w2 w3 create Hadmin Hstore Hlist Harray Hkeys Hcreate.
  rewrite (uploadFile_run w file ownerId accountId path bucketFile attrsResp
             attrsArray existingKeys Hadmin Hstore Hlist Harray Hkeys).
  fold w1 store w2 w3 create. rewrite Hcreate.
  cbn [snd bucket with_revalidated].
  rewrite (bucket_after_other create w3). unfold w3.
  rewrite (bucket_after_other (ListAttributes databaseId Files) w2).
  unfold w2, store. rewrite (bucket_after_store _ _ _ _ _ Hstore).
  unfold w1. now rewrite (bucket_after_other CreateAdminClient w).
Qed.

(** X19: an upload, then the deletion of that file.  The upload went
    through; [deleteFile] is then called with the id of the bucket file of
    the upload, and the backend deletes the document and the object.  The
    object of the upload is not in the bucket any more, and the bucket holds
    every other object that it held before the upload, and no other. *)
Theorem upload_then_delete_leaves_no_object (w : world) (file : File)
    (ownerId accountId path : string) (bucketFile : BucketFile)
    (attrsResp : value) (attrsArray existingKeys : list value)
    (newFile : FileDocument) (done : list alteration)
    (options : gmap string CookieOptions) (fileId path' : string)
    (deletedFile : value) :
  let w1 := after CreateAdminClient w in
  let store := StorageCreateFile bucketId (ID_unique (transcript w1))
                 (InputFile_fromBuffer file (file_name file)) in
  let w2 := after store w1 in
  let w3 := after (ListAttributes databaseId Files) w2 in
  let create := CreateDocument databaseId Files (ID_unique (transcript w3))
                  (fileDocument_of existingKeys bucketFile ownerId accountId) in
  let w' := snd (uploadFile file ownerId accountId path w) in
  let w1' := after CreateAdminClient w' in
  let r := deleteFile fileId (bf_id bucketFile) path'
             {| base := w'; alterations := done; cookie_options := options |} in
  be (transcript w) CreateAdminClient = Return tt ->
  be (transcript w1) store = Return bucketFile ->
  be (transcript w2) (ListAttributes databaseId Files) = Return attrsResp ->
  attrsArray_of attrsResp = Return attrsArray ->
  existingKeys_of attrsArray = Return existingKeys ->
  be (transcript w3) create = Return newFile ->
  be (transcript w') CreateAdminClient = Return tt ->
  be_change (transcript w1') done (DeleteDocument databaseId Files fileId)
  = Return deletedFile ->
  truthy deletedFile = true ->
  be (transcript w1') (StorageDeleteFile bucketId (bf_id bucketFile))
  = Return tt ->
  fst r = Return (parseStringify _ {| status := "success" |})
  /\ (bf_id bucketFile ∉ bucket (base (snd r)))
  /\ forall id, id <> bf_id bucketFile ->
       (id ∈ bucket (base (snd r)) <-> id ∈ bucket w).
Proof.
  clear avatarPlaceholderUrl Date_parse.
  intros w1 store w2 w3 create w' w1' r Hadmin Hstore Hlist Harray Hkeys
    Hcreate Hadmin' Hdocument Htruthy Hobject.
  pose proof (bucket_after_successful_upload w file ownerId accountId path
                bucketFile attrsResp attrsArray existingKeys newFile
                Hadmin Hstore Hlist Harray Hkeys Hcreate) as Hbucket.
  fold w' in Hbucket.
  assert (Hrun : r = (Return (parseStringify _ {| status := "success" |}),
                      {| base :=
                           with_revalidated
                             (revalidated
                                (after (StorageDeleteFile bucketId
                                          (bf_id bucketFile)) w1')
                              ++ [path'])
                             (after (StorageDeleteFile bucketId
                                       (bf_id bucketFile)) w1');
                         alterations :=
                           (done
                            ++ [mkAlteration
                                  (DeleteDocument databaseId Files fileId)
                                  (Return deletedFile)])%list;
                         cookie_options := options |})).
  { subst r. unfold deleteFile. unfold bind_c at 1. unfold on_world at 1.
    cbn [base]. rewrite request_run, Hadmin'. fold w1'.
    unfold try_catch_c, bind_c at 1. unfold alter at 1.
    cbn [base alterations cookie_options with_base].
    cbn [changed] in *. rewrite Hdocument. cbv zeta.
    unfold bind_c at 1. rewrite Htruthy. unfold bind_c at 1.
    unfold on_world at 1. cbn [base]. rewrite request_run.
    cbn [answer] in *. rewrite Hobject. reflexivity. }
  rewrite Hrun. cbn [fst snd base bucket with_revalidated].
  rewrite bucket_after_remove. cbn [answer] in *. rewrite Hobject.
  unfold w1'. rewrite (bucket_after_other CreateAdminClient w'), Hbucket.
  split; [reflexivity|]. split.
  - rewrite elem_of_difference, elem_of_singleton. tauto.
  - intros id Hid.
    rewrite elem_of_difference, elem_of_union, !elem_of_singleton. tauto.
Qed.

(** *** The owner of each file of the listing *)

Lemma uniq_from_In (l seen : list string) (x : string) :
  In x l -> ~ In x seen -> In x (uniq_from seen l).
Proof.
  revert seen. induction l as [|a l IH]; intros seen Hin Hseen; [destruct Hin|].
  cbn. destruct (bool_decide (a ∈ seen)) eqn:Ha.
  - apply bool_decide_eq_true in Ha. rewrite list_elem_of_In in Ha.
    destruct Hin as [->|Hin]; [contradiction|]. now apply IH.
  - destruct (decide (x = a)) as [->|Hne]; [now left|].
    right. destruct Hin as [<-|Hin]; [congruence|].
    apply IH; [exact Hin|]. intros [<-|H]; [congruence|contradiction].
Qed.

Lemma ownerIds_of_In (files : list FileDocument) (f : FileDocument)
    (id : string) :
  In f files -> ownerId_of (f_owner f) = Some id -> truthy_str id = true ->
  In id (ownerIds_of files).
Proof.
  intros Hf Hid Htruthy. unfold ownerIds_of, uniq.
  apply uniq_from_In; [|intros []].
  apply filter_In. split; [|exact Htruthy].
  apply list_elem_of_In, list_elem_of_omap. exists f.
  split; [now apply list_elem_of_In|exact Hid].
Qed.

(** *** The owner map read as the object it is *)

(** The names that [Object.prototype] gives to every object. *)
Definition inherited_name (k : string) : bool :=
  String.eqb k "__proto__" || is_builtin k.

Lemma prototype_assign (k : string) (d : option UserDocument)
    (ownerMap : owner_map) :
  k <> "__proto__" -> prototype (assign k d ownerMap) = prototype ownerMap.
Proof.
  intros Hk. unfold assign, reaches_proto_setter.
  destruct (String.eqb_spec k "__proto__"); [contradiction|reflexivity].
Qed.

(** [resolveOwner] leaves the map as it is or assigns under its id. *)
Lemma resolveOwner_assigns (ownerId : string) (ownerMap : owner_map)
    (w : world) :
  exists ownerMap',
    fst (resolveOwner ownerId ownerMap w) = Return ownerMap'
    /\ (ownerMap' = ownerMap \/ exists d, ownerMap' = assign ownerId d ownerMap).
Proof.
  unfold resolveOwner, try_catch, bind, lift, ret. rewrite request_run.
  destruct (be (transcript w) (GetDocument databaseId Users ownerId))
    as [userDoc|e]; cbn [answer Document] in *; [eauto|].
  rewrite request_run.
  destruct (be _ (ListDocuments databaseId Users _)) as [l|e'];
    cbn [answer Document] in *; [|eauto].
  destruct (0 <? total l).
  { unfold first_document, documents_of, bind_r.
    destruct (documents l) as [docs|]; cbn; eauto. }
  rewrite request_run.
  destruct (be _ (ListDocuments databaseId Users _)) as [l'|e''];
    cbn [answer Document] in *; [|eauto].
  destruct (0 <? total l'); [|eauto].
  unfold first_document, documents_of, bind_r.
  destruct (documents l') as [docs|]; cbn; eauto.
Qed.

Lemma resolveOwners_prototype (ownerIds : list string) (ownerMap : owner_map)
    (w : world) (ownerMap' : owner_map) :
  ~ In "__proto__" ownerIds ->
  fst (resolveOwners ownerIds ownerMap w) = Return ownerMap' ->
  prototype ownerMap' = prototype ownerMap.
Proof.
  revert ownerMap w. induction ownerIds as [|ownerId ownerIds IH];
    intros ownerMap w Hnot Hrun.
  - cbn in Hrun. now injection Hrun as <-.
  - cbn [resolveOwners] in Hrun. unfold bind in Hrun.
    destruct (resolveOwner_assigns ownerId ownerMap w) as (om1 & Hfst & Hom1).
    destruct (resolveOwner ownerId ownerMap w) as [[om|e] w1];
      cbn [fst] in Hfst; [|discriminate].
    injection Hfst as ->.
    rewrite (IH om1 w1); [| |exact Hrun].
    + destruct Hom1 as [->|[d ->]]; [reflexivity|].
      apply prototype_assign. intros ->. apply Hnot. now left.
    + intros H. apply Hnot. now right.
Qed.

(** Reading a key that is no name of [Object.prototype], from a map whose
    prototype was not replaced: the document assigned under it, or
    undefined. *)
Lemma read_assigned (k : string) (ownerMap : owner_map) :
  prototype ownerMap = None -> inherited_name k = false ->
  read k ownerMap
  = match ownerMap !! k with
    | Some d => MDocument d
    | None => MUndefined
    end.
Proof.
  unfold inherited_name, read, inherited. intros Hproto Hk.
  apply orb_false_iff in Hk. destruct Hk as [Hk Hbuiltin].
  change (ownerMap !! k) with (owner_map_lookup k ownerMap).
  unfold owner_map_lookup. rewrite Hproto, Hk, Hbuiltin.
  now destruct (own ownerMap !! k) as [[d|]|].
Qed.

(** X20: the listing, file by file.  The client, the current user and the
    listing being there, and no owner id of the listed files being a name
    that every object inherits ([__proto__], [constructor], [toString] and
    the like): [getFiles] returns the files of the listing, as many and in
    the same order, each with every field but [owner] as it came, and with
    the owner that the lookups of its owner id resolved (the direct lookup,
    else the one by account id, else the one by email), at some point of
    the run after the listing.  A file keeps the owner it came with when
    nothing is resolved, and when it has no owner id or an empty one. *)
Theorem getFiles_owner_of_each_file (props : GetFilesProps) (w w2 : world)
    (u : UserDocument) (filesResp : DocumentList FileDocument) :
  let queries := createQueries u (default [] (p_types props))
                   (default "" (p_searchText props))
                   (default "$createdAt-desc" (p_sort props)) (p_limit props) in
  let list := ListDocuments databaseId Files queries in
  let files := default [] (documents filesResp) in
  be (transcript w) CreateAdminClient = Return tt ->
  getCurrentUser (after CreateAdminClient w) = (Return (UserFound u), w2) ->
  be (transcript w2) list = Return filesResp ->
  Forall (fun id => inherited_name id = false) (ownerIds_of files) ->
  exists out docs',
    fst (getFiles props w) = Return (parseStringify _ out)
    /\ total out = total filesResp
    /\ documents out = Some docs'
    /\ length docs' = length files
    /\ forall (i : nat) (f : FileDocument), files !! i = Some f ->
         exists f',
           docs' !! i = Some f'
           /\ f_type f' = f_type f
           /\ f_size f' = f_size f
           /\ f_updatedAt f' = f_updatedAt f
           /\ f_fields f' = f_fields f
           /\ match ownerId_of (f_owner f) with
              | Some id =>
                  if truthy_str id then
                    exists wi t,
                      transcript wi = (transcript (after list w2) ++ t)%list
                      /\ f_owner f'
                         = match chain_at wi id with
                           | Some resolved => owner_of_user resolved
                           | None => f_owner f
                           end
                  else f_owner f' = f_owner f
              | None => f_owner f' = f_owner f
              end.
Proof.
  intros queries list files Hadmin Huser Hlist Hnames.
  destruct (getFiles_run props w w2 u filesResp Hadmin Huser Hlist)
    as (ownerMap & w' & Hrun & Hget & Hchain & _).
  fold queries list files in Hrun, Hget, Hchain.
  assert (Hproto : prototype ownerMap = None).
  { rewrite (resolveOwners_prototype (ownerIds_of files) ∅ (after list w2)
               ownerMap); [reflexivity| |now rewrite Hrun].
    intros Hin. rewrite Forall_forall in Hnames.
    apply list_elem_of_In, Hnames in Hin. discriminate. }
  eexists. exists (map (attachOwner ownerMap) files).
  split; [rewrite Hget; reflexivity|]. split; [reflexivity|].
  split; [reflexivity|]. split; [apply length_map|].
  intros i f Hf. exists (attachOwner ownerMap f).
  split; [rewrite lookup_map, Hf; reflexivity|].
  unfold attachOwner, with_owner. cbn [f_type f_size f_updatedAt f_fields f_owner].
  repeat (split; [reflexivity|]).
  destruct (ownerId_of (f_owner f)) as [id|] eqn:Hid; [|reflexivity].
  destruct (truthy_str id) eqn:Htruthy; [|reflexivity].
  assert (Hin : In id (ownerIds_of files)).
  { eapply ownerIds_of_In; eauto.
    apply list_elem_of_In. eapply list_elem_of_lookup_2. exact Hf. }
  destruct (Hchain id Hin) as (wi & t & Hwi & Hres).
  exists wi, t. split; [exact Hwi|].
  rewrite read_assigned; [|exact Hproto|].
  - rewrite Hres. now destruct (chain_at wi id).
  - rewrite Forall_forall in Hnames. apply Hnames. now apply list_elem_of_In.
Qed.

End Actions.


(** ** Sample backends and runs *)

(** A world with nothing in it, and one that holds a session cookie. *)
Definition w_empty : world := mkWorld [] ∅ ∅ [] [].

Definition w_signed_in : world :=
  mkWorld [] ∅ {[ "appwrite-session" := "secret" ]} [] [].

Definition same_value : forall A : Type, A -> A := fun _ a => a.

(** A backend that hands out a session client and refuses everything else
    (the session behind the cookie is no longer valid). *)
Definition be_stale_session : backend :=
  fun _ c =>
    match c as c0 return result (answer c0) with
    | CreateSessionClient => Return tt
    | AccountGet => Throw (JsError "general_unauthorized_scope")
    | AccountDeleteSession _ => Throw (JsError "general_unauthorized_scope")
    | _ => Throw (JsError "unavailable")
    end.

(** C2, as stated, fails: the remote session deletion fails, sign-out
    redirects, and the appwrite-session cookie is still there. *)
Lemma signOutUser_stale_session_keeps_cookie :
  fst (signOutUser be_stale_session w_signed_in) = Throw (NextRedirect "/sign-in")
  /\ cookies (snd (signOutUser be_stale_session w_signed_in)) !! "appwrite-session"
     = Some "secret".
Proof. split; vm_compute; reflexivity. Qed.

(** What stands for the imports of the actions in the sample runs. *)
Definition sample_unique (t : list interaction) : string :=
  "unique-" ++ pretty (length t).

Definition sample_url (id : string) : string := "https://files.example/" ++ id.

Definition sample_type (name : string) : string * string := ("document", "pdf").

(** The time values of the dates of the sample files. *)
Definition sample_Date_parse (s : string) : option Z :=
  if String.eqb s "2024-03-01T10:00:00.000+00:00" then Some 1709287200000
  else if String.eqb s "2024-04-11T16:45:00.000+00:00" then Some 1712853900000
  else if String.eqb s "2024-05-20T08:30:00.000+00:00" then Some 1716193800000
  else None.

Definition u_ada : UserDocument :=
  mkUser "user-ada"
    [("fullName", VStr "Ada"); ("email", VStr "ada@example.com");
     ("accountId", VStr "acc-ada")].

Definition u_bob : UserDocument :=
  mkUser "user-bob"
    [("fullName", VStr "Bob"); ("email", VStr "bob@example.com");
     ("accountId", VStr "acc-bob")].

Definition u_carol : UserDocument :=
  mkUser "user-carol"
    [("fullName", VStr "Carol"); ("email", VStr "carol@example.com");
     ("accountId", VStr "acc-carol")].

(** Three documents of sizes 20, 10 and 30; the second is the latest. *)
Definition three_documents : list FileDocument :=
  [mkFile document 20 "2024-03-01T10:00:00.000+00:00" (OwnerId "user-ada")
     [("name", VStr "notes.pdf")];
   mkFile document 10 "2024-05-20T08:30:00.000+00:00" (OwnerId "user-ada")
     [("name", VStr "report.pdf")];
   mkFile document 30 "2024-04-11T16:45:00.000+00:00" (OwnerId "user-ada")
     [("name", VStr "draft.pdf")]].

(** Files of several types; their owners are given by document id, by
    account id, by email, by an id that nothing knows, and not at all. *)
Definition mixed_files : list FileDocument :=
  [mkFile image 700 "2024-03-01T10:00:00.000+00:00" (OwnerId "user-ada")
     [("name", VStr "cat.png")];
   mkFile document 10 "2024-05-20T08:30:00.000+00:00" (OwnerId "acc-bob")
     [("name", VStr "report.pdf")];
   mkFile video 9000 "2024-04-11T16:45:00.000+00:00"
     (OwnerObject (Some "carol@example.com") [("fullName", VStr "Carol")])
     [("name", VStr "clip.mp4")];
   mkFile image 300 "2024-04-11T16:45:00.000+00:00" (OwnerId "user-ghost")
     [("name", VStr "dog.png")];
   mkFile other 5 "2024-03-01T10:00:00.000+00:00" OwnerAbsent
     [("name", VStr "blob")];
   mkFile audio 40 "2024-03-01T10:00:00.000+00:00" (OwnerId "user-ada")
     [("name", VStr "song.mp3")]].

Definition found (u : UserDocument) : result (DocumentList UserDocument) :=
  Return (mkList 1 (Some [u])).

Definition nothing_found : result (DocumentList UserDocument) :=
  Return (mkList 0 (Some [])).

(** The users of the sample backend: ada is found by account id and by
    email, bob by account id, carol by email. *)
Definition users_listing (queries : list query)
    : result (DocumentList UserDocument) :=
  match queries with
  | [QEqual attribute (VStr v)] =>
      if String.eqb attribute "accountId" && String.eqb v "acc-ada"
      then found u_ada else nothing_found
  | [QEqual attribute (VArr [VStr v])] =>
      if String.eqb attribute "email" && String.eqb v "ada@example.com"
      then found u_ada else nothing_found
  | [QEqual attribute (VArr [VStr v]); QLimit _] =>
      if String.eqb attribute "accountId" && String.eqb v "acc-bob"
      then found u_bob
      else if String.eqb attribute "email" && String.eqb v "carol@example.com"
      then found u_carol
      else if String.eqb v "user-ghost" then Throw (JsError "timeout")
      else nothing_found
  | _ => Throw (JsError "general_query_invalid")
  end.

(** The attributes of the files collection of the sample backend: both
    accountId and account_id, and the bucket file reference under [$id]. *)
Definition file_attributes : value :=
  VObj
    [("total", VNum 7);
     ("attributes",
      VArr
        [VObj [("key", VStr "name")]; VObj [("key", VStr "url")];
         VObj [("key", VStr "account_id")]; VObj [("key", VStr "accountId")];
         VObj [("key", VNull); ("$id", VStr "bucketFileId")];
         VObj [("key", VStr "owner")]; VObj [("key", VStr "colour")]])].

(** The attributes of the users collection: no avatar yet. *)
Definition user_attributes : value :=
  VObj
    [("attributes",
      VArr
        [VObj [("key", VStr "fullName")]; VObj [("key", VStr "email")];
         VObj [("key", VStr "accountId")]])].

(** A backend that knows the three users, lists [files] as the files of
    the current user, stores every upload, and refuses the documents of the
    files collection. *)
Definition be_drive (files : list FileDocument) : backend :=
  fun _ c =>
    match c as c0 return result (answer c0) with
    | CreateAdminClient | CreateSessionClient => Return tt
    | StorageCreateFile _ fileId file =>
        Return (mkBucketFile fileId (input_name file)
                  (Z.of_nat (length (input_bytes file))))
    | StorageDeleteFile _ _ => Return tt
    | ListAttributes _ collectionId =>
        match collectionId with
        | Users => Return user_attributes
        | Files => Return file_attributes
        end
    | CreateStringAttribute _ _ _ _ _ => Return tt
    | CreateDocument _ collectionId id data =>
        match collectionId as c1 return result (Document c1) with
        | Users => Return (mkUser id data)
        | Files => Throw (JsError "document_invalid_structure")
        end
    | GetDocument _ collectionId id =>
        match collectionId as c1 return result (Document c1) with
        | Users =>
            if String.eqb id "user-ada" then Return u_ada
            else Throw (JsError "document_not_found")
        | Files => Throw (JsError "document_not_found")
        end
    | ListDocuments _ collectionId queries =>
        match collectionId as c1 return result (DocumentList (Document c1)) with
        | Users => users_listing queries
        | Files => Return (mkList (Z.of_nat (length files)) (Some files))
        end
    | AccountCreateEmailToken userId _ => Return (mkToken userId)
    | AccountGet => Return (mkAccount "acc-ada")
    | AccountDeleteSession _ => Return tt
    end.

(** The same backend with a storage that refuses deletions. *)
Definition be_drive_no_deletion (files : list FileDocument) : backend :=
  fun t c =>
    match c as c0 return result (answer c0) -> result (answer c0) with
    | StorageDeleteFile _ _ => fun _ => Throw (JsError "storage_unavailable")
    | _ => fun r => r
    end (be_drive files t c).

Definition sample_file : File :=
  mkBrowserFile "report.pdf" [Byte.x25; Byte.x50; Byte.x44; Byte.x46].

Definition sample_bucketFile : BucketFile :=
  mkBucketFile "unique-1" "report.pdf" 4.

Definition sample_attrsArray : list value :=
  [VObj [("key", VStr "name")]; VObj [("key", VStr "url")];
   VObj [("key", VStr "account_id")]; VObj [("key", VStr "accountId")];
   VObj [("key", VNull); ("$id", VStr "bucketFileId")];
   VObj [("key", VStr "owner")]; VObj [("key", VStr "colour")]].

Definition sample_existingKeys : list value :=
  [VStr "name"; VStr "url"; VStr "account_id"; VStr "accountId";
   VStr "bucketFileId"; VStr "owner"; VStr "colour"].

Definition sample_payload : obj :=
  fileDocument_of sample_url sample_type sample_existingKeys sample_bucketFile
    "user-ada" "acc-ada".

(** The upload of the sample file by ada, from the empty world. *)
Definition sample_upload (be : backend) : result FileDocument * world :=
  uploadFile be sample_unique same_value sample_url sample_type "bucket" "db"
    sample_file "user-ada" "acc-ada" "/documents" w_empty.

Definition sample_props : GetFilesProps := mkGetFilesProps None None None None.

(** The listing of the files of ada, with the defaults of [getFiles]. *)
Definition sample_listing : result (DocumentList FileDocument) * world :=
  getFiles (be_drive mixed_files) same_value "db" sample_props w_signed_in.

Definition sample_usage (files : list FileDocument) : result TotalSpace * world :=
  getTotalSpaceUsed (be_drive files) same_value "db" sample_Date_parse w_signed_in.

Definition sample_signup (fullName email : string) : result AccountRef * world :=
  createAccount (be_drive []) sample_unique same_value "avatar.png" "db"
    fullName email w_empty.

Ltac compute_match H :=
  lazymatch type of H with
  | match ?r with _ => _ end =>
      let v := eval vm_compute in r in
      change r with v in H; cbv beta iota in H
  end.

(** *** The samples, run *)

Example sample_upload_requests :
  map i_call (transcript (snd (sample_upload (be_drive []))))
  = [CreateAdminClient;
     StorageCreateFile "bucket" "unique-1"
       (mkInputFile [Byte.x25; Byte.x50; Byte.x44; Byte.x46] "report.pdf");
     ListAttributes "db" Files;
     CreateDocument "db" Files "unique-3"
       [("name", VStr "report.pdf");
        ("url", VStr "https://files.example/unique-1");
        ("owner", VStr "user-ada"); ("accountId", VStr "acc-ada");
        ("bucketFileId", VStr "unique-1")];
     StorageDeleteFile "bucket" "unique-1"].
Proof. vm_compute. reflexivity. Qed.

Example sample_usage_three_documents :
  fst (sample_usage three_documents)
  = Return
      {| ts_image := mkUsage 0 "";
         ts_document := mkUsage 60 "2024-05-20T08:30:00.000+00:00";
         ts_video := mkUsage 0 ""; ts_audio := mkUsage 0 "";
         ts_other := mkUsage 0 ""; ts_used := 60; ts_all := 2147483648 |}.
Proof. vm_compute. reflexivity. Qed.

Example sample_listing_requests :
  map i_call (transcript (snd sample_listing))
  = [CreateAdminClient; CreateSessionClient; AccountGet;
     ListDocuments "db" Users [QEqual "accountId" (VStr "acc-ada")];
     ListDocuments "db" Files
       [QOr [QEqual "owner" (VArr [VStr "user-ada"]);
             QContains "users" (VArr [VStr "ada@example.com"])];
        QOrderDesc "$createdAt"];
     GetDocument "db" Users "user-ada";
     GetDocument "db" Users "acc-bob";
     ListDocuments "db" Users
       [QEqual "accountId" (VArr [VStr "acc-bob"]); QLimit 1];
     GetDocument "db" Users "carol@example.com";
     ListDocuments "db" Users
       [QEqual "accountId" (VArr [VStr "carol@example.com"]); QLimit 1];
     ListDocuments "db" Users
       [QEqual "email" (VArr [VStr "carol@example.com"]); QLimit 1];
     GetDocument "db" Users "user-ghost";
     ListDocuments "db" Users
       [QEqual "accountId" (VArr [VStr "user-ghost"]); QLimit 1]].
Proof. vm_compute. reflexivity. Qed.

Example sample_listing_owners :
  option_map (map f_owner) (match fst sample_listing with
                            | Return out => documents out
                            | Throw _ => None
                            end)
  = Some [owner_of_user u_ada; owner_of_user u_bob; owner_of_user u_carol;
          OwnerId "user-ghost"; OwnerAbsent; owner_of_user u_ada].
Proof. vm_compute. reflexivity. Qed.

Example sample_signup_new_user :
  map i_call (transcript (snd (sample_signup "Dan" "dan@example.com")))
  = [CreateAdminClient;
     ListDocuments "db" Users [QEqual "email" (VArr [VStr "dan@example.com"])];
     CreateAdminClient;
     AccountCreateEmailToken "unique-3" "dan@example.com";
     CreateAdminClient;
     ListAttributes "db" Users; ListAttributes "db" Users;
     ListAttributes "db" Users;
     CreateStringAttribute "db" Users "avatar" 255 false;
     ListAttributes "db" Users;
     CreateDocument "db" Users "unique-10"
       [("fullName", VStr "Dan"); ("email", VStr "dan@example.com");
        ("avatar", VStr "avatar.png"); ("accountId", VStr "unique-3")]].
Proof. vm_compute. reflexivity. Qed.

Example sample_queries :
  createQueries u_ada ["image"; "video"] "cat" "name-asc" (Some 10)
  = [QOr [QEqual "owner" (VArr [VStr "user-ada"]);
          QContains "users" (VArr [VStr "ada@example.com"])];
     QEqual "type" (VArr [VStr "image"; VStr "video"]);
     QContains "name" (VStr "cat");
     QLimit 10;
     QOrderAsc "name"].
Proof. reflexivity. Qed.

(** *** Witnesses and counterexamples *)

(** C1, as stated, fails: the creation of the document fails, the deletion of
    the bucket object fails too, the caller gets the error of the deletion
    and the object stays in the bucket. *)
Lemma uploadFile_failed_deletion_leaves_object :
  fst (sample_upload (be_drive_no_deletion []))
  = Throw (JsError "storage_unavailable")
  /\ fst (sample_upload (be_drive_no_deletion []))
     <> Throw (JsError "document_invalid_structure")
  /\ "unique-1" ∈ bucket (snd (sample_upload (be_drive_no_deletion []))).
Proof.
  split; [vm_compute; reflexivity|]. split.
  - vm_compute. discriminate.
  - apply (bool_decide_unpack _). vm_compute. exact I.
Qed.

Lemma uploadFile_rollback_witness :
  fst (sample_upload (be_drive [])) = Throw (JsError "document_invalid_structure")
  /\ "unique-1" ∉ bucket (snd (sample_upload (be_drive []))).
Proof.
  destruct (uploadFile_rollback (be_drive []) sample_unique same_value sample_url
     sample_type "bucket" "db" w_empty sample_file "user-ada" "acc-ada"
     "/documents" sample_bucketFile file_attributes sample_attrsArray
     sample_existingKeys (JsError "document_invalid_structure")
     eq_refl eq_refl eq_refl eq_refl eq_refl eq_refl) as [_ H].
  compute_match H. exact H.
Defined.

(** C6, as stated, fails: an empty sort string gives no ordering clause, and
    the limit 0 gives no limit clause. *)
Lemma createQueries_empty_sort_zero_limit :
  count is_order (createQueries u_ada [] "" "" None) = 0%nat
  /\ count is_limit (createQueries u_ada [] "" "$createdAt-desc" (Some 0)) = 0%nat.
Proof. split; reflexivity. Qed.

Lemma getTotalSpaceUsed_three_documents_witness :
  exists totalSpace,
    fst (sample_usage three_documents) = Return totalSpace
    /\ usage_size (ts_document totalSpace) = 60
    /\ exists f, most_recent sample_Date_parse f three_documents
                 /\ latestDate (ts_document totalSpace) = f_updatedAt f.
Proof.
  refine (getTotalSpaceUsed_three_documents (be_drive three_documents) same_value
            "db" sample_Date_parse w_signed_in
            (snd (getCurrentUser (be_drive three_documents) same_value "db"
                    (after (be_drive three_documents) CreateSessionClient
                       w_signed_in)))
            u_ada (mkList 3 (Some three_documents)) three_documents
            eq_refl eq_refl eq_refl eq_refl _ _ _).
  - apply perm_swap.
  - repeat constructor.
  - repeat constructor; eexists; reflexivity.
Defined.

Lemma getTotalSpaceUsed_counts_each_file_once_witness :
  exists totalSpace,
    fst (sample_usage mixed_files) = Return totalSpace
    /\ usage_size (ts_image totalSpace) = 1000
    /\ ts_used totalSpace
       = usage_size (ts_image totalSpace) + usage_size (ts_document totalSpace)
         + usage_size (ts_video totalSpace) + usage_size (ts_audio totalSpace)
         + usage_size (ts_other totalSpace)
    /\ ts_used totalSpace = 10055.
Proof.
  destruct (getTotalSpaceUsed_counts_each_file_once (be_drive mixed_files)
              same_value "db" sample_Date_parse w_signed_in
              (snd (getCurrentUser (be_drive mixed_files) same_value "db"
                      (after (be_drive mixed_files) CreateSessionClient
                         w_signed_in)))
              u_ada (mkList 6 (Some mixed_files)) mixed_files
              eq_refl eq_refl eq_refl eq_refl)
    as (totalSpace & Hrun & Hsize & Hsum & Hused & _).
  exists totalSpace. split; [exact Hrun|]. split; [exact (Hsize image)|].
  split; [exact Hsum|exact Hused].
Defined.

(** The worlds of the sample listing: after the current user is known, and
    after the files are listed. *)
Definition sample_w2 : world :=
  snd (getCurrentUser (be_drive mixed_files) same_value "db"
         (after (be_drive mixed_files) CreateAdminClient w_signed_in)).

Definition sample_w3 : world :=
  after (be_drive mixed_files)
    (ListDocuments "db" Files (createQueries u_ada [] "" "$createdAt-desc" None))
    sample_w2.

Lemma getFiles_resolves_owners_witness :
  exists ownerMap w' out,
    sample_listing = (Return out, w')
    /\ resolveOwners (be_drive mixed_files) "db" (ownerIds_of mixed_files) ∅
         sample_w3
       = (Return ownerMap, w')
    /\ ownerMap !! "user-ada" = Some u_ada
    /\ ownerMap !! "acc-bob" = Some u_bob
    /\ ownerMap !! "carol@example.com" = Some u_carol
    /\ ownerMap !! "user-ghost" = None.
Proof.
  destruct (getFiles_resolves_owners (be_drive mixed_files) same_value "db"
              sample_props w_signed_in sample_w2 u_ada
              (mkList 6 (Some mixed_files)) eq_refl eq_refl eq_refl)
    as [(ownerMap & w' & out & Hrun & Hget & _ & _) _].
  exists ownerMap, w', out. split; [exact Hget|]. split; [exact Hrun|].
  assert (HownerMap :
    forall r : result owner_map * world,
      r = (Return ownerMap, w') ->
      ownerMap = match fst r with
                 | Return resolved => resolved
                 | Throw _ => ∅
                 end).
  { intros r ->. reflexivity. }
  specialize (HownerMap _ Hrun).
  rewrite HownerMap. repeat split; vm_compute; reflexivity.
Defined.

(** The owner map is an ordinary object: a name of [Object.prototype] that
    was not assigned reads as the inherited member, an assignment of
    undefined hides it, and a document assigned to [__proto__] becomes the
    prototype, through which its own properties are read. *)
Example sample_owner_map_reads :
  read "constructor" ∅ = MBuiltin "constructor"
  /\ read "__proto__" ∅ = MObjectPrototype
  /\ read "user-ada" ∅ = MUndefined
  /\ read "constructor" (assign "constructor" None ∅) = MUndefined
  /\ read "constructor" (assign "constructor" (Some u_ada) ∅) = MDocument u_ada
  /\ read "__proto__" (assign "__proto__" (Some u_ada) ∅) = MDocument u_ada
  /\ read "email" (assign "__proto__" (Some u_ada) ∅)
     = MValue (VStr "ada@example.com")
  /\ read "toString" (assign "__proto__" (Some u_ada) ∅) = MBuiltin "toString"
  /\ assign "__proto__" None ∅ = ∅.
Proof. repeat split; vm_compute; reflexivity. Qed.

(** A file whose owner is the string constructor: no user has that id,
    account id or email. *)
Definition constructor_file : FileDocument :=
  mkFile document 4 "2024-03-01T10:00:00.000+00:00" (OwnerId "constructor")
    [("name", VStr "notes.pdf")].

(** C9, on the code: the listing holds one file, owned by the id
    constructor, which no lookup resolves (the direct lookup fails and the
    two listings count no document).  The owner map then has no own property
    of that name, reading it gives the built-in function that every object
    inherits, which is not nullish: what [getFiles] hands to
    [parseStringify] is the file with that function as its owner, not with
    the owner that the backend returned. *)
Theorem getFiles_inherited_member_replaces_owner
    (parseStringify : forall A : Type, A -> A) :
  let be := be_drive [constructor_file] in
  (forall w, chain_at be "db" w "constructor" = None)
  /\ fst (getFiles be parseStringify "db" sample_props w_signed_in)
     = Return
         (parseStringify _
            {| total := 1;
               documents :=
                 Some [with_owner (OwnerBuiltin "constructor") constructor_file] |})
  /\ f_owner (with_owner (OwnerBuiltin "constructor") constructor_file)
     <> f_owner constructor_file.
Proof.
  cbn zeta. split; [intros w; reflexivity|]. split.
  - vm_compute. reflexivity.
  - discriminate.
Qed.

Lemma uploadFile_payload_keys_witness :
  keys sample_payload = ["name"; "url"; "owner"; "accountId"; "bucketFileId"]
  /\ (In "accountId" (keys sample_payload)
      <-> pickKey sample_existingKeys accountCandidates = Some "accountId")
  /\ ~ In "account_id" (keys sample_payload).
Proof.
  destruct (uploadFile_payload_keys (be_drive []) sample_unique same_value
              sample_url sample_type "bucket" "db" w_empty sample_file
              "user-ada" "acc-ada" "/documents" sample_bucketFile
              file_attributes sample_attrsArray sample_existingKeys
              eq_refl eq_refl eq_refl eq_refl eq_refl)
    as (_ & _ & Haccount & _).
  split; [reflexivity|]. split.
  - apply Haccount. cbn. auto.
  - intros Hin. apply Haccount in Hin; [|cbn; auto]. vm_compute in Hin.
    discriminate.
Defined.


(** ** Further samples *)

(** The file document that the accepting backend answers a creation or an
    update with. *)
Definition sample_stored (data : obj) : FileDocument :=
  mkFile document 4 "2024-05-20T08:30:00.000+00:00" (OwnerId "user-ada") data.

(** The sample backend with a files collection that accepts documents. *)
Definition be_drive_accepting (files : list FileDocument) : backend :=
  fun t c =>
    match c as c0 return result (answer c0) -> result (answer c0) with
    | CreateDocument _ collectionId _ data =>
        match collectionId as c1
              return result (Document c1) -> result (Document c1) with
        | Users => fun r => r
        | Files => fun _ => Return (sample_stored data)
        end
    | _ => fun r => r
    end (be_drive files t c).

(** The sample backend with a files collection whose attribute list holds
    a null. *)
Definition be_drive_null_attribute (files : list FileDocument) : backend :=
  fun t c =>
    match c as c0 return result (answer c0) -> result (answer c0) with
    | ListAttributes _ collectionId =>
        match collectionId with
        | Users => fun r => r
        | Files => fun _ => Return (VObj [("attributes", VArr [VNull])])
        end
    | _ => fun r => r
    end (be_drive files t c).

(** The sample backend for a visitor without a session: the clients are
    there, the account is refused. *)
Definition be_signed_out : backend :=
  fun t c =>
    match c as c0 return result (answer c0) -> result (answer c0) with
    | AccountGet => fun _ => Throw (JsError "general_unauthorized_scope")
    | _ => fun r => r
    end (be_drive [] t c).

(** A backend that carries out every change. *)
Definition be_change_accepting (t : list interaction) (done : list alteration)
    (c : change) : result (changed c) :=
  match c as c0 return result (changed c0) with
  | UpdateDocument _ collectionId id data =>
      match collectionId as c1 return result (Document c1) with
      | Users => Return (mkUser id data)
      | Files => Return (sample_stored data)
      end
  | DeleteDocument _ _ _ => Return (VObj [])
  | AccountCreateSession userId _ =>
      Return (mkSession ("session-of-" ++ userId) "s3cr3t")
  end.

(** A backend that refuses every change. *)
Definition be_change_refusing (t : list interaction) (done : list alteration)
    (c : change) : result (changed c) :=
  Throw (JsError "general_unauthorized_scope").

(** A world whose bucket holds an object already. *)
Definition w_one_object : world := mkWorld [] {[ "old-object" ]} ∅ [] [].

Definition s_empty : state := mkState w_empty [] ∅.

Definition sample_signin (email : string) : result SignIn * world :=
  signInUser (be_drive []) sample_unique same_value "db" email w_empty.

(** The deletion of the uploaded sample file, after its upload. *)
Definition sample_upload_delete : result Status * state :=
  deleteFile (be_drive_accepting []) same_value "bucket" "db" be_change_accepting
    "file-1" "unique-1" "/documents"
    (mkState (snd (sample_upload (be_drive_accepting []))) [] ∅).

Example sample_rename_request :
  map a_call
    (alterations
       (snd (renameFile (be_drive []) same_value "db" be_change_accepting
               "file-1" "report" "pdf" "/documents" s_empty)))
  = [UpdateDocument "db" Files "file-1" [("name", VStr "report.pdf")]].
Proof. vm_compute. reflexivity. Qed.

Example sample_share_refused :
  let r := updateFileUsers (be_drive []) same_value "db" be_change_refusing
             "file-1" ["bob@example.com"; "carol@example.com"] "/documents"
             s_empty in
  fst r = Throw (JsError "general_unauthorized_scope")
  /\ map a_call (alterations (snd r))
     = [UpdateDocument "db" Files "file-1"
          [("users", VArr [VStr "bob@example.com"; VStr "carol@example.com"])]]
  /\ revalidated (base (snd r)) = []
  /\ console (base (snd r))
     = [LogError "Failed to rename file" (JsError "general_unauthorized_scope")].
Proof. vm_compute. repeat split; reflexivity. Qed.

Example sample_verify_cookie :
  let r := verifySecret (be_drive []) same_value be_change_accepting
             "unique-3" "123456" s_empty in
  fst r = Return {| sessionId := "session-of-unique-3" |}
  /\ cookies (base (snd r)) !! "appwrite-session" = Some "s3cr3t".
Proof. split; vm_compute; reflexivity. Qed.

Example sample_ensure_users :
  fst (ensureAttributes (be_drive []) "db" Users keysToEnsure w_empty)
  = Return ["avatar"].
Proof. vm_compute. reflexivity. Qed.

(** *** Witnesses of the further properties *)

Lemma uploadFile_success_witness :
  fst (sample_upload (be_drive_accepting []))
  = Return (sample_stored sample_payload)
  /\ "unique-1" ∈ bucket (snd (sample_upload (be_drive_accepting [])))
  /\ revalidated (snd (sample_upload (be_drive_accepting []))) = ["/documents"]
  /\ console (snd (sample_upload (be_drive_accepting []))) = [].
Proof.
  destruct (uploadFile_success (be_drive_accepting []) sample_unique same_value
              sample_url sample_type "bucket" "db" w_empty sample_file
              "user-ada" "acc-ada" "/documents" sample_bucketFile
              file_attributes sample_attrsArray sample_existingKeys
              (sample_stored sample_payload)
              eq_refl eq_refl eq_refl eq_refl eq_refl eq_refl)
    as (Hresult & _ & Hbucket & Hrevalidated & Hconsole).
  split; [exact Hresult|]. split; [exact Hbucket|].
  split; [exact Hrevalidated|exact Hconsole].
Defined.

Lemma uploadFile_schema_failure_leaves_object_witness :
  fst (sample_upload (be_drive_null_attribute []))
  = Throw (TypeError "Cannot read properties of key")
  /\ "unique-1" ∈ bucket (snd (sample_upload (be_drive_null_attribute [])))
  /\ revalidated (snd (sample_upload (be_drive_null_attribute []))) = [].
Proof.
  destruct (uploadFile_schema_failure_leaves_object (be_drive_null_attribute [])
              sample_unique same_value sample_url sample_type "bucket" "db"
              w_empty sample_file "user-ada" "acc-ada" "/documents"
              sample_bucketFile (TypeError "Cannot read properties of key")
              eq_refl eq_refl eq_refl)
    as (Hresult & _ & Hbucket & _ & Hrevalidated).
  split; [exact Hresult|]. split; [exact Hbucket|exact Hrevalidated].
Defined.

Lemma uploadFile_keeps_other_objects_witness :
  "old-object"
  ∈ bucket
      (snd (uploadFile (be_drive []) sample_unique same_value sample_url
              sample_type "bucket" "db" sample_file "user-ada" "acc-ada"
              "/documents" w_one_object)).
Proof.
  apply (uploadFile_keeps_other_objects (be_drive []) sample_unique same_value
           sample_url sample_type "bucket" "db" sample_file "user-ada"
           "acc-ada" "/documents" w_one_object "old-object").
  - intros bucketFile H. cbn in H. injection H as <-. cbn. discriminate.
  - apply (bool_decide_unpack _). vm_compute. exact I.
Defined.

Lemma fileDocument_of_values_witness :
  get_field "accountId" sample_payload = VStr "acc-ada"
  /\ get_field "bucketFileId" sample_payload = VStr "unique-1"
  /\ get_field "url" sample_payload = VStr "https://files.example/unique-1".
Proof.
  destruct (fileDocument_of_values sample_url sample_type sample_existingKeys
              sample_bucketFile "user-ada" "acc-ada") as [_ Hvalue].
  split; [|split].
  - apply (Hvalue "accountId"). cbn. tauto.
  - apply (Hvalue "bucketFileId"). cbn. tauto.
  - apply (Hvalue "url"). cbn. tauto.
Defined.

Lemma getFiles_without_user_witness :
  fst (getFiles be_signed_out same_value "db" sample_props w_empty)
  = Throw (JsError "User not found")
  /\ map i_call
       (transcript
          (snd (getFiles be_signed_out same_value "db" sample_props w_empty)))
     = [CreateAdminClient; CreateSessionClient; AccountGet].
Proof.
  rewrite (getFiles_without_user be_signed_out same_value "db" sample_props
             w_empty
             (snd (getCurrentUser be_signed_out same_value "db"
                     (after be_signed_out CreateAdminClient w_empty)))
             UserUndefined eq_refl eq_refl ltac:(discriminate)).
  split; reflexivity.
Defined.

Lemma getFiles_one_direct_lookup_per_owner_witness :
  exists t,
    transcript (snd sample_listing) = (transcript sample_w3 ++ t)%list
    /\ direct_lookups t = 4%nat
    /\ (length t <= 12)%nat.
Proof.
  destruct (getFiles_one_direct_lookup_per_owner (be_drive mixed_files)
              same_value "db" sample_props w_signed_in sample_w2 u_ada
              (mkList 6 (Some mixed_files)) eq_refl eq_refl eq_refl)
    as (t & Ht & Hdirect & Hlength & _).
  exists t. split; [exact Ht|]. split; [exact Hdirect|exact Hlength].
Defined.

Lemma getTotalSpaceUsed_unauthenticated_witness :
  fst (getTotalSpaceUsed be_signed_out same_value "db" sample_Date_parse w_empty)
  = Throw (JsError "User is not authenticated.")
  /\ map i_call
       (transcript
          (snd (getTotalSpaceUsed be_signed_out same_value "db"
                  sample_Date_parse w_empty)))
     = [CreateSessionClient; CreateSessionClient; AccountGet].
Proof.
  rewrite (getTotalSpaceUsed_unauthenticated be_signed_out same_value "db"
             sample_Date_parse w_empty
             (snd (getCurrentUser be_signed_out same_value "db"
                     (after be_signed_out CreateSessionClient w_empty)))
             UserUndefined eq_refl eq_refl ltac:(discriminate)).
  split; reflexivity.
Defined.

Lemma getTotalSpaceUsed_latest_per_type_witness :
  exists totalSpace,
    fst (sample_usage mixed_files) = Return totalSpace
    /\ ts_all totalSpace = 2147483648
    /\ exists f, most_recent sample_Date_parse f (of_type image mixed_files)
                 /\ latestDate (usage_of image totalSpace) = f_updatedAt f.
Proof.
  destruct (getTotalSpaceUsed_latest_per_type (be_drive mixed_files) same_value
              "db" sample_Date_parse w_signed_in
              (snd (getCurrentUser (be_drive mixed_files) same_value "db"
                      (after (be_drive mixed_files) CreateSessionClient
                         w_signed_in)))
              u_ada (mkList 6 (Some mixed_files)) mixed_files
              eq_refl eq_refl eq_refl eq_refl)
    as (totalSpace & Hrun & Hall & Htypes).
  - repeat constructor; eexists; reflexivity.
  - exists totalSpace. split; [exact Hrun|]. split; [exact Hall|].
    destruct (Htypes image) as [_ Hlatest].
    assert (Hsome : of_type image mixed_files <> []) by (cbn; discriminate).
    exact (Hlatest Hsome).
Defined.

Lemma totalSpace_order_independent_witness :
  ts_used (fold_left (addFile sample_Date_parse) three_documents initialSpace)
  = ts_used
      (fold_left (addFile sample_Date_parse) (rev three_documents) initialSpace)
  /\ Date_value sample_Date_parse
       (latestDate
          (usage_of document
             (fold_left (addFile sample_Date_parse) three_documents
                initialSpace)))
     = Date_value sample_Date_parse
         (latestDate
            (usage_of document
               (fold_left (addFile sample_Date_parse) (rev three_documents)
                  initialSpace))).
Proof.
  destruct (totalSpace_order_independent sample_Date_parse three_documents
              (rev three_documents) (Permutation_rev three_documents))
    as (Hused & _ & Htypes).
  split; [exact Hused|].
  destruct (Htypes document) as [_ Hlatest].
  assert (Hdates : Forall (fun f => exists v, updated sample_Date_parse f = Some v)
                     three_documents).
  { repeat constructor; eexists; reflexivity. }
  exact (Hlatest Hdates).
Defined.

Lemma signInUser_unknown_email_witness :
  fst (sample_signin "dan@example.com")
  = Return {| si_accountId := VNull; si_error := Some "User not found" |}
  /\ snd (sample_signin "dan@example.com")
     = snd (getUserByEmail (be_drive []) "db" "dan@example.com" w_empty).
Proof.
  destruct (signInUser_unknown_email (be_drive []) sample_unique same_value
              "db" "dan@example.com" w_empty eq_refl)
    as (Hresult & Hworld & _).
  split; [exact Hresult|exact Hworld].
Defined.

Lemma signInUser_known_email_witness :
  fst (sample_signin "ada@example.com")
  = Return {| si_accountId := VStr "acc-ada"; si_error := None |}
  /\ map i_call (transcript (snd (sample_signin "ada@example.com")))
     = [CreateAdminClient;
        ListDocuments "db" Users [QEqual "email" (VArr [VStr "ada@example.com"])];
        CreateAdminClient;
        AccountCreateEmailToken "unique-3" "ada@example.com"].
Proof.
  destruct (signInUser_known_email (be_drive []) sample_unique same_value "db"
              "ada@example.com" w_empty
              (snd (getUserByEmail (be_drive []) "db" "ada@example.com" w_empty))
              u_ada eq_refl)
    as [Hrun _].
  unfold sample_signin. rewrite Hrun. split; vm_compute; reflexivity.
Defined.

Lemma upload_then_delete_leaves_no_object_witness :
  fst sample_upload_delete = Return {| status := "success" |}
  /\ ("unique-1" ∉ bucket (base (snd sample_upload_delete))).
Proof.
  destruct (upload_then_delete_leaves_no_object (be_drive_accepting [])
              sample_unique same_value sample_url sample_type "bucket" "db"
              be_change_accepting w_empty sample_file "user-ada" "acc-ada"
              "/documents" sample_bucketFile file_attributes sample_attrsArray
              sample_existingKeys (sample_stored sample_payload) [] ∅
              "file-1" "/documents" (VObj [])
              eq_refl eq_refl eq_refl eq_refl eq_refl eq_refl
              eq_refl eq_refl eq_refl eq_refl)
    as (Hresult & Hgone & _).
  split; [exact Hresult|exact Hgone].
Defined.

Lemma getFiles_owner_of_each_file_witness :
  exists out docs',
    fst sample_listing = Return out
    /\ total out = 6
    /\ documents out = Some docs'
    /\ length docs' = length mixed_files
    /\ forall (i : nat) (f : FileDocument), mixed_files !! i = Some f ->
         exists f',
           docs' !! i = Some f'
           /\ f_type f' = f_type f
           /\ f_size f' = f_size f
           /\ f_updatedAt f' = f_updatedAt f
           /\ f_fields f' = f_fields f
           /\ match ownerId_of (f_owner f) with
              | Some id =>
                  if truthy_str id then
                    exists wi t,
                      transcript wi = (transcript sample_w3 ++ t)%list
                      /\ f_owner f'
                         = match chain_at (be_drive mixed_files) "db" wi id with
                           | Some resolved => owner_of_user resolved
                           | None => f_owner f
                           end
                  else f_owner f' = f_owner f
              | None => f_owner f' = f_owner f
              end.
Proof.
  refine (getFiles_owner_of_each_file (be_drive mixed_files) same_value "db"
            sample_props w_signed_in sample_w2 u_ada
            (mkList 6 (Some mixed_files)) eq_refl eq_refl eq_refl _).
  apply (bool_decide_unpack _). vm_compute. exact I.
Defined.
